(** * fx-discord-news: extraction, scoring, de-duplication, filtering, jobs

    A shallow embedding of the decision engine of [fx-discord-news]
    ([src/nlp/extract.py], [src/nlp/score.py], [src/utils/dedup.py],
    [src/filters/rules.py], [src/scheduler/jobs.py]), of
    [normalize_japanese] of [src/utils/text.py] and of the delivery of
    [src/delivery/discord.py], and the properties of its specification.

    Conventions of the embedding.
    - A Python [str] is a [string]: the sequence of the bytes of its UTF-8
      encoding.  Substring tests, [count] and ordering on valid UTF-8 agree
      with the same operations on code points.  [upper]/[lower] change the
      ASCII letters only, which is what Python does on ASCII text and on
      the kana and ideographs of the keyword tables.  The slices [pair[:3]]
      and [pair[3:]] count bytes; pair codes are ASCII.
    - A Python [int] is a [Z]; a [dict] with string keys is a [gmap string _];
      a [list] is a [list].
    - [datetime.now()] is an explicit argument [now], counted in
      microseconds; [timedelta(hours=h)] is [h * 3600000000].  Every call
      of a method of [DuplicateChecker] has its own [now].  The loops of
      [NewsScheduler] take one reading for a run and a [url] that is a
      [str]; [JobRun] has the jobs as they run, with the [HttpUrl] of an
      article and one reading of the clock for every call.
    - Collaborators that live outside the repository ([hashlib.md5],
      [rapidfuzz.fuzz.ratio], [re.sub]/[unicodedata] in [clean_text], the
      LLM, the HTTP client of the webhooks) are Section variables.
    - A list that two dictionaries share is an entry of a store, and the
      dictionaries hold its index. *)

From Stdlib Require Import ZArith Lia Ascii QArith DecimalString.
From stdpp Require Import base gmap strings list fin_maps sorting.

Local Open Scope Z_scope.

(** ** Python string primitives *)

Module PyStr.

Definition code (c : ascii) : N := N_of_ascii c.

Definition is_ascii_upper (c : ascii) : bool :=
  ((65 <=? code c) && (code c <=? 90))%N.

Definition is_ascii_lower (c : ascii) : bool :=
  ((97 <=? code c) && (code c <=? 122))%N.

Definition is_ascii_digit (c : ascii) : bool :=
  ((48 <=? code c) && (code c <=? 57))%N.

Definition upper_char (c : ascii) : ascii :=
  if is_ascii_lower c then ascii_of_N (code c - 32) else c.

Definition lower_char (c : ascii) : ascii :=
  if is_ascii_upper c then ascii_of_N (code c + 32) else c.

(** [s.upper()] *)
Fixpoint upper (s : string) : string :=
  match s with
  | EmptyString => EmptyString
  | String c s' => String (upper_char c) (upper s')
  end.

(** [s.lower()] *)
Fixpoint lower (s : string) : string :=
  match s with
  | EmptyString => EmptyString
  | String c s' => String (lower_char c) (lower s')
  end.

(** [s.startswith(p)] *)
Fixpoint startswith (p s : string) : bool :=
  match p, s with
  | EmptyString, _ => true
  | String _ _, EmptyString => false
  | String a p', String b s' => if Ascii.eqb a b then startswith p' s' else false
  end.

(** [sub in s] *)
Fixpoint contains (sub s : string) : bool :=
  startswith sub s ||
  match s with
  | EmptyString => false
  | String _ s' => contains sub s'
  end.

(** [s[:n]] and [s[n:]] for a non-negative literal [n] *)
Fixpoint take (n : nat) (s : string) : string :=
  match n, s with
  | S n', String c s' => String c (take n' s')
  | _, _ => EmptyString
  end.

Fixpoint drop (n : nat) (s : string) : string :=
  match n, s with
  | S n', String _ s' => drop n' s'
  | _, _ => s
  end.

(** [s.count(sub)]: the number of non-overlapping occurrences, scanning
    from the left; [skip] is the number of characters still covered by
    the occurrence found last.  For the empty [sub] Python answers
    [len(s) + 1]. *)
Fixpoint count_from (skip : nat) (sub s : string) : Z :=
  match s with
  | EmptyString => 0
  | String _ s' =>
      match skip with
      | S k => count_from k sub s'
      | O => if startswith sub s
             then 1 + count_from (String.length sub - 1) sub s'
             else count_from O sub s'
      end
  end.

Definition count (sub s : string) : Z :=
  match sub with
  | EmptyString => Z.of_nat (String.length s) + 1
  | _ => count_from O sub s
  end.

(** The class [\w] of [re]: letters, digits and the underscore.  Bytes
    above 127 belong to letters and ideographs in the texts handled
    here and count as word constituents. *)
Definition is_word_char (c : ascii) : bool :=
  is_ascii_upper c || is_ascii_lower c || is_ascii_digit c
  || (code c =? 95)%N || (128 <=? code c)%N.

Definition at_word_end (s : string) : bool :=
  match s with
  | EmptyString => true
  | String c _ => negb (is_word_char c)
  end.

(** [re.search(r'\b' + w + r'\b', s)] for a word [w] made of letters:
    an occurrence of [w] with no word constituent on either side. *)
Fixpoint search_word_from (prev_is_word : bool) (w s : string) : bool :=
  (negb prev_is_word && startswith w s && at_word_end (drop (String.length w) s))
  || match s with
     | EmptyString => false
     | String c s' => search_word_from (is_word_char c) w s'
     end.

Definition search_word (w s : string) : bool := search_word_from false w s.

(** [x in xs] for a list of strings *)
Definition mem (x : string) (xs : list string) : bool :=
  existsb (String.eqb x) xs.

(** [sorted(list(set(xs)))]: insertion into a strictly increasing list. *)
Fixpoint insert_uniq (x : string) (l : list string) : list string :=
  match l with
  | [] => [x]
  | y :: l' =>
      match String.compare x y with
      | Lt => x :: l
      | Eq => l
      | Gt => y :: insert_uniq x l'
      end
  end.

Definition sorted_set (xs : list string) : list string :=
  foldr insert_uniq [] xs.

(** [c in k] for a character [c] *)
Fixpoint has_char (c : ascii) (k : string) : bool :=
  match k with
  | EmptyString => false
  | String d k' => Ascii.eqb d c || has_char c k'
  end.

(** [bool(s)] for a string *)
Definition truthy (s : string) : bool :=
  match s with EmptyString => false | _ => true end.

End PyStr.

(** ** [src/nlp/extract.py] *)

Module EntityExtractor.
Import PyStr.

Definition CURRENCIES : list string :=
  [ "USD"; "EUR"; "JPY"; "GBP"; "AUD"; "CAD"; "CHF"; "NZD";
    "CNY"; "HKD"; "SGD"; "SEK"; "NOK"; "MXN"; "ZAR"; "TRY";
    "BRL"; "RUB"; "INR"; "KRW" ].

Definition CENTRAL_BANKS : list (string * list string) :=
  [ ("FED", ["USD"]); ("FRB", ["USD"]); ("FOMC", ["USD"]);
    ("ECB", ["EUR"]); ("BOJ", ["JPY"]); ("日銀", ["JPY"]);
    ("BOE", ["GBP"]); ("RBA", ["AUD"]); ("BOC", ["CAD"]);
    ("SNB", ["CHF"]); ("RBNZ", ["NZD"]); ("PBOC", ["CNY"]) ].

Definition EVENT_CATEGORIES : list (string * list string) :=
  [ ("policy_rate",
      [ "rate decision"; "policy rate"; "interest rate";
        "金利決定"; "政策金利"; "利上げ"; "利下げ";
        "hawkish"; "dovish"; "tightening"; "easing" ]);
    ("official_comment",
      [ "fed chair"; "ecb president"; "governor";
        "speech"; "testimony"; "press conference";
        "議長"; "総裁"; "発言"; "会見" ]);
    ("inflation",
      [ "cpi"; "pce"; "inflation"; "consumer price";
        "消費者物価"; "インフレ"; "物価" ]);
    ("employment",
      [ "nfp"; "non-farm"; "unemployment"; "jobless";
        "雇用統計"; "失業率"; "新規雇用" ]);
    ("gdp",
      [ "gdp"; "gross domestic"; "growth";
        "GDP"; "国内総生産"; "成長率" ]);
    ("pmi",
      [ "pmi"; "purchasing managers"; "manufacturing";
        "PMI"; "製造業"; "サービス業" ]);
    ("retail",
      [ "retail sales"; "consumer spending";
        "小売売上"; "消費支出" ]);
    ("trade",
      [ "trade balance"; "current account"; "exports";
        "貿易収支"; "経常収支"; "輸出" ]) ].

Definition extract_currencies (text : string) : list string :=
  if negb (truthy text) then [] else
  let text_upper := upper text in
  let direct :=
    filter (fun currency =>
              contains currency text_upper && search_word currency text_upper)
           CURRENCIES in
  let implied :=
    flat_map (fun '(bank, bank_currencies) =>
                if contains bank text_upper then bank_currencies else [])
             CENTRAL_BANKS in
  sorted_set (direct ++ implied).

Definition extract_central_banks (text : string) : list string :=
  if negb (truthy text) then [] else
  let text_upper := upper text in
  sorted_set
    (filter (fun bank => contains bank text_upper) (map fst CENTRAL_BANKS)).

(** [sum(1 for keyword in keywords if keyword in text)] *)
Definition keyword_hits (keywords : list string) (text : string) : Z :=
  Z.of_nat (length (filter (fun keyword => contains keyword text) keywords)).

(** [max(scores, key=scores.get)]: the first key, in insertion order,
    whose value is the largest. *)
Fixpoint max_by_value (best : string * Z) (rest : list (string * Z)) : string :=
  match rest with
  | [] => fst best
  | kv :: rest' =>
      if snd best <? snd kv then max_by_value kv rest'
      else max_by_value best rest'
  end.

Definition categorize_event (text : string) : string :=
  if negb (truthy text) then "other" else
  let text_lower := lower text in
  let scores :=
    filter (fun kv => 0 <? snd kv)
           (map (fun '(category, keywords) =>
                   (category, keyword_hits keywords text_lower))
                EVENT_CATEGORIES) in
  match scores with
  | [] => "other"
  | kv :: rest => max_by_value kv rest
  end.

Definition major_bases : list string :=
  [ "EUR"; "GBP"; "AUD"; "NZD"; "USD"; "CAD"; "CHF" ].

Definition jpy_cross_bases : list string :=
  [ "EUR"; "GBP"; "AUD"; "NZD"; "CAD"; "CHF" ].

(** The body of the loop over [currencies]: the pairs appended for one
    [currency]. *)
Definition pairs_of_currency (currencies : list string) (currency : string)
  : list string :=
  (if String.eqb currency "USD" then
     map (fun base => base +:+ "USD")
         (filter (fun base => negb (String.eqb base "USD") && mem base currencies)
                 major_bases)
   else if mem currency major_bases then ["USD" +:+ currency]
   else [])
  ++
  (if String.eqb currency "JPY" then
     map (fun base => base +:+ "JPY")
         (filter (fun base => mem base currencies) jpy_cross_bases)
   else []).

Definition extract_currency_pairs (currencies : list string) : list string :=
  match currencies with
  | [] => []
  | _ => sorted_set (flat_map (pairs_of_currency currencies) currencies)
  end.

End EntityExtractor.

(** ** [src/nlp/score.py] *)

Module ImpactScorer.
Import PyStr.

Definition CATEGORY_WEIGHTS : list (string * Z) :=
  [ ("policy_rate", 90); ("official_comment", 70); ("inflation", 65);
    ("employment", 60); ("gdp", 55); ("pmi", 45); ("retail", 40);
    ("trade", 35); ("other", 20) ].

Definition HIGH_IMPACT_KEYWORDS : list string :=
  [ "surprise"; "unexpected"; "shock"; "emergency";
    "crisis"; "crash"; "surge"; "plunge"; "soar";
    "record"; "historic"; "unprecedented";
    "サプライズ"; "予想外"; "急騰"; "急落"; "過去最";
    "breaking"; "alert"; "urgent" ].

Definition LOW_IMPACT_KEYWORDS : list string :=
  [ "expected"; "forecast"; "predicted"; "inline";
    "unchanged"; "steady"; "stable"; "minor";
    "予想通り"; "変化なし"; "安定"; "小幅" ].

(** [d.get(key, default)] on a literal dictionary *)
Fixpoint dict_get (d : list (string * Z)) (key : string) (default : Z) : Z :=
  match d with
  | [] => default
  | (k, v) :: d' => if String.eqb k key then v else dict_get d' key default
  end.

(** [sum(1 for keyword in keywords if keyword in text_lower)] *)
Definition hits (keywords : list string) (text_lower : string) : Z :=
  Z.of_nat (length (filter (fun keyword => contains keyword text_lower) keywords)).

Definition clamp (score : Z) : Z := Z.max 0 (Z.min 100 score).

Definition calculate_impact_score
    (text category : string) (currencies central_banks : list string) : Z :=
  let base_score := dict_get CATEGORY_WEIGHTS category 20 in
  let text_lower := lower text in
  let high_impact_count := hits HIGH_IMPACT_KEYWORDS text_lower in
  let low_impact_count := hits LOW_IMPACT_KEYWORDS text_lower in
  let score := base_score in
  let score := score + high_impact_count * 10 in
  let score := score - low_impact_count * 5 in
  let score := if 3 <=? Z.of_nat (length currencies) then score + 10 else score in
  let score := if 2 <=? Z.of_nat (length central_banks) then score + 15 else score in
  clamp score.

Definition PAIR_BANKS : list (string * list string) :=
  [ ("FED", ["USD"]); ("FRB", ["USD"]); ("FOMC", ["USD"]);
    ("ECB", ["EUR"]); ("BOJ", ["JPY"]); ("BOE", ["GBP"]);
    ("RBA", ["AUD"]); ("BOC", ["CAD"]); ("SNB", ["CHF"]);
    ("RBNZ", ["NZD"]) ].

(** One turn of the inner loop over the banks. *)
Definition bank_step (central_banks : list string) (base quote : string)
    (score : Z) (entry : string * list string) : Z :=
  let '(bank, bank_currencies) := entry in
  if mem bank central_banks then
    let score := if mem base bank_currencies then score + 20 else score in
    if mem quote bank_currencies then score + 20 else score
  else score.

(** The score of one pair: the body of the loop over [pairs]. *)
Definition pair_score (text_upper : string) (central_banks : list string)
    (pair : string) : Z :=
  let score := 0 in
  let score := if contains pair text_upper then score + 50 else score in
  let base := take 3 pair in
  let quote := drop 3 pair in
  let base_count := count base text_upper in
  let quote_count := count quote text_upper in
  let score := score + Z.min (base_count * 10) 30 in
  let score := score + Z.min (quote_count * 10) 30 in
  let score := foldl (bank_step central_banks base quote) score PAIR_BANKS in
  clamp score.

Definition calculate_pair_scores
    (text : string) (pairs currencies central_banks : list string)
  : gmap string Z :=
  match pairs with
  | [] => ∅
  | _ =>
      let text_upper := upper text in
      foldl (fun (scores : gmap string Z) pair =>
               <[pair := pair_score text_upper central_banks pair]> scores)
            ∅ pairs
  end.

End ImpactScorer.

(** ** [src/utils/dedup.py] *)

Module DuplicateChecker.

(** The two dictionaries of a checker, both keyed by the URL hash. *)
Record t := mk {
  _cache : gmap string Z;
  _title_cache : gmap string string
}.

Definition empty : t := mk ∅ ∅.

Definition MICROSECONDS_PER_HOUR : Z := 3600000000.

Section Checker.
(** [hashlib.md5(url.encode()).hexdigest()] *)
Variable md5_hexdigest : string -> string.
(** [rapidfuzz.fuzz.ratio], a value between 0 and 100 *)
Variable fuzz_ratio : string -> string -> Q.
(** The constructor arguments *)
Variable ttl_hours : Z.
Variable similarity_threshold : Q.

Definition _get_url_hash (url : string) : string := md5_hexdigest url.

(** [now - timestamp > timedelta(hours=self.ttl_hours)] *)
Definition is_expired (now timestamp : Z) : bool :=
  ttl_hours * MICROSECONDS_PER_HOUR <? now - timestamp.

(** Every expired key is deleted from [_cache], and from
    [_title_cache] when it is there. *)
Definition _clean_cache (now : Z) (self : t) : t :=
  let expired :=
    map fst (filter (fun kv => is_expired now (snd kv))
                    (map_to_list (_cache self))) in
  foldl (fun (self : t) key =>
           mk (delete key (_cache self)) (delete key (_title_cache self)))
        self expired.

Definition is_duplicate_url (now : Z) (url : string) (self : t) : bool * t :=
  let self := _clean_cache now self in
  let url_hash := _get_url_hash url in
  (bool_decide (is_Some (_cache self !! url_hash)), self).

Definition is_similar_title (title : string) (self : t) : bool :=
  if negb (PyStr.truthy title) then false else
  existsb (fun cached_title =>
             Qle_bool similarity_threshold
                      (fuzz_ratio (PyStr.lower title) (PyStr.lower cached_title)))
          (map snd (map_to_list (_title_cache self))).

Definition add (now : Z) (url title : string) (self : t) : t :=
  let url_hash := _get_url_hash url in
  mk (<[url_hash := now]> (_cache self))
     (<[url_hash := title]> (_title_cache self)).

(** [is_duplicate_url(url) or is_similar_title(title)]: the cache is
    cleaned first, the title test sees the cleaned cache and is skipped
    when the URL test answers [True]. *)
Definition is_duplicate (now : Z) (url title : string) (self : t) : bool * t :=
  let '(dup_url, self) := is_duplicate_url now url self in
  (dup_url || is_similar_title title self, self).

End Checker.
End DuplicateChecker.

(** ** [src/collectors/rss.py], [src/filters/rules.py]: the data model *)

Record Article := {
  id : string;
  source : string;
  url : string;
  ts : Z;
  title : string;
  body : string;
  lang : string
}.

Record Enriched := {
  article : Article;
  currencies : list string;
  central_banks : list string;
  category : string;
  impact_score : Z;
  pair_scores : gmap string Z
}.

(** ** [src/filters/rules.py] *)

Module NewsFilter.

(** The constructor arguments; [pairs_allowlist] is turned into a set. *)
Record t := mk {
  pairs_allowlist : gset string;
  impact_threshold_breaking : Z;
  impact_threshold_digest : Z;
  pair_score_threshold : Z
}.

Definition excluded_currencies : gset string :=
  list_to_set [ "TRY"; "ZAR"; "BRL"; "RUB"; "INR"; "KRW"; "MXN" ].

Definition is_breaking_news (self : t) (enriched : Enriched) : bool :=
  if impact_score enriched <? impact_threshold_breaking self then false
  else
    existsb (fun '(pair_code, score) =>
               bool_decide (pair_code ∈ pairs_allowlist self)
               && (pair_score_threshold self <=? score))
            (map_to_list (pair_scores enriched)).

Definition is_digest_worthy (self : t) (enriched : Enriched) : bool :=
  if impact_score enriched <? impact_threshold_digest self then false
  else
    let has_allowed_pair :=
      existsb (fun pair_code => bool_decide (pair_code ∈ pairs_allowlist self))
              (map fst (map_to_list (pair_scores enriched))) in
    if has_allowed_pair then true else false.

Definition should_exclude (self : t) (enriched : Enriched) : bool :=
  let minor_only :=
    match currencies enriched with
    | [] => false
    | _ =>
        let major_currencies : gset string :=
          list_to_set (currencies enriched) ∖ excluded_currencies in
        bool_decide (major_currencies = ∅)
    end in
  if minor_only then true
  else if impact_score enriched <? 20 then true
  else false.

Definition filter_for_breaking (self : t) (articles : list Enriched)
  : list Enriched :=
  filter (fun article =>
            negb (should_exclude self article) && is_breaking_news self article)
         articles.

(** [digest.sort(key=lambda x: x.impact_score, reverse=True)]: Python's
    sort is stable, also with [reverse=True]; an element goes in front of
    the first one whose score is not larger. *)
Fixpoint insert_desc (x : Enriched) (l : list Enriched) : list Enriched :=
  match l with
  | [] => [x]
  | y :: l' =>
      if impact_score y <=? impact_score x then x :: l
      else y :: insert_desc x l'
  end.

Definition sort_by_impact_desc (l : list Enriched) : list Enriched :=
  foldr insert_desc [] l.

(** [l[:limit]] for an [int]: a negative [limit] counts from the end. *)
Definition slice_to {A} (limit : Z) (l : list A) : list A :=
  if 0 <=? limit then take (Z.to_nat limit) l
  else take (Z.to_nat (Z.of_nat (length l) + limit)) l.

Definition filter_for_digest (self : t) (articles : list Enriched) (limit : Z)
  : list Enriched :=
  let digest :=
    filter (fun article =>
              negb (should_exclude self article) && is_digest_worthy self article)
           articles in
  slice_to limit (sort_by_impact_desc digest).

End NewsFilter.

(** ** [src/scheduler/jobs.py] *)

Module NewsScheduler.

(** What a call of the delivery collaborator does: it returns its success
    flag, or an exception leaves it. *)
Inductive outcome := Returns (success : bool) | Raises.

(** One entry of [digest_data] *)
Record DigestItem := {
  item_title : string;
  item_summary_short : string;
  item_currencies_str : string;
  item_confidence : string;
  item_url : string
}.

(** What a job run did to the delivery collaborator. *)
Inductive event :=
| SentNews (enriched : Enriched) (confidence : string) (result : outcome)
| SentDigest (digest_title : string) (items : list DigestItem) (result : outcome).

Definition confidence_of (score : Z) : string :=
  if 80 <=? score then "高"
  else if 60 <=? score then "中"
  else "低".

(** [", ".join(xs)] *)
Fixpoint join (sep : string) (xs : list string) : string :=
  match xs with
  | [] => ""
  | [x] => x
  | x :: xs' => x +:+ sep +:+ join sep xs'
  end.

Section Jobs.
(** The collaborators of [DuplicateChecker] *)
Variable md5_hexdigest : string -> string.
Variable fuzz_ratio : string -> string -> Q.
Variable ttl_hours : Z.
Variable similarity_threshold : Q.
(** [src.utils.clean_text] and [src.utils.detect_language] *)
Variable clean_text : string -> string.
Variable detect_language : string -> string.
(** [self.filter] *)
Variable news_filter : NewsFilter.t.
(** [self._generate_summary_and_guide(enriched)[0][:200]]; the method
    falls back to a fixed text and never raises. *)
Variable summary_short : Enriched -> string.
(** [self.delivery.send_news] and [self.delivery.send_digest] *)
Variable send_news : Enriched -> string -> outcome.
Variable send_digest : string -> list DigestItem -> outcome.

Let is_duplicate :=
  DuplicateChecker.is_duplicate md5_hexdigest fuzz_ratio ttl_hours
                                similarity_threshold.
Let add := DuplicateChecker.add md5_hexdigest.

(** None of the calls inside the [try] raises in the embedding, so
    the result is never [None]. *)
Definition _enrich_article (article : Article) : option Enriched :=
  let text := clean_text (title article +:+ " " +:+ body article) in
  let article :=
    {| id := id article; source := source article; url := url article;
       ts := ts article; title := title article; body := body article;
       lang := detect_language text |} in
  let currencies := EntityExtractor.extract_currencies text in
  let central_banks := EntityExtractor.extract_central_banks text in
  let category := EntityExtractor.categorize_event text in
  let pairs := EntityExtractor.extract_currency_pairs currencies in
  let impact_score :=
    ImpactScorer.calculate_impact_score text category currencies central_banks in
  let pair_scores :=
    ImpactScorer.calculate_pair_scores text pairs currencies central_banks in
  Some {| article := article; currencies := currencies;
          central_banks := central_banks; category := category;
          impact_score := impact_score; pair_scores := pair_scores |}.

(** The loop of [check_breaking_news] over the collected articles.  An
    exception of [send_news] leaves the loop for the handler at the end
    of the method, which only logs. *)
Fixpoint breaking_loop (now : Z) (articles : list Article)
    (checker : DuplicateChecker.t)
  : DuplicateChecker.t * list event :=
  match articles with
  | [] => (checker, [])
  | article :: rest =>
      let '(dup, checker) := is_duplicate now (url article) (title article) checker in
      if dup then breaking_loop now rest checker
      else
        match _enrich_article article with
        | None => breaking_loop now rest checker
        | Some enriched =>
            if NewsFilter.is_breaking_news news_filter enriched then
              let confidence := confidence_of (impact_score enriched) in
              match send_news enriched confidence with
              | Raises =>
                  (checker, [SentNews enriched confidence Raises])
              | Returns ok =>
                  let checker := add now (url article) (title article) checker in
                  let '(checker, events) := breaking_loop now rest checker in
                  (checker, SentNews enriched confidence (Returns ok) :: events)
              end
            else breaking_loop now rest checker
        end
  end.

Definition check_breaking_news (now : Z) (collected : list Article)
    (checker : DuplicateChecker.t)
  : DuplicateChecker.t * list event :=
  breaking_loop now collected checker.

(** The first loop of [_send_digest]: "Enrich and filter". *)
Fixpoint enrich_and_filter (now : Z) (recent_articles : list Article)
    (checker : DuplicateChecker.t)
  : DuplicateChecker.t * list Enriched :=
  match recent_articles with
  | [] => (checker, [])
  | article :: rest =>
      let '(dup, checker) := is_duplicate now (url article) (title article) checker in
      if dup then enrich_and_filter now rest checker
      else
        match _enrich_article article with
        | Some enriched =>
            if NewsFilter.is_digest_worthy news_filter enriched then
              let '(checker, enriched_articles) := enrich_and_filter now rest checker in
              (checker, enriched :: enriched_articles)
            else enrich_and_filter now rest checker
        | None => enrich_and_filter now rest checker
        end
  end.

(** The second loop of [_send_digest]: "Prepare digest data"; every turn
    appends one entry and ends with [self.duplicate_checker.add]. *)
Fixpoint prepare_digest_data (now : Z) (top_articles : list Enriched)
    (checker : DuplicateChecker.t)
  : DuplicateChecker.t * list DigestItem :=
  match top_articles with
  | [] => (checker, [])
  | enriched :: rest =>
      let item :=
        {| item_title := title (article enriched);
           item_summary_short := summary_short enriched;
           item_currencies_str := join ", " (take 3 (currencies enriched));
           item_confidence := confidence_of (impact_score enriched);
           item_url := url (article enriched) |} in
      let checker :=
        add now (url (article enriched)) (title (article enriched)) checker in
      let '(checker, digest_data) := prepare_digest_data now rest checker in
      (checker, item :: digest_data)
  end.

Definition _send_digest (now : Z) (collected : list Article)
    (digest_title : string) (hours_back : Z) (checker : DuplicateChecker.t)
  : DuplicateChecker.t * list event :=
  let cutoff := now - hours_back * DuplicateChecker.MICROSECONDS_PER_HOUR in
  let recent_articles := filter (fun a => cutoff <? ts a) collected in
  let '(checker, enriched_articles) :=
    enrich_and_filter now recent_articles checker in
  let enriched_articles := NewsFilter.sort_by_impact_desc enriched_articles in
  let top_articles := take 10 enriched_articles in
  match top_articles with
  | [] => (checker, [])
  | _ =>
      let '(checker, digest_data) :=
        prepare_digest_data now top_articles checker in
      let full_title := "📊 " +:+ digest_title in
      (checker, [SentDigest full_title digest_data (send_digest full_title digest_data)])
  end.

(** [send_morning_digest] and [send_night_digest] *)
Definition send_morning_digest (now : Z) (collected : list Article)
    (checker : DuplicateChecker.t)
  : DuplicateChecker.t * list event :=
  _send_digest now collected "朝のダイジェスト" 12 checker.

Definition send_night_digest (now : Z) (collected : list Article)
    (checker : DuplicateChecker.t)
  : DuplicateChecker.t * list event :=
  _send_digest now collected "夜のダイジェスト" 16 checker.

End Jobs.
End NewsScheduler.

(** ** More of Python's [str]: characters, white space, [split], [replace] *)

Module PyText.
Import PyStr.

(** ["\n"] *)
Definition newline : string := String "010"%char "".

(** A byte that continues the UTF-8 sequence of a character *)
Definition is_continuation (c : ascii) : bool :=
  ((128 <=? code c) && (code c <=? 191))%N.

(** [len(s)], counted in characters *)
Fixpoint len (s : string) : nat :=
  match s with
  | EmptyString => O
  | String c s' => if is_continuation c then len s' else S (len s')
  end.

(** [s[:n]], counted in characters: the bytes that continue a character
    are taken with it. *)
Fixpoint prefix_chars (n : nat) (s : string) : string :=
  match s with
  | EmptyString => EmptyString
  | String c s' =>
      if is_continuation c then String c (prefix_chars n s')
      else match n with
           | O => EmptyString
           | S n' => String c (prefix_chars n' s')
           end
  end.

(** The number of bytes of the white-space character that [s] starts
    with, [0] when it starts with none.  White space is what
    [str.isspace], [str.strip] and the class [\s] of [re] take for it:
    U+0009..U+000D, U+001C..U+0020, U+0085, U+00A0, U+1680,
    U+2000..U+200A, U+2028, U+2029, U+202F, U+205F and U+3000. *)
Definition space_width (s : string) : nat :=
  match s with
  | String c1 s1 =>
      let b1 := code c1 in
      if (((9 <=? b1) && (b1 <=? 13)) || ((28 <=? b1) && (b1 <=? 32)))%N then 1%nat
      else
        match s1 with
        | String c2 s2 =>
            let b2 := code c2 in
            if ((b1 =? 194) && ((b2 =? 133) || (b2 =? 160)))%N then 2%nat
            else
              match s2 with
              | String c3 _ =>
                  let b3 := code c3 in
                  if (((b1 =? 225) && (b2 =? 154) && (b3 =? 128))
                      || ((b1 =? 226) && (b2 =? 128)
                          && (((128 <=? b3) && (b3 <=? 138))
                              || (b3 =? 168) || (b3 =? 169) || (b3 =? 175)))
                      || ((b1 =? 226) && (b2 =? 129) && (b3 =? 159))
                      || ((b1 =? 227) && (b2 =? 128) && (b3 =? 128)))%N
                  then 3%nat else O
              | EmptyString => O
              end
        | EmptyString => O
        end
  | EmptyString => O
  end.

(** [s.lstrip()]; one unit of [fuel] for every character removed *)
Fixpoint lstrip_fuel (fuel : nat) (s : string) : string :=
  match fuel with
  | O => s
  | S fuel' =>
      match space_width s with
      | O => s
      | S w => lstrip_fuel fuel' (drop (S w) s)
      end
  end.

Definition lstrip (s : string) : string := lstrip_fuel (String.length s) s.

(** [s.rstrip()]: a suffix made of white space only is removed. *)
Fixpoint rstrip (s : string) : string :=
  match s with
  | EmptyString => EmptyString
  | String c s' => if truthy (lstrip s) then String c (rstrip s') else EmptyString
  end.

(** [s.strip()] *)
Definition strip (s : string) : string := rstrip (lstrip s).

(** [s.split(sep)] for a separator of one byte *)
Fixpoint split (sep : ascii) (s : string) : list string :=
  match s with
  | EmptyString => [EmptyString]
  | String c s' =>
      if Ascii.eqb c sep then EmptyString :: split sep s'
      else match split sep s' with
           | part :: parts => String c part :: parts
           | [] => [String c EmptyString]
           end
  end.

(** [s.split(sep, 1)[-1]]: what follows the first occurrence of [sep],
    the whole of [s] when there is none. *)
Fixpoint after_first (sep s : string) : option string :=
  if startswith sep s then Some (drop (String.length sep) s)
  else match s with
       | EmptyString => None
       | String _ s' => after_first sep s'
       end.

Definition split_once_last (sep s : string) : string :=
  default s (after_first sep s).

(** [s.replace(old, new)] for a non-empty [old], scanning from the left;
    [skip] is the number of bytes still covered by the occurrence found
    last. *)
Fixpoint replace_from (skip : nat) (old new s : string) : string :=
  match s with
  | EmptyString => EmptyString
  | String c s' =>
      match skip with
      | S k => replace_from k old new s'
      | O => if startswith old s
             then new +:+ replace_from (String.length old - 1) old new s'
             else String c (replace_from O old new s')
      end
  end.

Definition replace (old new s : string) : string := replace_from O old new s.

(** [str(i)] for a natural number *)
Definition str (i : nat) : string := NilEmpty.string_of_uint (Nat.to_uint i).

End PyText.

(** ** [src/utils/text.py] *)

Module TextUtils.
Import PyStr PyText.

Definition REPLACEMENTS : list (string * string) :=
  [ ("､", "、"); ("｡", "。"); ("･", "・"); ("｢", "「"); ("｣", "」");
    ("！", "!"); ("？", "?"); ("（", "("); ("）", ")") ].

(** The class [[。！？]] *)
Definition STOPS : list string := [ "。"; "！"; "？" ].

Definition stop_at (s : string) : option string :=
  List.find (fun p => startswith p s) STOPS.

(** [re.sub(r'([。！？])\s*', r'\1 ', text)]: a stop and the white space
    after it become the stop and one space.  [skip] counts the bytes of
    the character matched last that are still ahead; [swallow] tells that
    the white space after a stop is being consumed. *)
Fixpoint space_after_stops (skip : nat) (swallow : bool) (s : string) : string :=
  match s with
  | EmptyString => EmptyString
  | String c s' =>
      match skip with
      | S k => space_after_stops k swallow s'
      | O =>
          match stop_at s with
          | Some p =>
              p +:+ " " +:+ space_after_stops (String.length p - 1) true s'
          | None =>
              match space_width s with
              | S w =>
                  if swallow then space_after_stops w true s'
                  else String c (space_after_stops O false s')
              | O => String c (space_after_stops O false s')
              end
          end
      end
  end.

(** [re.sub(r'\s+', ' ', text)]: every run of white space becomes one
    space.  [in_run] tells that the space of the current run is
    written. *)
Fixpoint collapse_spaces (skip : nat) (in_run : bool) (s : string) : string :=
  match s with
  | EmptyString => EmptyString
  | String c s' =>
      match skip with
      | S k => collapse_spaces k in_run s'
      | O =>
          match space_width s with
          | S w =>
              if in_run then collapse_spaces w true s'
              else String " "%char (collapse_spaces w true s')
          | O => String c (collapse_spaces O false s')
          end
      end
  end.

Definition normalize_japanese (text : string) : string :=
  if truthy text then
    let text :=
      fold_left (fun text '(old, new) => replace old new text) REPLACEMENTS text in
    let text := space_after_stops O false text in
    let text := collapse_spaces O false text in
    strip text
  else EmptyString.

End TextUtils.

(** ** [src/delivery/discord.py]: [DiscordEmbed] *)

Module DiscordEmbed.
Import PyText.

(** One entry of the list [embed["fields"]] *)
Record Field := {
  name : string;
  value : string;
  inline : bool
}.

(** An embed dictionary; a key that the dictionary lacks is [None].
    [F] is what the key ["fields"] holds: a reference to a list while the
    dictionary is in memory, the list itself in the JSON body of a
    request. *)
Record Embed (F : Type) := {
  embed_title : string;
  embed_url : option string;
  color : Z;
  timestamp : string;
  footer_text : option string;
  description : option string;
  fields : F
}.
Arguments embed_title {F}.
Arguments embed_url {F}.
Arguments color {F}.
Arguments timestamp {F}.
Arguments footer_text {F}.
Arguments description {F}.
Arguments fields {F}.

(** The lists that dictionaries refer to; a reference is an index. *)
Definition store := list (list Field).

(** [json=payload]: the dictionary with the current content of its list *)
Definition to_json (st : store) (embed : Embed nat) : Embed (list Field) :=
  {| embed_title := embed_title embed; embed_url := embed_url embed;
     color := color embed; timestamp := timestamp embed;
     footer_text := footer_text embed; description := description embed;
     fields := default [] (st !! fields embed) |}.

(** [l.insert(i, x)] for [i >= 0]: at the end when [l] is shorter *)
Definition list_insert_at {A} (i : nat) (x : A) (l : list A) : list A :=
  take i l ++ x :: drop i l.

Definition COLORS : list (string * Z) :=
  [ ("high", 0x00FF00); ("medium", 0xFFFF00); ("low", 0x808080);
    ("error", 0xFF0000) ].

Definition SECTION_NAMES : list string :=
  [ "要点"; "なぜ重要か"; "関連ペア"; "確度" ].

(** The chain of [startswith] tests: the section that a line opens *)
Definition header_of (line : string) : option string :=
  List.find (fun section =>
               PyStr.startswith (section +:+ "：") line
               || PyStr.startswith (section +:+ ":") line)
            SECTION_NAMES.

(** [sections], [current_section], [current_content] *)
Definition parser_state : Type :=
  gmap string string * option string * list string.

(** [if current_section: sections[current_section] = "\n".join(current_content)] *)
Definition close_section (sections : gmap string string)
    (current_section : option string) (current_content : list string)
  : gmap string string :=
  match current_section with
  | Some section =>
      <[section := NewsScheduler.join newline current_content]> sections
  | None => sections
  end.

(** One turn of the loop of [_parse_summary] *)
Definition parse_line (st : parser_state) (line : string) : parser_state :=
  let '(sections, current_section, current_content) := st in
  let line := strip line in
  if PyStr.truthy line then
    match header_of line with
    | Some section =>
        (close_section sections current_section current_content,
         Some section, [strip (split_once_last "：" line)])
    | None =>
        match current_section with
        | Some _ => (sections, current_section, current_content ++ [line])
        | None => st
        end
    end
  else st.

Definition _parse_summary (summary : string) : gmap string string :=
  let '(sections, current_section, current_content) :=
    fold_left parse_line (split "010"%char summary) (∅, None, []) in
  close_section sections current_section current_content.

(** [if sections.get(key): fields.append(...)] *)
Definition section_field (sections : gmap string string) (key label : string)
    (is_inline : bool) : list Field :=
  match sections !! key with
  | Some content =>
      if PyStr.truthy content
      then [ {| name := label; value := prefix_chars 1024 content;
                inline := is_inline |} ]
      else []
  | None => []
  end.

(** [if text: fields.append(...)] *)
Definition text_field (label text : string) : list Field :=
  if PyStr.truthy text
  then [ {| name := label; value := prefix_chars 1024 text; inline := false |} ]
  else [].

Definition CHECKLIST : string :=
  "□ 経済指標カレンダーを確認" +:+ newline +:+
  "□ 直近の高値・安値を確認" +:+ newline +:+
  "□ スプレッドを確認" +:+ newline +:+
  "□ ポジションサイズを計算".

(** The content of [embed["fields"]] when [create_news_embed] returns *)
Definition news_fields (summary action_guide confidence disclaimer : string)
  : list Field :=
  let sections := _parse_summary summary in
  section_field sections "要点" "📌 要点" false
  ++ section_field sections "なぜ重要か" "⚡ なぜ重要か" false
  ++ section_field sections "関連ペア" "💱 関連ペア" true
  ++ [ {| name := "📊 確度"; value := confidence; inline := true |} ]
  ++ text_field "🎯 次の一手（考え方）" action_guide
  ++ [ {| name := "✅ チェックリスト"; value := CHECKLIST; inline := false |} ]
  ++ text_field "⚠️ 免責事項" disclaimer.

(** [utcnow] is [datetime.utcnow().isoformat()].  The list of fields is a
    new object of the store. *)
Definition create_news_embed (utcnow : string)
    (title summary action_guide source url : string)
    (currencies : list string) (confidence disclaimer : string) (st : store)
  : Embed nat * store :=
  let color :=
    ImpactScorer.dict_get COLORS (PyStr.lower confidence) 0xFFFF00 in
  ({| embed_title := prefix_chars 256 title;
      embed_url := Some url;
      color := color;
      timestamp := utcnow;
      footer_text := Some ("出所: " +:+ source);
      description := None;
      fields := length st |},
   st ++ [news_fields summary action_guide confidence disclaimer]).

End DiscordEmbed.

(** ** [src/delivery/discord.py]: [DiscordDelivery] *)

Module DiscordDelivery.
Import PyText DiscordEmbed NewsScheduler.

(** [{"embeds": [...]}] as the request carries it *)
Definition Payload : Type := list (Embed (list Field)).

(** The requests made through [self.client], oldest first *)
Definition requests : Type := list (string * Payload).

Section Delivery.
(** [self.client.post(url, json=payload)] and [raise_for_status()]:
    [true] when neither raises.  The first argument is the number of
    requests made before. *)
Variable post : nat -> string -> Payload -> bool.
Variable webhook_beginner webhook_pro disclaimer : string.

(** The body of [_send_webhook] under [@retry(stop=stop_after_attempt(3))]:
    an exception of the request runs the body again, and the last of
    [attempts] failures raises. *)
Fixpoint send_attempts (attempts : nat) (webhook_url : string)
    (payload : Payload) (log : requests) : outcome * requests :=
  match attempts with
  | O => (Raises, log)
  | S attempts' =>
      let ok := post (length log) webhook_url payload in
      let log := log ++ [(webhook_url, payload)] in
      if ok then (Returns true, log)
      else send_attempts attempts' webhook_url payload log
  end.

Definition _send_webhook (webhook_url : string) (payload : Payload)
    (log : requests) : outcome * requests :=
  if PyStr.truthy webhook_url then send_attempts 3 webhook_url payload log
  else (Returns false, log).

(** [if webhook: try: self._send_webhook(webhook, payload)
     except Exception: success = False] *)
Definition send_to (webhook_url : string) (payload : Payload)
    (success : bool) (log : requests) : bool * requests :=
  if PyStr.truthy webhook_url then
    match _send_webhook webhook_url payload log with
    | (Returns _, log) => (success, log)
    | (Raises, log) => (false, log)
    end
  else (success, log).

Definition excerpt_field (original_excerpt : string) : Field :=
  {| name := "📄 原文抜粋"; value := prefix_chars 1024 original_excerpt;
     inline := false |}.

(** [original_excerpt] is [None] or a string.  [embed.copy()] is a new
    dictionary with the values of [embed], the reference to the list of
    fields among them. *)
Definition send_news (utcnow : string)
    (title summary action_guide source url : string)
    (currencies : list string) (confidence : string)
    (original_excerpt : option string) (log : requests)
  : bool * requests :=
  let '(embed, st) :=
    create_news_embed utcnow title summary action_guide source url
                      currencies confidence disclaimer [] in
  let beginner_embed := embed in
  let pro_embed := embed in
  let st :=
    match original_excerpt with
    | Some excerpt =>
        if PyStr.truthy excerpt && PyStr.truthy webhook_pro
        then alter (list_insert_at 1 (excerpt_field excerpt)) (fields pro_embed) st
        else st
    | None => st
    end in
  let '(success, log) :=
    send_to webhook_beginner [to_json st beginner_embed] true log in
  let '(success, log) :=
    send_to webhook_pro [to_json st pro_embed] success log in
  (success, log).

(** One field of the digest for the [i]-th article, counted from 1 *)
Definition digest_field (i : nat) (article : DigestItem) : Field :=
  {| name := str i +:+ ". " +:+ prefix_chars 100 (item_title article);
     value := "**" +:+ item_confidence article +:+ "** | "
              +:+ item_currencies_str article +:+ newline
              +:+ prefix_chars 200 (item_summary_short article) +:+ "...";
     inline := false |}.

(** The articles are the dictionaries that [_send_digest] builds, with
    all of their five keys. *)
Definition digest_embed (utcnow title : string) (articles : list DigestItem)
    (period : string) : Embed (list Field) :=
  {| embed_title := title;
     embed_url := None;
     color := 0xFFFF00;
     timestamp := utcnow;
     footer_text := None;
     description := Some ("📰 " +:+ period +:+ "の重要ニュースまとめ");
     fields := imap (fun i article => digest_field (S i) article) (take 10 articles)
               ++ text_field "⚠️ 免責事項" disclaimer |}.

Definition send_digest (utcnow title : string) (articles : list DigestItem)
    (period : string) (log : requests) : bool * requests :=
  let payload := [digest_embed utcnow title articles period] in
  let '(success, log) := send_to webhook_beginner payload true log in
  let '(success, log) := send_to webhook_pro payload success log in
  (success, log).

End Delivery.
End DiscordDelivery.

(** ** [src/scheduler/jobs.py]: the summary of an article *)

Module SummaryGuide.
Import TextUtils.

Section Llm.
(** [self.llm.summarize] and [self.llm.generate_action_guide] with the
    arguments taken from the article (and the summary); [None] when the
    call raises. *)
Variable summarize : Enriched -> option string.
Variable generate_action_guide : string -> Enriched -> option string.

Definition fallback (enriched : Enriched) : string * string :=
  ("要約生成に失敗しました。元記事をご確認ください: " +:+ title (article enriched),
   "詳細は元記事をご確認ください。").

Definition _generate_summary_and_guide (enriched : Enriched) : string * string :=
  match summarize enriched with
  | Some summary =>
      let summary := normalize_japanese summary in
      match generate_action_guide summary enriched with
      | Some action_guide => (summary, normalize_japanese action_guide)
      | None => fallback enriched
      end
  | None => fallback enriched
  end.

End Llm.
End SummaryGuide.

(** ** [src/scheduler/jobs.py]: the jobs as they run

    [NewsScheduler] above is the decision logic of the two loops for a
    [url] that is a [str], with one reading of the clock for a run.  The
    jobs themselves pass [article.url], which [Article] declares as a
    pydantic [HttpUrl] ([src/collectors/rss.py]; [src/config.py] imports
    [pydantic_settings], which comes with pydantic 2): an object that is
    not a [str] and has no method [encode], so that [_get_url_hash]
    raises [AttributeError] on it; and every [_clean_cache] and [add]
    reads [datetime.now()] for itself.
    Here a job is a computation on the state of the scheduler that may
    end by an exception. *)

Module JobRun.
Import NewsScheduler.

(** What a caller passes as [url]: a [str], or the [HttpUrl] of an
    [Article] (with the text of the address). *)
Inductive url_value := Str (s : string) | HttpUrl (s : string).

Record world := World {
  (** how often [datetime.now()] has been read *)
  clock_reads : nat;
  (** [self.duplicate_checker] *)
  duplicate_checker : DuplicateChecker.t;
  (** the calls of [self.delivery] made so far, oldest first *)
  deliveries : list event
}.

(** A computation: its value, or [None] when it raised, and the state
    it leaves. *)
Definition job (A : Type) : Type := world -> option A * world.

#[export] Instance job_ret : MRet job := fun A x w => (Some x, w).

#[export] Instance job_bind : MBind job := fun A B f m w =>
  match m w with
  | (Some x, w') => f x w'
  | (None, w') => (None, w')
  end.

Definition raise {A : Type} : job A := fun w => (None, w).

(** [try: ... except Exception as e: logger.error(...)] around the body of
    a job *)
Definition try_except (body : job unit) : job unit := fun w =>
  (Some tt, snd (body w)).

Definition get_checker : job DuplicateChecker.t := fun w =>
  (Some (duplicate_checker w), w).

Definition set_checker (self : DuplicateChecker.t) : job unit := fun w =>
  (Some tt, World (clock_reads w) self (deliveries w)).

Section Run.
Variable md5_hexdigest : string -> string.
Variable fuzz_ratio : string -> string -> Q.
Variable ttl_hours : Z.
Variable similarity_threshold : Q.
(** The successive values of [datetime.now()] *)
Variable clock : nat -> Z.
(** [self._enrich_article], [None] when the enrichment failed *)
Variable _enrich_article : Article -> option Enriched.
Variable news_filter : NewsFilter.t.
(** [self._generate_summary_and_guide(enriched)[0][:200]] *)
Variable summary_short : Enriched -> string.
Variable send_news : Enriched -> string -> outcome.
Variable send_digest : string -> list DigestItem -> outcome.

Definition datetime_now : job Z := fun w =>
  (Some (clock (clock_reads w)),
   World (S (clock_reads w)) (duplicate_checker w) (deliveries w)).

(** *** The methods of [DuplicateChecker] on the state *)

Definition _clean_cache : job unit :=
  now ← datetime_now;
  self ← get_checker;
  set_checker (DuplicateChecker._clean_cache ttl_hours now self).

(** [hashlib.md5(url.encode()).hexdigest()] *)
Definition _get_url_hash (url : url_value) : job string :=
  match url with
  | Str s => mret (md5_hexdigest s)
  | HttpUrl _ => raise
  end.

Definition is_duplicate_url (url : url_value) : job bool :=
  _clean_cache;;
  url_hash ← _get_url_hash url;
  self ← get_checker;
  mret (bool_decide (is_Some (DuplicateChecker._cache self !! url_hash))).

Definition is_similar_title (title : string) : job bool :=
  self ← get_checker;
  mret (DuplicateChecker.is_similar_title fuzz_ratio similarity_threshold
                                          title self).

Definition add (url : url_value) (title : string) : job unit :=
  url_hash ← _get_url_hash url;
  now ← datetime_now;
  self ← get_checker;
  set_checker
    (DuplicateChecker.mk
       (<[url_hash := now]> (DuplicateChecker._cache self))
       (<[url_hash := title]> (DuplicateChecker._title_cache self))).

Definition is_duplicate (url : url_value) (title : string) : job bool :=
  dup_url ← is_duplicate_url url;
  if (dup_url : bool) then mret true else is_similar_title title.

(** *** The calls of [self.delivery] *)

Definition deliver (call : outcome -> event) (result : outcome) : job unit :=
  fun w =>
    let w' :=
      World (clock_reads w) (duplicate_checker w)
            (deliveries w ++ [call result]) in
    match result with
    | Returns _ => (Some tt, w')
    | Raises => (None, w')
    end.

(** *** [check_breaking_news] *)

Fixpoint breaking_loop (articles : list Article) : job unit :=
  match articles with
  | [] => mret tt
  | article :: rest =>
      dup ← is_duplicate (HttpUrl (url article)) (title article);
      if (dup : bool) then breaking_loop rest
      else
        match _enrich_article article with
        | None => breaking_loop rest
        | Some enriched =>
            if NewsFilter.is_breaking_news news_filter enriched then
              let confidence := confidence_of (impact_score enriched) in
              deliver (SentNews enriched confidence)
                      (send_news enriched confidence);;
              add (HttpUrl (url article)) (title article);;
              breaking_loop rest
            else breaking_loop rest
        end
  end.

Definition check_breaking_news (collected : list Article) : job unit :=
  try_except (breaking_loop collected).

(** *** [_send_digest] *)

Fixpoint enrich_and_filter (recent_articles : list Article)
  : job (list Enriched) :=
  match recent_articles with
  | [] => mret []
  | article :: rest =>
      dup ← is_duplicate (HttpUrl (url article)) (title article);
      if (dup : bool) then enrich_and_filter rest
      else
        match _enrich_article article with
        | Some enriched =>
            if NewsFilter.is_digest_worthy news_filter enriched then
              enriched_articles ← enrich_and_filter rest;
              mret (enriched :: enriched_articles)
            else enrich_and_filter rest
        | None => enrich_and_filter rest
        end
  end.

Fixpoint prepare_digest_data (top_articles : list Enriched)
  : job (list DigestItem) :=
  match top_articles with
  | [] => mret []
  | enriched :: rest =>
      let item :=
        {| item_title := title (article enriched);
           item_summary_short := summary_short enriched;
           item_currencies_str := join ", " (take 3 (currencies enriched));
           item_confidence := confidence_of (impact_score enriched);
           item_url := url (article enriched) |} in
      add (HttpUrl (url (article enriched))) (title (article enriched));;
      digest_data ← prepare_digest_data rest;
      mret (item :: digest_data)
  end.

Definition _send_digest (collected : list Article) (digest_title : string)
    (hours_back : Z) : job unit :=
  try_except
    (now ← datetime_now;
     let cutoff := now - hours_back * DuplicateChecker.MICROSECONDS_PER_HOUR in
     let recent_articles := filter (fun a => cutoff <? ts a) collected in
     enriched_articles ← enrich_and_filter recent_articles;
     let enriched_articles := NewsFilter.sort_by_impact_desc enriched_articles in
     let top_articles := take 10 enriched_articles in
     match top_articles with
     | [] => mret tt
     | _ =>
         digest_data ← prepare_digest_data top_articles;
         let full_title := "📊 " +:+ digest_title in
         deliver (SentDigest full_title digest_data)
                 (send_digest full_title digest_data)
     end).

End Run.
End JobRun.

(** ** Vocabulary of the statements and sample data *)

(** Both keyword tables of the scorer. *)
Definition KEYWORDS : list string :=
  ImpactScorer.HIGH_IMPACT_KEYWORDS ++ ImpactScorer.LOW_IMPACT_KEYWORDS.

(** The order of [sorted] on strings, strict. *)
Definition str_lt (a b : string) : Prop := String.compare a b = Lt.

(** The six majors other than USD, the bases of the USD and JPY pairs. *)
Definition non_usd_majors : list string :=
  [ "EUR"; "GBP"; "AUD"; "NZD"; "CAD"; "CHF" ].

(** The two dictionaries of a checker have the same keys. *)
Definition keys_agree (self : DuplicateChecker.t) : Prop :=
  dom (DuplicateChecker._title_cache self) = dom (DuplicateChecker._cache self).

(** The URLs that the events of a job run handed to the delivery
    collaborator. *)
Definition event_urls (events : list NewsScheduler.event) : list string :=
  flat_map (fun ev =>
              match ev with
              | NewsScheduler.SentNews enriched _ _ => [url (article enriched)]
              | NewsScheduler.SentDigest _ items _ =>
                  map NewsScheduler.item_url items
              end) events.

(** Non-increasing impact score, the order of a digest. *)
Definition impact_desc (a b : Enriched) : Prop :=
  impact_score b ≤ impact_score a.

(** The text of [test_high_impact_policy_rate] in [tests/test_score.py]. *)
Definition fed_hike : string := "Fed surprises with emergency rate hike".

Definition herbal : string := "Herbal tea exports rise".

(** The fixtures of [tests/test_filters.py]. *)
Definition sample_filter : NewsFilter.t :=
  NewsFilter.mk (list_to_set ["USDJPY"; "EURUSD"; "GBPUSD"]) 60 40 50.

Definition sample_article : Article :=
  {| id := "test123"; source := "Test Source";
     url := "https://example.com/test"; ts := 0;
     title := "Test Article"; body := "Test body content"; lang := "en" |}.

(** The articles built in [test_filter_for_digest_with_limit]. *)
Definition sample_enriched (score : Z) : Enriched :=
  {| article := sample_article; currencies := ["USD"]; central_banks := [];
     category := "inflation"; impact_score := score;
     pair_scores := {[ "USDJPY" := 50 ]} |}.

(** A filter with the default allow-list entry and pair threshold whose
    impact thresholds are configured below the hard floor of 20 (the
    configuration accepts any threshold from 0 to 100). *)
Definition low_threshold_filter : NewsFilter.t :=
  NewsFilter.mk (list_to_set ["EURUSD"]) 10 10 50.

(** An article that is breaking, and worth a digest, under
    [sample_filter]: impact score 75, EURUSD scored 100. *)
Definition digest_article : Article :=
  {| id := "a1"; source := "Test Source";
     url := "https://example.com/ecb"; ts := 0;
     title := "EURUSD inflation shock"; body := "ECB comments on EUR and USD";
     lang := "en" |}.

(** An article whose impact score, 15, is under the hard floor. *)
Definition quiet_article : Article :=
  {| id := "a2"; source := "Test Source";
     url := "https://example.com/quiet"; ts := 0;
     title := "EURUSD steady"; body := "EUR and USD hold"; lang := "en" |}.

(** The answer to the last of the [k] requests that a delivery made from
    position [start] of the log on: accepted or refused; [true] when it
    made no request. *)
Definition accepted (post : nat -> string -> DiscordDelivery.Payload -> bool)
    (start k : nat) (webhook_url : string) (payload : DiscordDelivery.Payload)
  : bool :=
  match k with
  | O => true
  | S k' => post (start + k')%nat webhook_url payload
  end.

(** [result] is the flag and the log of a delivery of [payload] that
    started from [log]: [kb] requests went to the beginner webhook and
    then [kp] to the pro webhook, none to a webhook that is not
    configured and one to three to a configured one; every request but
    the last of a webhook was refused, and three were made where the last
    was refused too; the flag tells that no webhook ended on a refusal. *)
Definition delivered_to_both
    (post : nat -> string -> DiscordDelivery.Payload -> bool)
    (webhook_beginner webhook_pro : string)
    (payload : DiscordDelivery.Payload) (log : DiscordDelivery.requests)
    (result : bool * DiscordDelivery.requests) : Prop :=
  ∃ kb kp : nat,
    result.2 = log ++ replicate kb (webhook_beginner, payload)
                   ++ replicate kp (webhook_pro, payload)
    ∧ (if PyStr.truthy webhook_beginner then (1 <= kb <= 3)%nat else kb = O)
    ∧ (if PyStr.truthy webhook_pro then (1 <= kp <= 3)%nat else kp = O)
    ∧ (∀ j, (S j < kb)%nat →
            post (length log + j)%nat webhook_beginner payload = false)
    ∧ (∀ j, (S j < kp)%nat →
            post (length log + kb + j)%nat webhook_pro payload = false)
    ∧ result.1
      = accepted post (length log) kb webhook_beginner payload
        && accepted post (length log + kb) kp webhook_pro payload
    ∧ (accepted post (length log) kb webhook_beginner payload = false →
       kb = 3%nat)
    ∧ (accepted post (length log + kb) kp webhook_pro payload = false →
       kp = 3%nat).

(** The state of a job after the cleaning that starts a duplicate check:
    the clock was read once and the expired entries are gone. *)
Definition cleaned_world (ttl_hours : Z) (clock : nat -> Z) (w : JobRun.world)
  : JobRun.world :=
  JobRun.World (S (JobRun.clock_reads w))
    (DuplicateChecker._clean_cache ttl_hours (clock (JobRun.clock_reads w))
                                   (JobRun.duplicate_checker w))
    (JobRun.deliveries w).

(** * Properties *)

(** ** Facts about the string primitives *)

Section PyStrFacts.
Import PyStr.

Lemma insert_uniq_elem (x y : string) (l : list string) :
  y ∈ insert_uniq x l ↔ y = x ∨ y ∈ l.
Proof.
  induction l as [|z l IH]; simpl.
  - rewrite list_elem_of_singleton, elem_of_nil. tauto.
  - destruct (String.compare x z) eqn:E.
    + apply String.compare_eq_iff in E. subst z.
      rewrite elem_of_cons. tauto.
    + rewrite elem_of_cons. tauto.
    + rewrite !elem_of_cons, IH. tauto.
Qed.

Lemma sorted_set_elem (y : string) (xs : list string) :
  y ∈ sorted_set xs ↔ y ∈ xs.
Proof.
  induction xs as [|x xs IH]; simpl.
  - reflexivity.
  - rewrite insert_uniq_elem, IH, elem_of_cons. reflexivity.
Qed.

End PyStrFacts.

(** ** Entity extraction *)

Section ExtractionFacts.
Import PyStr EntityExtractor.

(** C3.  On [["USD"; "JPY"; "EUR"]] the pair list is
    [["EURJPY"; "EURUSD"; "USDEUR"]]: it has no duplicate and holds
    EURUSD and EURJPY, but USDJPY is missing (JPY is not one of
    [major_bases], and only JPY crosses against the six non-USD majors
    are formed), and the reversed pair USDEUR is emitted. *)
Theorem extract_currency_pairs_usd_jpy_eur :
  extract_currency_pairs ["USD"; "JPY"; "EUR"] = ["EURJPY"; "EURUSD"; "USDEUR"]
  ∧ ("USDJPY" ∉ extract_currency_pairs ["USD"; "JPY"; "EUR"])
  ∧ ("EURUSD" ∈ extract_currency_pairs ["USD"; "JPY"; "EUR"])
  ∧ ("EURJPY" ∈ extract_currency_pairs ["USD"; "JPY"; "EUR"])
  ∧ NoDup (extract_currency_pairs ["USD"; "JPY"; "EUR"]).
Proof.
  assert (E : extract_currency_pairs ["USD"; "JPY"; "EUR"]
              = ["EURJPY"; "EURUSD"; "USDEUR"]) by (vm_compute; reflexivity).
  rewrite E. repeat split.
  - rewrite !elem_of_cons, elem_of_nil. intros [H|[H|[H|[]]]]; discriminate H.
  - apply list_elem_of_further, list_elem_of_here.
  - apply list_elem_of_here.
  - apply (bool_decide_unpack (NoDup _)). vm_compute. exact I.
Qed.

(** The claim of C4 fails at its first part: no keyword of any category
    occurs in the text, so the category is not [policy_rate]. *)
Lemma categorize_event_fed_hike_not_policy_rate :
  ¬ (categorize_event fed_hike = "policy_rate"
     ∧ extract_currencies fed_hike = ["USD"]
     ∧ extract_central_banks fed_hike = ["FED"]
     ∧ 80 ≤ ImpactScorer.calculate_impact_score
              fed_hike "policy_rate" ["USD"] ["FED"]).
Proof.
  intros [H _]. vm_compute in H. discriminate H.
Qed.

(** C4, amended.  For "Fed surprises with emergency rate hike":
    [categorize_event] returns "other", [extract_currencies] returns
    [["USD"]], [extract_central_banks] returns [["FED"]], and
    [calculate_impact_score] on that text with the category "policy_rate"
    and those two lists is 100, hence at least 80. *)
Theorem fed_hike_scenario :
  categorize_event fed_hike = "other"
  ∧ extract_currencies fed_hike = ["USD"]
  ∧ extract_central_banks fed_hike = ["FED"]
  ∧ ImpactScorer.calculate_impact_score fed_hike "policy_rate" ["USD"] ["FED"] = 100
  ∧ 80 ≤ ImpactScorer.calculate_impact_score fed_hike "policy_rate" ["USD"] ["FED"].
Proof.
  repeat split; try (vm_compute; reflexivity).
  vm_compute. discriminate.
Qed.

(** With the category that [categorize_event] really returns the score
    of the same text is 40. *)
Lemma fed_hike_score_with_own_category :
  ImpactScorer.calculate_impact_score
    fed_hike (categorize_event fed_hike)
    (extract_currencies fed_hike) (extract_central_banks fed_hike) = 40.
Proof. vm_compute. reflexivity. Qed.

(** The claim of C6 read with whole-word matching ([search_word], the
    test [extract_currencies] applies to currency codes) fails: in
    "Herbal tea exports rise" the letters RBA occur only inside the
    word HERBAL, and RBA is returned. *)
Lemma extract_central_banks_not_whole_word :
  ¬ (∀ bank : string,
       bank ∈ extract_central_banks herbal
       ↔ bank ∈ map fst CENTRAL_BANKS
         ∧ search_word bank (upper herbal) = true).
Proof.
  intros H. destruct (H "RBA") as [H1 _].
  assert (E : extract_central_banks herbal = ["RBA"]) by (vm_compute; reflexivity).
  rewrite E in H1. destruct H1 as [_ H1]; [apply list_elem_of_here|].
  vm_compute in H1. discriminate H1.
Qed.

Lemma contains_empty_hay (sub : string) :
  contains sub "" = true → sub = "".
Proof.
  destruct sub; simpl; [reflexivity|discriminate].
Qed.

(** C6, amended.  For every text, [extract_central_banks] returns
    exactly the keys of the alias table that occur as a substring of the
    upper-cased text, whether or not the occurrence is a whole word. *)
Theorem extract_central_banks_spec (text bank : string) :
  bank ∈ extract_central_banks text
  ↔ bank ∈ map fst CENTRAL_BANKS ∧ contains bank (upper text) = true.
Proof.
  unfold extract_central_banks.
  destruct text as [|c text]; cbn [truthy negb].
  - split; [intros H; inversion H|].
    intros [Hk Hc]. cbn [upper] in Hc. apply contains_empty_hay in Hc.
    subst bank. exfalso. simpl in Hk.
    repeat (apply elem_of_cons in Hk as [Hk|Hk]; [discriminate Hk|]).
    inversion Hk.
  - rewrite sorted_set_elem, list_elem_of_filter.
    rewrite Is_true_true. tauto.
Qed.

End ExtractionFacts.

(** ** Substring tests on concatenations *)

Section ContainsFacts.
Import PyStr.

Lemma lower_app (a b : string) : lower (a +:+ b) = lower a +:+ lower b.
Proof. induction a as [|x a IH]; simpl; [reflexivity|]. by rewrite IH. Qed.

Lemma startswith_app_sep (c : ascii) (k a b : string) :
  has_char c k = false →
  startswith k (a +:+ String c b) = startswith k a.
Proof.
  revert a. induction k as [|d k IH]; intros a Hk; [by destruct a|].
  cbn [has_char] in Hk. apply orb_false_iff in Hk as [Hd Hk].
  destruct a as [|x a].
  - change ("" +:+ String c b) with (String c b).
    cbn [startswith]. by rewrite Hd.
  - change (String x a +:+ String c b) with (String x (a +:+ String c b)).
    cbn [startswith].
    destruct (Ascii.eqb d x); [by apply IH|reflexivity].
Qed.

(** A string without the character [c] occurs in [a c b] exactly when it
    occurs in [a] or in [b]. *)
Lemma contains_app_sep (c : ascii) (k a b : string) :
  has_char c k = false →
  contains k (a +:+ String c b) = contains k a || contains k b.
Proof.
  intros Hk. induction a as [|x a IH].
  - destruct k as [|d k]; [by destruct b|].
    cbn [has_char] in Hk. apply orb_false_iff in Hk as [Hd Hk].
    change ("" +:+ String c b) with (String c b).
    cbn [contains startswith]. by rewrite Hd.
  - change (String x a +:+ String c b) with (String x (a +:+ String c b)).
    cbn [contains]. rewrite IH.
    change (String x (a +:+ String c b)) with (String x a +:+ String c b).
    rewrite startswith_app_sep by done.
    by rewrite orb_assoc.
Qed.

Lemma startswith_app_l (x y t : string) :
  startswith (x +:+ y) t = true → startswith x t = true.
Proof.
  revert t. induction x as [|a x IH]; intros t; [by destruct t|].
  change (String a x +:+ y) with (String a (x +:+ y)).
  destruct t as [|b t]; cbn [startswith]; [done|].
  destruct (Ascii.eqb a b); [apply IH|done].
Qed.

Lemma startswith_contains (k t : string) :
  startswith k t = true → contains k t = true.
Proof. intros H. destruct t; simpl in *; rewrite H; reflexivity. Qed.

Lemma startswith_app_r (x y t : string) :
  startswith (x +:+ y) t = true → contains y t = true.
Proof.
  revert t. induction x as [|a x IH]; intros t.
  - apply startswith_contains.
  - change (String a x +:+ y) with (String a (x +:+ y)).
    destruct t as [|b t]; cbn [startswith]; [done|].
    destruct (Ascii.eqb a b); [|done].
    intros H. cbn [contains]. rewrite (IH _ H). apply orb_true_r.
Qed.

(** Where [x y] occurs, [y] occurs. *)
Lemma contains_app_r (x y t : string) :
  contains (x +:+ y) t = true → contains y t = true.
Proof.
  induction t as [|b t IH].
  - cbn [contains]. rewrite orb_false_r. apply startswith_app_r.
  - cbn [contains]. intros H. apply orb_true_iff in H as [H|H].
    + apply (startswith_app_r x y (String b t)) in H. exact H.
    + rewrite (IH H). apply orb_true_r.
Qed.

End ContainsFacts.

(** ** Impact scoring *)

Section ScoringFacts.
Import PyStr ImpactScorer.

Lemma clamp_range (score : Z) : 0 ≤ clamp score ≤ 100.
Proof. unfold clamp. lia. Qed.

Lemma clamp_mono (a b : Z) : a ≤ b → clamp a ≤ clamp b.
Proof. unfold clamp. lia. Qed.

Lemma hits_cons (k : string) (L : list string) (T : string) :
  hits (k :: L) T = (if contains k T then 1 else 0) + hits L T.
Proof.
  unfold hits. rewrite filter_cons.
  case_decide as H; [apply Is_true_true in H|apply Is_true_false in H];
    rewrite H; cbn [length]; lia.
Qed.

Lemma hits_nonneg (L : list string) (T : string) : 0 ≤ hits L T.
Proof. unfold hits. lia. Qed.

Lemma hits_le (L : list string) (T T' : string) :
  (∀ k, k ∈ L → contains k T = true → contains k T' = true) →
  hits L T ≤ hits L T'.
Proof.
  induction L as [|k L IH]; intros H; [reflexivity|].
  rewrite !hits_cons.
  assert (hits L T ≤ hits L T').
  { apply IH. intros k' Hk'. apply H. by apply list_elem_of_further. }
  destruct (contains k T) eqn:E.
  - rewrite (H k (list_elem_of_here _ _) E). lia.
  - destruct (contains k T'); lia.
Qed.

Lemma hits_eq (L : list string) (T T' : string) :
  (∀ k, k ∈ L → contains k T' = contains k T) →
  hits L T' = hits L T.
Proof.
  induction L as [|k L IH]; intros H; [reflexivity|].
  rewrite !hits_cons, (H k (list_elem_of_here _ _)), IH; [reflexivity|].
  intros k' Hk'. apply H. by apply list_elem_of_further.
Qed.

(** One keyword turns from absent to present and no keyword is lost:
    the count grows. *)
Lemma hits_lt (L : list string) (T T' k0 : string) :
  k0 ∈ L → contains k0 T = false → contains k0 T' = true →
  (∀ k, k ∈ L → contains k T = true → contains k T' = true) →
  hits L T + 1 ≤ hits L T'.
Proof.
  intros Hin H0 H0' Hmono. induction L as [|k L IH]; [inversion Hin|].
  rewrite !hits_cons.
  assert (Htl : ∀ k', k' ∈ L → contains k' T = true → contains k' T' = true).
  { intros k' Hk'. apply Hmono. by apply list_elem_of_further. }
  apply elem_of_cons in Hin as [->|Hin].
  - rewrite H0, H0'. pose proof (hits_le L T T' Htl). lia.
  - specialize (IH Hin Htl).
    destruct (contains k T) eqn:E.
    + rewrite (Hmono k (list_elem_of_here _ _) E). lia.
    + destruct (contains k T'); lia.
Qed.

Lemma keyword_no_space (k : string) :
  k ∈ KEYWORDS → has_char " " k = false.
Proof.
  assert (F : Forall (fun k => has_char " " k = false) KEYWORDS)
    by (apply (bool_decide_unpack _); vm_compute; exact I).
  rewrite Forall_forall in F. apply F.
Qed.

Lemma keyword_lower (k : string) : k ∈ KEYWORDS → lower k = k.
Proof.
  assert (F : Forall (fun k => lower k = k) KEYWORDS)
    by (apply (bool_decide_unpack _); vm_compute; exact I).
  rewrite Forall_forall in F. apply F.
Qed.

(** The lower-cased text after a keyword was appended as a new word. *)
Lemma lower_append_word (text kw : string) :
  kw ∈ KEYWORDS →
  lower (text +:+ " " +:+ kw) = lower text +:+ String " " kw.
Proof.
  intros Hkw. rewrite lower_app.
  change (" " +:+ kw) with (String " " kw). cbn [lower].
  by rewrite (keyword_lower kw Hkw).
Qed.

Lemma contains_append_word (T kw k : string) :
  k ∈ KEYWORDS →
  contains k (T +:+ String " " kw) = contains k T || contains k kw.
Proof. intros Hk. apply contains_app_sep, keyword_no_space, Hk. Qed.

(** No low-impact keyword occurs inside a high-impact keyword, except
    "expected" inside "unexpected". *)
Lemma low_in_high (kw l : string) :
  kw ∈ HIGH_IMPACT_KEYWORDS → l ∈ LOW_IMPACT_KEYWORDS →
  contains l kw = true → kw = "unexpected" ∧ l = "expected".
Proof.
  assert (F : Forall (fun kw =>
               Forall (fun l => contains l kw = true →
                                kw = "unexpected" ∧ l = "expected")
                      LOW_IMPACT_KEYWORDS) HIGH_IMPACT_KEYWORDS)
    by (apply (bool_decide_unpack _); vm_compute; exact I).
  intros Hkw Hl. rewrite Forall_forall in F. specialize (F kw Hkw).
  rewrite Forall_forall in F. exact (F l Hl).
Qed.

(** No high-impact keyword occurs inside a low-impact keyword. *)
Lemma high_in_low (kw h : string) :
  kw ∈ LOW_IMPACT_KEYWORDS → h ∈ HIGH_IMPACT_KEYWORDS →
  contains h kw = false.
Proof.
  assert (F : Forall (fun kw =>
               Forall (fun h => contains h kw = false) HIGH_IMPACT_KEYWORDS)
                     LOW_IMPACT_KEYWORDS)
    by (apply (bool_decide_unpack _); vm_compute; exact I).
  intros Hkw Hh. rewrite Forall_forall in F. specialize (F kw Hkw).
  rewrite Forall_forall in F. exact (F h Hh).
Qed.

End ScoringFacts.

Section ImpactScoreClaims.
Import PyStr ImpactScorer.

(** The claim of C5 read with plain concatenation fails in both
    directions, because a keyword can form across the junction:
    "emergency inlin" followed by the high-impact keyword "emergency"
    reads "...inlinemergency" and now holds the low-impact keyword
    "inline" (30 falls to 25); "stable crisi" followed by the low-impact
    keyword "stable" reads "...crisistable" and now holds the
    high-impact keyword "crisis" (15 rises to 25). *)
Lemma impact_score_concatenation_not_monotone :
  ("emergency" ∈ HIGH_IMPACT_KEYWORDS
   ∧ calculate_impact_score ("emergency inlin" +:+ "emergency") "other" [] []
     < calculate_impact_score "emergency inlin" "other" [] [])
  ∧ ("stable" ∈ LOW_IMPACT_KEYWORDS
     ∧ calculate_impact_score "stable crisi" "other" [] []
       < calculate_impact_score ("stable crisi" +:+ "stable") "other" [] []).
Proof.
  split; split.
  - apply (bool_decide_unpack _). vm_compute. exact I.
  - vm_compute. reflexivity.
  - apply (bool_decide_unpack _). vm_compute. exact I.
  - vm_compute. reflexivity.
Qed.

Lemma high_keyword_is_keyword (kw : string) :
  kw ∈ HIGH_IMPACT_KEYWORDS → kw ∈ KEYWORDS.
Proof. intros H. apply elem_of_app. by left. Qed.

Lemma low_keyword_is_keyword (kw : string) :
  kw ∈ LOW_IMPACT_KEYWORDS → kw ∈ KEYWORDS.
Proof. intros H. apply elem_of_app. by right. Qed.

(** A high-impact keyword appended as a new word: the weighted keyword
    balance does not fall. *)
Lemma balance_append_high (T kw : string) :
  kw ∈ HIGH_IMPACT_KEYWORDS →
  hits HIGH_IMPACT_KEYWORDS T * 10 - hits LOW_IMPACT_KEYWORDS T * 5
  ≤ hits HIGH_IMPACT_KEYWORDS (T +:+ String " " kw) * 10
    - hits LOW_IMPACT_KEYWORDS (T +:+ String " " kw) * 5.
Proof.
  intros Hkw. set (T' := T +:+ String " " kw).
  assert (Hhigh : ∀ k, k ∈ HIGH_IMPACT_KEYWORDS →
                       contains k T = true → contains k T' = true).
  { intros k Hk E. unfold T'.
    rewrite contains_append_word by (by apply high_keyword_is_keyword).
    by rewrite E. }
  assert (Hself : contains kw T' = true).
  { unfold T'. rewrite contains_append_word by (by apply high_keyword_is_keyword).
    rewrite (startswith_contains kw kw); [apply orb_true_r|].
    clear. induction kw as [|c kw IH]; [done|].
    cbn [startswith]. by rewrite Ascii.eqb_refl. }
  destruct (contains "expected" T || negb (String.eqb kw "unexpected")) eqn:Hcase.
  - (* no low-impact keyword is gained *)
    assert (Hlow : hits LOW_IMPACT_KEYWORDS T' = hits LOW_IMPACT_KEYWORDS T).
    { apply hits_eq. intros l Hl. unfold T'.
      rewrite contains_append_word by (by apply low_keyword_is_keyword).
      destruct (contains l T) eqn:El; [done|].
      destruct (contains l kw) eqn:Elk; [|done].
      destruct (low_in_high kw l Hkw Hl Elk) as [-> ->].
      rewrite El in Hcase. discriminate Hcase. }
    pose proof (hits_le HIGH_IMPACT_KEYWORDS T T' Hhigh). lia.
  - (* "unexpected" is new and brings "expected" with it *)
    apply orb_false_iff in Hcase as [Hexp Hkw'].
    apply negb_false_iff, String.eqb_eq in Hkw'. subst kw.
    assert (Hnew : contains "unexpected" T = false).
    { destruct (contains "unexpected" T) eqn:E; [|done].
      apply (contains_app_r "un" "expected") in E. congruence. }
    pose proof (hits_lt HIGH_IMPACT_KEYWORDS T T' "unexpected"
                        Hkw Hnew Hself Hhigh) as Hgain.
    assert (Hlow : hits LOW_IMPACT_KEYWORDS T' ≤ hits LOW_IMPACT_KEYWORDS T + 1).
    { unfold LOW_IMPACT_KEYWORDS. rewrite !hits_cons with (k := "expected").
      rewrite Hexp.
      match goal with
      | |- _ + hits ?L T' ≤ _ => assert (Htl : hits L T' = hits L T)
      end.
      { apply hits_eq. intros l Hl. unfold T'.
        assert (Hl' : l ∈ LOW_IMPACT_KEYWORDS) by (by apply list_elem_of_further).
        rewrite contains_append_word by (by apply low_keyword_is_keyword).
        destruct (contains l T) eqn:El; [done|].
        destruct (contains l "unexpected") eqn:Elk; [|done].
        destruct (low_in_high _ l Hkw Hl' Elk) as [_ ->].
        exfalso. clear -Hl.
        repeat (apply elem_of_cons in Hl as [Hl|Hl]; [discriminate Hl|]).
        inversion Hl. }
      rewrite Htl. destruct (contains "expected" T'); lia. }
    lia.
Qed.

(** A low-impact keyword appended as a new word: the high-impact count
    is unchanged and the low-impact count does not fall. *)
Lemma balance_append_low (T kw : string) :
  kw ∈ LOW_IMPACT_KEYWORDS →
  hits HIGH_IMPACT_KEYWORDS (T +:+ String " " kw) * 10
    - hits LOW_IMPACT_KEYWORDS (T +:+ String " " kw) * 5
  ≤ hits HIGH_IMPACT_KEYWORDS T * 10 - hits LOW_IMPACT_KEYWORDS T * 5.
Proof.
  intros Hkw. set (T' := T +:+ String " " kw).
  assert (Hhigh : hits HIGH_IMPACT_KEYWORDS T' = hits HIGH_IMPACT_KEYWORDS T).
  { apply hits_eq. intros h Hh. unfold T'.
    rewrite contains_append_word by (by apply high_keyword_is_keyword).
    rewrite (high_in_low kw h Hkw Hh). apply orb_false_r. }
  assert (Hlow : hits LOW_IMPACT_KEYWORDS T ≤ hits LOW_IMPACT_KEYWORDS T').
  { apply hits_le. intros l Hl E. unfold T'.
    rewrite contains_append_word by (by apply low_keyword_is_keyword).
    by rewrite E. }
  lia.
Qed.

(** C5, amended.  For every text, category, currency list and
    central-bank list the impact score lies in [0,100]; a high-impact
    keyword appended to the text as a new word (after a space) never
    decreases the score, and a low-impact keyword appended as a new word
    never increases it. *)
Theorem impact_score_range_and_keyword_monotonicity
    (text category : string) (currencies central_banks : list string) :
  0 ≤ calculate_impact_score text category currencies central_banks ≤ 100
  ∧ (∀ kw, kw ∈ HIGH_IMPACT_KEYWORDS →
       calculate_impact_score text category currencies central_banks
       ≤ calculate_impact_score (text +:+ " " +:+ kw) category currencies central_banks)
  ∧ (∀ kw, kw ∈ LOW_IMPACT_KEYWORDS →
       calculate_impact_score (text +:+ " " +:+ kw) category currencies central_banks
       ≤ calculate_impact_score text category currencies central_banks).
Proof.
  split; [apply clamp_range|]. split; intros kw Hkw.
  - unfold calculate_impact_score.
    rewrite lower_append_word by (by apply high_keyword_is_keyword).
    pose proof (balance_append_high (lower text) kw Hkw).
    apply clamp_mono.
    destruct (3 <=? _), (2 <=? _); lia.
  - unfold calculate_impact_score.
    rewrite lower_append_word by (by apply low_keyword_is_keyword).
    pose proof (balance_append_low (lower text) kw Hkw).
    apply clamp_mono.
    destruct (3 <=? _), (2 <=? _); lia.
Qed.

Lemma impact_score_range_and_keyword_monotonicity_witness :
  "shock" ∈ HIGH_IMPACT_KEYWORDS
  ∧ calculate_impact_score "Global market" "other" ["USD"] []
    ≤ calculate_impact_score ("Global market" +:+ " " +:+ "shock") "other" ["USD"] []
  ∧ "steady" ∈ LOW_IMPACT_KEYWORDS
  ∧ calculate_impact_score ("Global market" +:+ " " +:+ "steady") "other" ["USD"] []
    ≤ calculate_impact_score "Global market" "other" ["USD"] [].
Proof.
  assert (Hh : "shock" ∈ HIGH_IMPACT_KEYWORDS)
    by (apply (bool_decide_unpack _); vm_compute; exact I).
  assert (Hl : "steady" ∈ LOW_IMPACT_KEYWORDS)
    by (apply (bool_decide_unpack _); vm_compute; exact I).
  destruct (impact_score_range_and_keyword_monotonicity
              "Global market" "other" ["USD"] []) as (_ & Hhigh & Hlow).
  split; [exact Hh|]. split; [exact (Hhigh "shock" Hh)|].
  split; [exact Hl|]. exact (Hlow "steady" Hl).
Defined.

End ImpactScoreClaims.

(** ** News filter *)

Section FilterFacts.
Import NewsFilter.

(** Digest eligibility looks at the keys of [pair_scores] only, never
    at the scores. *)
Lemma is_digest_worthy_keys (self : NewsFilter.t) (enriched : Enriched) :
  is_digest_worthy self enriched = true
  ↔ impact_threshold_digest self ≤ impact_score enriched
    ∧ ∃ pair_code, pair_code ∈ dom (pair_scores enriched)
                   ∧ pair_code ∈ pairs_allowlist self.
Proof.
  unfold is_digest_worthy. destruct (Z.ltb_spec (impact_score enriched)
                                                (impact_threshold_digest self)).
  - split; [done|]. intros [? _]. lia.
  - match goal with |- (if ?b then true else false) = true ↔ _ =>
      replace (if b then true else false) with b by (by destruct b) end.
    rewrite existsb_exists. split.
    + intros (p & Hin & Hallow). split; [lia|]. exists p.
      apply bool_decide_eq_true in Hallow. split; [|exact Hallow].
      apply list_elem_of_In, list_elem_of_fmap in Hin as ([k v] & -> & Hkv).
      apply elem_of_map_to_list in Hkv. apply elem_of_dom. by eexists.
    + intros (_ & p & Hdom & Hallow). exists p.
      split; [|by apply bool_decide_eq_true].
      apply elem_of_dom in Hdom as [v Hv].
      apply list_elem_of_In, list_elem_of_fmap. exists (p, v).
      split; [reflexivity|]. by apply elem_of_map_to_list.
Qed.

End FilterFacts.

(** ** Pair scores *)

Section PairScoreFacts.
Import PyStr ImpactScorer.

Lemma calculate_pair_scores_fold
    (text : string) (pairs currencies central_banks : list string) :
  calculate_pair_scores text pairs currencies central_banks
  = foldl (fun (scores : gmap string Z) pair =>
             <[pair := pair_score (upper text) central_banks pair]> scores)
          ∅ pairs.
Proof. destruct pairs; reflexivity. Qed.

(** The dictionary built by [scores[pair] = f(pair)] over a list. *)
Lemma assign_all_lookup (f : string → Z) (pairs : list string) (k : string) :
  foldl (fun (scores : gmap string Z) pair => <[pair := f pair]> scores) ∅ pairs !! k
  = if bool_decide (k ∈ pairs) then Some (f k) else None.
Proof.
  induction pairs as [|p pairs IH] using rev_ind.
  - cbn [foldl]. rewrite lookup_empty.
    rewrite bool_decide_eq_false_2; [reflexivity|apply not_elem_of_nil].
  - rewrite foldl_app. cbn [foldl].
    destruct (decide (p = k)) as [->|Hne].
    + rewrite lookup_insert_eq, bool_decide_eq_true_2; [reflexivity|].
      apply elem_of_app. right. apply list_elem_of_here.
    + rewrite lookup_insert_ne, IH by exact Hne.
      apply (f_equal (fun b : bool => if b then Some (f k) else None)).
      apply bool_decide_ext. rewrite elem_of_app, list_elem_of_singleton.
      split; [tauto|]. intros [H|H]; [exact H|]. congruence.
Qed.

Lemma no_bank_no_bonus (central_banks : list string) (base quote : string)
    (entries : list (string * list string)) (score : Z) :
  Forall (fun entry => mem (fst entry) central_banks = false) entries →
  foldl (bank_step central_banks base quote) score entries = score.
Proof.
  intros H. revert score.
  induction H as [|[bank cs] entries Hb _ IH]; intros score; [reflexivity|].
  cbn [foldl]. rewrite IH. unfold bank_step. cbn [fst] in Hb. by rewrite Hb.
Qed.

(** A pair without any signal in the text scores 0. *)
Lemma pair_score_no_signal (T : string) (central_banks : list string)
    (pair : string) :
  contains pair T = false →
  count (take 3 pair) T = 0 → count (drop 3 pair) T = 0 →
  Forall (fun entry => mem (fst entry) central_banks = false) PAIR_BANKS →
  pair_score T central_banks pair = 0.
Proof.
  intros Hp Hb Hq Hbanks. unfold pair_score.
  rewrite Hp, Hb, Hq, no_bank_no_bonus by exact Hbanks. reflexivity.
Qed.

(** C10.  For every text, pair list, currency list and central-bank
    list, the key set of the dictionary returned by
    [calculate_pair_scores] is exactly the set of the input pairs: every
    input pair has an entry, which is its clamped score in [0,100], and
    that entry is 0 when there is no signal for the pair (the pair token
    and its two legs do not occur in the upper-cased text and no known
    central bank is listed).  [is_digest_worthy] reads the keys of that
    dictionary only: above the digest threshold, an article is eligible
    exactly when one of its keys is in the allow-list. *)
Theorem calculate_pair_scores_keys
    (text : string) (pairs currencies central_banks : list string) :
  dom (calculate_pair_scores text pairs currencies central_banks)
  = list_to_set pairs
  ∧ (∀ pair, pair ∈ pairs →
       ∃ score,
         calculate_pair_scores text pairs currencies central_banks !! pair
         = Some score
         ∧ score = pair_score (upper text) central_banks pair
         ∧ 0 ≤ score ≤ 100
         ∧ (contains pair (upper text) = false →
            count (take 3 pair) (upper text) = 0 →
            count (drop 3 pair) (upper text) = 0 →
            Forall (fun entry => mem (fst entry) central_banks = false) PAIR_BANKS →
            score = 0))
  ∧ (∀ (self : NewsFilter.t) (enriched : Enriched),
       NewsFilter.is_digest_worthy self enriched = true
       ↔ NewsFilter.impact_threshold_digest self ≤ impact_score enriched
         ∧ ∃ pair_code, pair_code ∈ dom (pair_scores enriched)
                        ∧ pair_code ∈ NewsFilter.pairs_allowlist self).
Proof.
  split; [|split; [|apply is_digest_worthy_keys]];
    rewrite calculate_pair_scores_fold.
  - apply set_eq. intros k. rewrite elem_of_dom, assign_all_lookup.
    rewrite elem_of_list_to_set. case_bool_decide as Hk.
    + split; [done|]. intros _. by eexists.
    + split; [|done]. intros [? ?]. discriminate.
  - intros pair Hin. eexists. rewrite assign_all_lookup.
    rewrite bool_decide_eq_true_2 by exact Hin.
    split; [reflexivity|]. split; [reflexivity|]. split.
    + unfold pair_score. apply clamp_range.
    + apply pair_score_no_signal.
Qed.

Lemma calculate_pair_scores_keys_witness :
  ∃ score,
    calculate_pair_scores "Gold rallies" ["USDJPY"; "EURUSD"] [] [] !! "EURUSD"
    = Some score
    ∧ score = 0.
Proof.
  destruct (calculate_pair_scores_keys "Gold rallies" ["USDJPY"; "EURUSD"] [] [])
    as (_ & H & _).
  destruct (H "EURUSD") as (score & Hlook & _ & _ & Hzero).
  - apply list_elem_of_further, list_elem_of_here.
  - exists score. split; [exact Hlook|].
    apply Hzero; try (vm_compute; reflexivity).
    apply (bool_decide_unpack _). vm_compute. exact I.
Defined.

End PairScoreFacts.


Section DigestFilterFacts.
Import NewsFilter.

Lemma insert_desc_perm (x : Enriched) (l : list Enriched) :
  insert_desc x l ≡ₚ x :: l.
Proof.
  induction l as [|y l IH]; cbn [insert_desc]; [reflexivity|].
  destruct (impact_score y <=? impact_score x); [reflexivity|].
  rewrite IH. apply Permutation_swap.
Qed.

Lemma sort_by_impact_desc_perm (l : list Enriched) :
  sort_by_impact_desc l ≡ₚ l.
Proof.
  induction l as [|x l IH]; cbn [sort_by_impact_desc foldr]; [reflexivity|].
  rewrite insert_desc_perm. by apply Permutation_skip.
Qed.

Lemma insert_desc_sorted (x : Enriched) (l : list Enriched) :
  StronglySorted impact_desc l → StronglySorted impact_desc (insert_desc x l).
Proof.
  induction l as [|y l IH]; cbn [insert_desc]; intros Hl.
  - apply StronglySorted_cons. split; [apply Forall_nil_2|apply SSorted_nil].
  - apply StronglySorted_cons in Hl as [Hy Hl].
    destruct (Z.leb_spec (impact_score y) (impact_score x)) as [Hle|Hgt].
    + apply StronglySorted_cons. split.
      * apply Forall_cons. split; [exact Hle|].
        eapply Forall_impl; [exact Hy|].
        intros z Hz. unfold impact_desc in *. lia.
      * apply StronglySorted_cons. by split.
    + apply StronglySorted_cons. split; [|by apply IH].
      rewrite insert_desc_perm. apply Forall_cons. split; [|exact Hy].
      unfold impact_desc. lia.
Qed.

Lemma sort_by_impact_desc_sorted (l : list Enriched) :
  StronglySorted impact_desc (sort_by_impact_desc l).
Proof.
  induction l as [|x l IH]; cbn [sort_by_impact_desc foldr].
  - apply SSorted_nil.
  - by apply insert_desc_sorted.
Qed.

(** A slice [l[:limit]] is always a prefix of [l]. *)
Lemma slice_to_take {A} (limit : Z) (l : list A) :
  ∃ n, slice_to limit l = take n l.
Proof. unfold slice_to. destruct (0 <=? limit); by eexists. Qed.

Lemma slice_to_length {A} (limit : Z) (l : list A) :
  0 ≤ limit → Z.of_nat (length (slice_to limit l)) ≤ limit.
Proof.
  intros H. unfold slice_to.
  destruct (Z.leb_spec 0 limit); [|lia]. rewrite length_take. lia.
Qed.

(** The claim of C8 fails for a negative limit, which Python's slice
    counts from the end: with [limit = -1] two digest-worthy articles
    give a digest of one article, more than the limit. *)
Lemma filter_for_digest_negative_limit :
  filter_for_digest sample_filter [sample_enriched 45; sample_enriched 46] (-1)
  = [sample_enriched 46]
  ∧ ¬ (Z.of_nat (length (filter_for_digest
                          sample_filter
                          [sample_enriched 45; sample_enriched 46] (-1))) ≤ -1).
Proof.
  assert (E : filter_for_digest sample_filter
                [sample_enriched 45; sample_enriched 46] (-1)
              = [sample_enriched 46]) by (vm_compute; reflexivity).
  rewrite E. split; [reflexivity|]. cbn [length]. lia.
Qed.

(** C8, amended.  For every list of enriched articles and every limit,
    each item returned by [filter_for_digest] is a non-excluded,
    digest-worthy element of the input and the returned list is sorted
    in non-increasing order of impact score; for every non-negative
    limit it has at most [limit] items. *)
Theorem filter_for_digest_spec
    (self : NewsFilter.t) (articles : list Enriched) (limit : Z) :
  (0 ≤ limit →
   Z.of_nat (length (filter_for_digest self articles limit)) ≤ limit)
  ∧ (∀ enriched, enriched ∈ filter_for_digest self articles limit →
       enriched ∈ articles
       ∧ should_exclude self enriched = false
       ∧ is_digest_worthy self enriched = true)
  ∧ StronglySorted impact_desc (filter_for_digest self articles limit).
Proof.
  unfold filter_for_digest. split; [apply slice_to_length|].
  destruct (slice_to_take limit
              (sort_by_impact_desc
                 (filter (fun article =>
                            negb (should_exclude self article)
                            && is_digest_worthy self article) articles)))
    as [n ->].
  split.
  - intros e He.
    apply (subseteq_take n) in He.
    rewrite sort_by_impact_desc_perm in He.
    apply list_elem_of_filter in He as [Hp Hin].
    apply Is_true_true, andb_true_iff in Hp as [Hx Hd].
    apply negb_true_iff in Hx. done.
  - eapply StronglySorted_app_1_l. rewrite take_drop.
    apply sort_by_impact_desc_sorted.
Qed.

Lemma filter_for_digest_spec_witness :
  Z.of_nat (length (filter_for_digest
                      sample_filter
                      [sample_enriched 45; sample_enriched 46; sample_enriched 47]
                      2)) ≤ 2
  ∧ should_exclude sample_filter (sample_enriched 47) = false.
Proof.
  destruct (filter_for_digest_spec
              sample_filter
              [sample_enriched 45; sample_enriched 46; sample_enriched 47] 2)
    as (Hlen & Hmem & _).
  split; [apply Hlen; lia|].
  apply (Hmem (sample_enriched 47)).
  assert (E : filter_for_digest
                sample_filter
                [sample_enriched 45; sample_enriched 46; sample_enriched 47] 2
              = [sample_enriched 47; sample_enriched 46])
    by (vm_compute; reflexivity).
  rewrite E. apply list_elem_of_here.
Defined.

End DigestFilterFacts.

(** ** Duplicate checker *)

Section DuplicateCheckerFacts.
Import DuplicateChecker.

Variable md5_hexdigest : string → string.
Variable fuzz_ratio : string → string → Q.
Variable ttl_hours : Z.
Variable similarity_threshold : Q.


(** Deleting a list of keys from both dictionaries. *)
Lemma delete_keys_cache (keys : list string) (self : t) (k : string) :
  _cache (foldl (fun (self : t) key =>
                   mk (delete key (_cache self)) (delete key (_title_cache self)))
                self keys) !! k
  = if bool_decide (k ∈ keys) then None else _cache self !! k.
Proof.
  revert self. induction keys as [|key keys IH]; intros self; cbn [foldl].
  - rewrite bool_decide_eq_false_2; [reflexivity|apply not_elem_of_nil].
  - rewrite IH. cbn [DuplicateChecker._cache].
    destruct (decide (key = k)) as [->|Hne].
    + rewrite lookup_delete_eq.
      rewrite (bool_decide_eq_true_2 (k ∈ k :: keys)) by apply list_elem_of_here.
      by case_bool_decide.
    + rewrite lookup_delete_ne by exact Hne.
      apply (f_equal (fun b : bool => if b then None else _cache self !! k)).
      apply bool_decide_ext. rewrite elem_of_cons.
      split; [tauto|]. intros [H|H]; [congruence|exact H].
Qed.

Lemma delete_keys_title_cache (keys : list string) (self : t) (k : string) :
  _title_cache (foldl (fun (self : t) key =>
                   mk (delete key (_cache self)) (delete key (_title_cache self)))
                self keys) !! k
  = if bool_decide (k ∈ keys) then None else _title_cache self !! k.
Proof.
  revert self. induction keys as [|key keys IH]; intros self; cbn [foldl].
  - rewrite bool_decide_eq_false_2; [reflexivity|apply not_elem_of_nil].
  - rewrite IH. cbn [DuplicateChecker._title_cache].
    destruct (decide (key = k)) as [->|Hne].
    + rewrite lookup_delete_eq.
      rewrite (bool_decide_eq_true_2 (k ∈ k :: keys)) by apply list_elem_of_here.
      by case_bool_decide.
    + rewrite lookup_delete_ne by exact Hne.
      apply (f_equal (fun b : bool => if b then None else _title_cache self !! k)).
      apply bool_decide_ext. rewrite elem_of_cons.
      split; [tauto|]. intros [H|H]; [congruence|exact H].
Qed.

(** The keys collected by the first loop of [_clean_cache]. *)
Lemma expired_keys (now : Z) (cache : gmap string Z) (k : string) :
  k ∈ map fst (filter (fun kv => is_expired ttl_hours now (snd kv)) (map_to_list cache))
  ↔ ∃ timestamp,
      cache !! k = Some timestamp ∧ is_expired ttl_hours now timestamp = true.
Proof.
  rewrite list_elem_of_fmap. split.
  - intros ([k' timestamp] & -> & H).
    apply list_elem_of_filter in H as [Hexp Hin].
    apply elem_of_map_to_list in Hin. apply Is_true_true in Hexp.
    by exists timestamp.
  - intros (timestamp & Hlook & Hexp). exists (k, timestamp).
    split; [reflexivity|]. apply list_elem_of_filter.
    split; [by apply Is_true_true|by apply elem_of_map_to_list].
Qed.

Lemma clean_cache_lookup (now : Z) (self : t) (k : string) :
  _cache (_clean_cache ttl_hours now self) !! k
  = match _cache self !! k with
    | Some timestamp =>
        if is_expired ttl_hours now timestamp then None else Some timestamp
    | None => None
    end.
Proof.
  unfold DuplicateChecker._clean_cache. rewrite delete_keys_cache.
  case_bool_decide as H.
  - apply expired_keys in H as (timestamp & -> & ->). reflexivity.
  - destruct (_cache self !! k) as [timestamp|] eqn:E; [|reflexivity].
    destruct (is_expired ttl_hours now timestamp) eqn:Hexp; [|reflexivity].
    exfalso. apply H, expired_keys. by exists timestamp.
Qed.

(** Cleaning only removes titles. *)
Lemma clean_title_cache_lookup (now : Z) (self : t) (k : string) (cached : string) :
  _title_cache (_clean_cache ttl_hours now self) !! k = Some cached →
  _title_cache self !! k = Some cached.
Proof.
  unfold DuplicateChecker._clean_cache. rewrite delete_keys_title_cache.
  by case_bool_decide.
Qed.

Lemma is_similar_title_false (title : string) (self : t) :
  (∀ k cached, _title_cache self !! k = Some cached →
     Qle_bool similarity_threshold
              (fuzz_ratio (PyStr.lower title) (PyStr.lower cached)) = false) →
  is_similar_title fuzz_ratio similarity_threshold title self = false.
Proof.
  intros H. unfold DuplicateChecker.is_similar_title.
  destruct (negb (PyStr.truthy title)); [reflexivity|].
  match goal with |- ?b = false => destruct b eqn:E end; [|reflexivity].
  apply existsb_exists in E as (cached & Hin & Hsim).
  apply list_elem_of_In, list_elem_of_fmap in Hin as ([k c] & -> & Hkv).
  apply elem_of_map_to_list in Hkv. cbn [snd] in Hsim.
  rewrite (H k c Hkv) in Hsim. discriminate Hsim.
Qed.

(** C7, amended.  When the URL is already present, [add(url, title)]
    adds no key and leaves every other entry as it was, but the entry of
    the URL is overwritten: its timestamp becomes the time of this call
    (its expiry moves accordingly) and its title the new title. *)
Theorem add_present_overwrites (now : Z) (url title : string) (self : t) :
  is_Some (_cache self !! md5_hexdigest url) →
  dom (_cache (add md5_hexdigest now url title self)) = dom (_cache self)
  ∧ _cache (add md5_hexdigest now url title self) !! md5_hexdigest url = Some now
  ∧ _title_cache (add md5_hexdigest now url title self) !! md5_hexdigest url
    = Some title
  ∧ (∀ k, k ≠ md5_hexdigest url →
       _cache (add md5_hexdigest now url title self) !! k = _cache self !! k
       ∧ _title_cache (add md5_hexdigest now url title self) !! k
         = _title_cache self !! k).
Proof.
  intros Hpresent. unfold DuplicateChecker.add, DuplicateChecker._get_url_hash.
  cbn [DuplicateChecker._cache DuplicateChecker._title_cache].
  split; [|split; [|split]].
  - rewrite dom_insert_L. apply elem_of_dom in Hpresent.
    apply subseteq_union_1_L. by apply singleton_subseteq_l.
  - apply lookup_insert_eq.
  - apply lookup_insert_eq.
  - intros k Hne. by rewrite !lookup_insert_ne.
Qed.


End DuplicateCheckerFacts.

Section DuplicateCheckerExamples.
Import DuplicateChecker.

(** The claim of C7 fails: [add] assigns [datetime.now()] to the entry
    whether or not the key is there.  A checker that saw a URL at time 0
    and is told of it again at time 5 now holds 5 as its timestamp. *)
Lemma add_present_is_not_noop :
  ¬ (∀ (md5_hexdigest : string → string) (now : Z) (url title : string)
       (self : DuplicateChecker.t),
       is_Some (_cache self !! md5_hexdigest url) →
       add md5_hexdigest now url title self = self).
Proof.
  intros H.
  specialize (H (fun url => url) 5 "https://example.com/test" "Test Article"
                (add (fun url => url) 0 "https://example.com/test"
                     "Test Article" empty)).
  assert (Hpresent : is_Some (_cache (add (fun url => url) 0
                                          "https://example.com/test"
                                          "Test Article" empty)
                                !! "https://example.com/test")).
  { unfold add, _get_url_hash. cbn [_cache]. rewrite lookup_insert_eq. by eexists. }
  specialize (H Hpresent). apply (f_equal _cache) in H.
  apply (f_equal (fun m : gmap string Z => m !! "https://example.com/test")) in H.
  unfold add, _get_url_hash in H. cbn [_cache] in H.
  rewrite !lookup_insert_eq in H. discriminate H.
Qed.

Lemma add_present_overwrites_witness :
  _cache (add (fun url => url) 5 "https://example.com/test" "Test Article"
              (add (fun url => url) 0 "https://example.com/test"
                   "Test Article" empty))
    !! "https://example.com/test" = Some 5.
Proof.
  refine (proj1 (proj2 (add_present_overwrites
                          (fun url => url) 5 "https://example.com/test"
                          "Test Article"
                          (add (fun url => url) 0 "https://example.com/test"
                               "Test Article" empty) _))).
  vm_compute. eexists. reflexivity.
Defined.



End DuplicateCheckerExamples.

(** ** The loops of the scheduler, for a [url] that is a [str] *)

Section JobFacts.
Import DuplicateChecker NewsScheduler.

Variable md5_hexdigest : string → string.
Variable fuzz_ratio : string → string → Q.
Variable ttl_hours : Z.
Variable similarity_threshold : Q.
Variable clean_text : string → string.
Variable detect_language : string → string.
Variable summary_short : Enriched → string.

Lemma is_duplicate_empty (now : Z) (url title : string) :
  is_duplicate md5_hexdigest fuzz_ratio ttl_hours similarity_threshold
               now url title empty
  = (false, empty).
Proof.
  unfold is_duplicate, is_duplicate_url, _clean_cache, is_similar_title, empty.
  cbn [_cache _title_cache]. rewrite !map_to_list_empty. cbn.
  rewrite lookup_empty.
  rewrite bool_decide_eq_false_2 by (intros [? ?]; discriminate).
  by destruct (PyStr.truthy title).
Qed.

(** An entry stamped [now] survives the second loop of [_send_digest]. *)
Lemma prepare_digest_data_keeps (now : Z) (top_articles : list Enriched)
    (checker : DuplicateChecker.t) (k : string) :
  _cache checker !! k = Some now →
  _cache (fst (prepare_digest_data md5_hexdigest summary_short
                                   now top_articles checker)) !! k = Some now.
Proof.
  revert checker. induction top_articles as [|e rest IH]; intros checker Hk.
  - exact Hk.
  - cbn [prepare_digest_data].
    destruct (prepare_digest_data md5_hexdigest summary_short now rest _)
      as [checker' data] eqn:E.
    cbn [fst]. change checker' with (fst (checker', data)). rewrite <- E.
    apply IH. unfold add, _get_url_hash. cbn [_cache].
    destruct (decide (md5_hexdigest (url (article e)) = k)) as [->|Hne].
    + apply lookup_insert_eq.
    + by rewrite lookup_insert_ne.
Qed.

(** Every entry of [digest_data] is in the cache, stamped [now], when
    the second loop ends, that is before [send_digest] is called. *)
Lemma prepare_digest_data_marks (now : Z) (top_articles : list Enriched)
    (checker : DuplicateChecker.t) (item : DigestItem) :
  item ∈ snd (prepare_digest_data md5_hexdigest summary_short
                                  now top_articles checker) →
  _cache (fst (prepare_digest_data md5_hexdigest summary_short
                                   now top_articles checker))
    !! md5_hexdigest (item_url item) = Some now.
Proof.
  revert checker. induction top_articles as [|e rest IH]; intros checker.
  - cbn. intros H. inversion H.
  - cbn [prepare_digest_data].
    destruct (prepare_digest_data md5_hexdigest summary_short now rest _)
      as [checker' data] eqn:E.
    cbn [fst snd]. intros Hin. apply elem_of_cons in Hin as [->|Hin].
    + cbn [item_url]. change checker' with (fst (checker', data)). rewrite <- E.
      apply prepare_digest_data_keeps.
      unfold add, _get_url_hash. cbn [_cache]. apply lookup_insert_eq.
    + change checker' with (fst (checker', data)). rewrite <- E.
      apply IH. rewrite E. exact Hin.
Qed.

(** In the loops of [NewsScheduler], whatever [send_digest] does (it may
    return [True] or [False], or raise), every article of the digest it
    was given is already in the duplicate cache when the job ends: [add]
    stands before [send_digest] in the text of [_send_digest]. *)
Lemma send_digest_marks_before_dispatch
    (news_filter : NewsFilter.t) (send_digest : string → list DigestItem → outcome)
    (now : Z) (collected : list Article) (digest_title : string) (hours_back : Z)
    (checker : DuplicateChecker.t)
    (full_title : string) (items : list DigestItem) (result : outcome)
    (item : DigestItem) :
  snd (_send_digest md5_hexdigest fuzz_ratio ttl_hours similarity_threshold
                    clean_text detect_language news_filter summary_short
                    send_digest now collected digest_title hours_back checker)
  = [SentDigest full_title items result] →
  item ∈ items →
  _cache (fst (_send_digest md5_hexdigest fuzz_ratio ttl_hours similarity_threshold
                    clean_text detect_language news_filter summary_short
                    send_digest now collected digest_title hours_back checker))
    !! md5_hexdigest (item_url item) = Some now.
Proof.
  unfold _send_digest.
  destruct (enrich_and_filter _ _ _ _ _ _ _ _ _ _) as [checker1 enriched_articles].
  destruct (take 10 (NewsFilter.sort_by_impact_desc enriched_articles))
    as [|e top] eqn:Etop; [discriminate|].
  destruct (prepare_digest_data md5_hexdigest summary_short now (e :: top) checker1)
    as [checker2 data] eqn:E.
  cbn [fst snd]. intros Hev Hin. injection Hev as _ <- _.
  change checker2 with (fst (checker2, data)). rewrite <- E.
  apply prepare_digest_data_marks. rewrite E. exact Hin.
Qed.

End JobFacts.

Section JobRuns.
Import DuplicateChecker NewsScheduler.

Variable md5_hexdigest : string → string.
Variable fuzz_ratio : string → string → Q.
Variable ttl_hours : Z.
Variable similarity_threshold : Q.
Variable clean_text : string → string.
Variable detect_language : string → string.
Variable summary_short : Enriched → string.

(** The loop of the breaking check over one breaking article, with a
    delivery call that raises, leaves the duplicate cache as it was:
    there [add] comes after [send_news]. *)
Lemma check_breaking_news_raise_leaves_cache :
  clean_text (title digest_article +:+ " " +:+ body digest_article)
  = "EURUSD inflation shock ECB comments on EUR and USD" →
  ∃ enriched,
    check_breaking_news md5_hexdigest fuzz_ratio ttl_hours similarity_threshold
                        clean_text detect_language sample_filter
                        (fun _ _ => Raises) 0 [digest_article] empty
    = (empty, [SentNews enriched "中" Raises]).
Proof.
  intros Hclean. unfold check_breaking_news. cbn [breaking_loop].
  rewrite is_duplicate_empty.
  unfold _enrich_article. rewrite Hclean.
  match goal with |- context [NewsFilter.is_breaking_news ?f ?e] =>
    replace (NewsFilter.is_breaking_news f e) with true
      by (vm_compute; reflexivity) end.
  match goal with |- context [confidence_of ?x] =>
    replace (confidence_of x) with "中" by (vm_compute; reflexivity) end.
  eexists. reflexivity.
Qed.

(** An article whose currencies are all minor has no pair at all. *)
Lemma minor_currency_no_pairs (currencies : list string) (currency : string) :
  currency ∈ NewsFilter.excluded_currencies →
  EntityExtractor.pairs_of_currency currencies currency = [].
Proof.
  unfold NewsFilter.excluded_currencies. rewrite elem_of_list_to_set.
  intros H.
  repeat (apply elem_of_cons in H as [->|H]; [reflexivity|]).
  inversion H.
Qed.

Lemma minor_only_no_pairs (currencies : list string) :
  list_to_set currencies ∖ NewsFilter.excluded_currencies = (∅ : gset string) →
  EntityExtractor.extract_currency_pairs currencies = [].
Proof.
  intros Hminor.
  assert (Hall : ∀ c, c ∈ currencies → c ∈ NewsFilter.excluded_currencies).
  { intros c Hc.
    destruct (decide (c ∈ NewsFilter.excluded_currencies)) as [|Hn]; [done|].
    exfalso. apply (not_elem_of_empty (C := gset string) c).
    rewrite <- Hminor. apply elem_of_difference.
    split; [by apply elem_of_list_to_set|exact Hn]. }
  assert (E : ∀ l0 l, (∀ c, c ∈ l → c ∈ NewsFilter.excluded_currencies) →
              flat_map (EntityExtractor.pairs_of_currency l0) l = []).
  { intros l0 l. induction l as [|c l IH]; intros Hl; [reflexivity|].
    cbn [flat_map]. rewrite minor_currency_no_pairs.
    - apply IH. intros c' Hc'. apply Hl. by apply list_elem_of_further.
    - apply Hl. apply list_elem_of_here. }
  unfold EntityExtractor.extract_currency_pairs.
  destruct currencies as [|c0 cs]; [reflexivity|].
  rewrite (E _ _ Hall). reflexivity.
Qed.

(** The loops never ask [should_exclude].  When both impact thresholds
    are at least 20 (the defaults are 60 and 40), an article enriched by
    [_enrich_article] that [should_exclude] excludes is neither breaking
    nor digest-worthy all the same. *)
Lemma excluded_not_classified_above_floor
    (news_filter : NewsFilter.t) (a : Article) (enriched : Enriched) :
  _enrich_article clean_text detect_language a = Some enriched →
  20 ≤ NewsFilter.impact_threshold_breaking news_filter →
  20 ≤ NewsFilter.impact_threshold_digest news_filter →
  NewsFilter.should_exclude news_filter enriched = true →
  NewsFilter.is_breaking_news news_filter enriched = false
  ∧ NewsFilter.is_digest_worthy news_filter enriched = false.
Proof.
  unfold _enrich_article. intros He Hb Hd. injection He as <-.
  unfold NewsFilter.should_exclude, NewsFilter.is_breaking_news,
    NewsFilter.is_digest_worthy.
  cbn [currencies impact_score pair_scores].
  set (text := clean_text (title a +:+ " " +:+ body a)).
  set (cur := EntityExtractor.extract_currencies text).
  set (score := ImpactScorer.calculate_impact_score _ _ _ _).
  destruct cur as [|c0 cs] eqn:Ecur.
  - destruct (Z.ltb_spec score 20) as [Hlow|]; [|discriminate]. intros _.
    rewrite (proj2 (Z.ltb_lt _ _)) by lia.
    rewrite (proj2 (Z.ltb_lt _ _)) by lia. done.
  - case_bool_decide as Hminor.
    + intros _. rewrite (minor_only_no_pairs _ Hminor).
      cbn [ImpactScorer.calculate_pair_scores].
      rewrite map_to_list_empty. cbn [map existsb].
      by destruct (score <? _), (score <? _).
    + destruct (Z.ltb_spec score 20) as [Hlow|]; [|discriminate]. intros _.
      rewrite (proj2 (Z.ltb_lt _ _)) by lia.
      rewrite (proj2 (Z.ltb_lt _ _)) by lia. done.
Qed.

End JobRuns.

(** ** The jobs as they run *)

Section JobRunFacts.
Import NewsScheduler JobRun.

Variable md5_hexdigest : string → string.
Variable fuzz_ratio : string → string → Q.
Variable ttl_hours : Z.
Variable similarity_threshold : Q.
Variable clock : nat → Z.

Local Abbreviation cleaned := (cleaned_world ttl_hours clock).

(** For a [url] that is a [str] the check is the one of
    [DuplicateChecker], at the reading of the clock it makes. *)
Lemma is_duplicate_str (url title : string) (w : world) :
  is_duplicate md5_hexdigest fuzz_ratio ttl_hours similarity_threshold clock
               (Str url) title w
  = (Some (DuplicateChecker.is_duplicate md5_hexdigest fuzz_ratio ttl_hours
             similarity_threshold (clock (clock_reads w)) url title
             (duplicate_checker w)).1,
     World (S (clock_reads w))
           (DuplicateChecker.is_duplicate md5_hexdigest fuzz_ratio ttl_hours
              similarity_threshold (clock (clock_reads w)) url title
              (duplicate_checker w)).2
           (deliveries w)).
Proof.
  unfold is_duplicate, is_duplicate_url, _clean_cache, _get_url_hash,
    is_similar_title, datetime_now, get_checker, set_checker.
  unfold DuplicateChecker.is_duplicate, DuplicateChecker.is_duplicate_url,
    DuplicateChecker._get_url_hash.
  unfold mbind, mret, job_bind, job_ret.
  cbn -[DuplicateChecker._clean_cache DuplicateChecker.is_similar_title].
  by destruct (bool_decide _).
Qed.

(** For the [HttpUrl] of an article the check cleans the cache and
    raises. *)
Lemma is_duplicate_http_url (address title : string) (w : world) :
  is_duplicate md5_hexdigest fuzz_ratio ttl_hours similarity_threshold clock
               (HttpUrl address) title w
  = (None, cleaned w).
Proof. reflexivity. Qed.

Variable _enrich_article : Article → option Enriched.
Variable news_filter : NewsFilter.t.
Variable summary_short : Enriched → string.
Variable send_news : Enriched → string → outcome.
Variable send_digest : string → list DigestItem → outcome.

(** A breaking check ends in its handler at the first article. *)
Lemma check_breaking_news_run (collected : list Article) (w : world) :
  check_breaking_news md5_hexdigest fuzz_ratio ttl_hours similarity_threshold
                      clock _enrich_article news_filter send_news collected w
  = (Some tt, match collected with [] => w | _ :: _ => cleaned w end).
Proof. by destruct collected. Qed.

(** A digest run reads the clock for the cutoff and ends in its handler
    at the first recent article. *)
Lemma send_digest_run (collected : list Article) (digest_title : string)
    (hours_back : Z) (w : world) :
  _send_digest md5_hexdigest fuzz_ratio ttl_hours similarity_threshold clock
               _enrich_article news_filter summary_short send_digest
               collected digest_title hours_back w
  = (Some tt,
     let w1 := World (S (clock_reads w)) (duplicate_checker w) (deliveries w) in
     match filter (fun a => clock (clock_reads w)
                            - hours_back * DuplicateChecker.MICROSECONDS_PER_HOUR
                            <? ts a) collected with
     | [] => w1
     | _ :: _ => cleaned w1
     end).
Proof.
  unfold _send_digest, try_except, datetime_now.
  unfold mbind, mret, job_bind, job_ret. cbn zeta. cbn [snd].
  by destruct (filter _ collected).
Qed.

End JobRunFacts.

Section JobRunClaims.
Import NewsScheduler JobRun.

Variable md5_hexdigest : string → string.
Variable fuzz_ratio : string → string → Q.
Variable ttl_hours : Z.
Variable similarity_threshold : Q.
Variable clock : nat → Z.
Variable _enrich_article : Article → option Enriched.
Variable news_filter : NewsFilter.t.
Variable summary_short : Enriched → string.
Variable send_news : Enriched → string → outcome.
Variable send_digest : string → list DigestItem → outcome.



End JobRunClaims.


(** * Further properties of the filter, the extractor and the scorer *)

Section FilterRules.
Import NewsFilter.

(** X1.  An article is breaking news exactly when its impact score
    reaches the breaking threshold and one of its scored pairs is in the
    allow-list with a score that reaches the pair threshold. *)
Theorem is_breaking_news_spec (self : NewsFilter.t) (enriched : Enriched) :
  is_breaking_news self enriched = true
  ↔ impact_threshold_breaking self ≤ impact_score enriched
    ∧ ∃ pair_code score,
        pair_scores enriched !! pair_code = Some score
        ∧ pair_code ∈ pairs_allowlist self
        ∧ pair_score_threshold self ≤ score.
Proof.
  unfold is_breaking_news.
  destruct (Z.ltb_spec (impact_score enriched) (impact_threshold_breaking self)).
  - split; [done|]. intros [? _]. lia.
  - rewrite existsb_exists. split.
    + intros ([p s] & Hin & Hok). split; [lia|]. exists p, s.
      apply list_elem_of_In, elem_of_map_to_list in Hin.
      apply andb_true_iff in Hok as [Hallow Hs].
      apply bool_decide_eq_true in Hallow. apply Z.leb_le in Hs. done.
    + intros (_ & p & s & Hlook & Hallow & Hs). exists (p, s). split.
      * by apply list_elem_of_In, elem_of_map_to_list.
      * apply andb_true_iff. split; [by apply bool_decide_eq_true|by apply Z.leb_le].
Qed.

Lemma eligible_for_digest_elem
    (self : NewsFilter.t) (articles : list Enriched) (e : Enriched) :
  e ∈ filter (fun article =>
                negb (should_exclude self article) && is_digest_worthy self article)
             articles
  ↔ e ∈ articles ∧ should_exclude self e = false ∧ is_digest_worthy self e = true.
Proof.
  rewrite list_elem_of_filter, Is_true_true, andb_true_iff, negb_true_iff. tauto.
Qed.

(** X2.  When the digest threshold does not exceed the breaking
    threshold, every breaking article is also digest-worthy, and every
    article returned by [filter_for_breaking] is in the digest that
    [filter_for_digest] builds from the same list with a limit that does
    not truncate. *)
Theorem breaking_is_digest_worthy (self : NewsFilter.t) (articles : list Enriched) :
  impact_threshold_digest self ≤ impact_threshold_breaking self →
  (∀ enriched, is_breaking_news self enriched = true →
               is_digest_worthy self enriched = true)
  ∧ (∀ enriched, enriched ∈ filter_for_breaking self articles →
       enriched ∈ filter_for_digest self articles (Z.of_nat (length articles))).
Proof.
  intros Hthr.
  assert (Hone : ∀ enriched, is_breaking_news self enriched = true →
                             is_digest_worthy self enriched = true).
  { intros enriched. unfold is_breaking_news, is_digest_worthy.
    destruct (Z.ltb_spec (impact_score enriched) (impact_threshold_breaking self));
      [done|].
    rewrite (proj2 (Z.ltb_ge _ _)) by lia.
    intros Hb. apply existsb_exists in Hb as ([p s] & Hin & Hok).
    apply andb_true_iff in Hok as [Hallow _].
    match goal with |- (if ?b then true else false) = true =>
      assert (E : b = true); [|by rewrite E] end.
    apply existsb_exists. exists p. split; [|exact Hallow].
    apply in_map_iff. exists (p, s). done. }
  split; [exact Hone|].
  intros e He. unfold filter_for_breaking in He.
  apply list_elem_of_filter in He as [Hp Hin].
  apply Is_true_true, andb_true_iff in Hp as [Hx Hb]. apply negb_true_iff in Hx.
  unfold filter_for_digest, slice_to.
  rewrite (proj2 (Z.leb_le _ _)) by lia. rewrite Nat2Z.id.
  rewrite take_ge.
  - rewrite sort_by_impact_desc_perm. apply eligible_for_digest_elem.
    split; [exact Hin|]. split; [exact Hx|]. by apply Hone.
  - rewrite (Permutation_length (sort_by_impact_desc_perm _)).
    apply length_filter.
Qed.

Lemma breaking_is_digest_worthy_witness :
  is_digest_worthy sample_filter
    {| article := sample_article; currencies := ["USD"; "JPY"];
       central_banks := ["FED"]; category := "policy_rate"; impact_score := 75;
       pair_scores := {[ "USDJPY" := 60 ]} |} = true.
Proof.
  refine (proj1 (breaking_is_digest_worthy sample_filter [] _) _ _).
  - vm_compute. discriminate.
  - vm_compute. reflexivity.
Defined.

(** X3.  An article is excluded exactly when it has at least one
    currency and all of its currencies are minor ones, or its impact
    score is under 20; in particular an article without any currency is
    excluded only for a score under 20. *)
Theorem should_exclude_spec (self : NewsFilter.t) (enriched : Enriched) :
  should_exclude self enriched = true
  ↔ (currencies enriched ≠ []
     ∧ ∀ currency, currency ∈ currencies enriched →
                   currency ∈ excluded_currencies)
    ∨ impact_score enriched < 20.
Proof.
  unfold should_exclude.
  destruct (currencies enriched) as [|c cs] eqn:Ecur.
  - destruct (Z.ltb_spec (impact_score enriched) 20).
    + split; [by right|done].
    + split; [done|]. intros [[Hne _]|Hlow]; [done|lia].
  - set (cur := c :: cs). case_bool_decide as Hminor.
    + split; [|done]. intros _. left. split; [done|].
      intros x Hx.
      destruct (decide (x ∈ excluded_currencies)) as [|Hn]; [done|].
      exfalso. apply (not_elem_of_empty (C := gset string) x).
      rewrite <- Hminor. apply elem_of_difference.
      split; [by apply elem_of_list_to_set|exact Hn].
    + assert (Hnot : ¬ ∀ x, x ∈ cur → x ∈ excluded_currencies).
      { intros Hall. apply Hminor. apply set_eq. intros x.
        rewrite elem_of_difference, elem_of_list_to_set.
        split; [|intros Hx; by apply not_elem_of_empty in Hx].
        intros [Hx Hn]. exfalso. apply Hn, Hall, Hx. }
      destruct (Z.ltb_spec (impact_score enriched) 20).
      * split; [by right|done].
      * split; [done|]. intros [[_ Hall]|Hlow]; [by apply Hnot in Hall|lia].
Qed.

End FilterRules.

Section DigestSelection.
Import NewsFilter.

Lemma insert_desc_same_score (s : Z) (x : Enriched) (l : list Enriched) :
  filter (fun e => impact_score e = s) (insert_desc x l)
  = filter (fun e => impact_score e = s) (x :: l).
Proof.
  induction l as [|y l IH]; cbn [insert_desc]; [reflexivity|].
  destruct (Z.leb_spec (impact_score y) (impact_score x)) as [|Hgt]; [reflexivity|].
  rewrite filter_cons, IH, !filter_cons.
  destruct (decide (impact_score y = s)), (decide (impact_score x = s));
    try reflexivity. lia.
Qed.

Lemma sort_by_impact_desc_same_score (s : Z) (l : list Enriched) :
  filter (fun e => impact_score e = s) (sort_by_impact_desc l)
  = filter (fun e => impact_score e = s) l.
Proof.
  induction l as [|x l IH]; [reflexivity|].
  cbn [sort_by_impact_desc foldr]. rewrite insert_desc_same_score.
  rewrite !filter_cons. unfold sort_by_impact_desc in IH. by rewrite IH.
Qed.

(** X4.  For a non-negative limit, [filter_for_digest] returns the
    [limit] eligible articles of highest impact (all of them when there
    are fewer): the returned list and the articles left out together are
    the eligible articles, and no article left out has a higher impact
    score than a returned one. *)
Theorem filter_for_digest_keeps_highest
    (self : NewsFilter.t) (articles : list Enriched) (limit : Z) :
  0 ≤ limit →
  ∃ left_out,
    filter_for_digest self articles limit ++ left_out
    ≡ₚ filter (fun article =>
                 negb (should_exclude self article)
                 && is_digest_worthy self article) articles
    ∧ (∀ kept dropped,
         kept ∈ filter_for_digest self articles limit → dropped ∈ left_out →
         impact_score dropped ≤ impact_score kept)
    ∧ length (filter_for_digest self articles limit)
      = Nat.min (Z.to_nat limit)
                (length (filter (fun article =>
                                   negb (should_exclude self article)
                                   && is_digest_worthy self article) articles)).
Proof.
  intros Hlimit. unfold filter_for_digest, slice_to.
  rewrite (proj2 (Z.leb_le _ _)) by exact Hlimit.
  set (eligible := filter _ articles).
  exists (drop (Z.to_nat limit) (sort_by_impact_desc eligible)).
  split; [|split].
  - rewrite take_drop. apply sort_by_impact_desc_perm.
  - intros kept dropped Hk Hd.
    pose proof (sort_by_impact_desc_sorted eligible) as Hs.
    rewrite <- (take_drop (Z.to_nat limit)) in Hs.
    exact (StronglySorted_app_1_elem_of _ _ _ _ _ Hs Hk Hd).
  - rewrite length_take.
    by rewrite (Permutation_length (sort_by_impact_desc_perm eligible)).
Qed.

Lemma filter_for_digest_keeps_highest_witness :
  ∃ left_out,
    filter_for_digest sample_filter
      [sample_enriched 45; sample_enriched 47; sample_enriched 46] 2 ++ left_out
    ≡ₚ [sample_enriched 45; sample_enriched 47; sample_enriched 46].
Proof.
  destruct (filter_for_digest_keeps_highest
              sample_filter
              [sample_enriched 45; sample_enriched 47; sample_enriched 46] 2)
    as (left_out & Hperm & _); [lia|].
  exists left_out. exact Hperm.
Defined.

(** X5.  The digest order is stable: among the eligible articles with
    one and the same impact score, the digest holds the first ones in
    their input order, whatever the limit. *)
Theorem filter_for_digest_stable
    (self : NewsFilter.t) (articles : list Enriched) (limit score : Z) :
  filter (fun e => impact_score e = score) (filter_for_digest self articles limit)
  `prefix_of`
  filter (fun e => impact_score e = score)
         (filter (fun article =>
                    negb (should_exclude self article)
                    && is_digest_worthy self article) articles).
Proof.
  unfold filter_for_digest. set (eligible := filter _ articles).
  destruct (slice_to_take limit (sort_by_impact_desc eligible)) as [n ->].
  rewrite <- (sort_by_impact_desc_same_score score eligible).
  rewrite <- (take_drop n (sort_by_impact_desc eligible)) at 2.
  rewrite filter_app. by eexists.
Qed.

End DigestSelection.

(** ** Sorted, duplicate-free results *)

Section SortedSetFacts.
Import PyStr.

Lemma ascii_compare_lt_trans (x y z : ascii) :
  Ascii.compare x y = Lt → Ascii.compare y z = Lt → Ascii.compare x z = Lt.
Proof.
  unfold Ascii.compare. rewrite !N.compare_lt_iff. lia.
Qed.

Lemma str_lt_trans (a b c : string) : str_lt a b → str_lt b c → str_lt a c.
Proof.
  unfold str_lt. revert b c.
  induction a as [|x a IH]; intros [|y b] [|z c]; cbn [String.compare]; try done.
  destruct (Ascii.compare x y) eqn:Exy; [|idtac|done].
  - apply Ascii.compare_eq_iff in Exy as ->.
    destruct (Ascii.compare y z); [apply IH|done|done].
  - destruct (Ascii.compare y z) eqn:Eyz; [|idtac|done].
    + apply Ascii.compare_eq_iff in Eyz as <-. by rewrite Exy.
    + by rewrite (ascii_compare_lt_trans x y z).
Qed.

Lemma str_lt_irrefl (a : string) : ¬ str_lt a a.
Proof.
  unfold str_lt. induction a as [|x a IH]; cbn [String.compare]; [done|].
  unfold Ascii.compare. by rewrite N.compare_refl.
Qed.

Lemma insert_uniq_sorted (x : string) (l : list string) :
  Sorted str_lt l → Sorted str_lt (insert_uniq x l).
Proof.
  induction l as [|y l IH]; cbn [insert_uniq]; intros Hl.
  - by repeat constructor.
  - destruct (String.compare x y) eqn:E.
    + exact Hl.
    + constructor; [exact Hl|]. constructor. exact E.
    + apply Sorted_inv in Hl as [Hl Hhd]. constructor; [by apply IH|].
      assert (Hyx : str_lt y x).
      { unfold str_lt. rewrite String.compare_antisym, E. reflexivity. }
      destruct l as [|z l]; cbn [insert_uniq]; [by constructor|].
      apply HdRel_inv in Hhd.
      destruct (String.compare x z); by constructor.
Qed.

(** [sorted(list(set(xs)))] is strictly increasing. *)
Lemma sorted_set_strictly_sorted (xs : list string) :
  StronglySorted str_lt (sorted_set xs).
Proof.
  apply Sorted.Sorted_StronglySorted.
  - intros a b c. apply str_lt_trans.
  - induction xs as [|x xs IH]; cbn [sorted_set foldr]; [constructor|].
    by apply insert_uniq_sorted.
Qed.

Lemma mem_elem_of (x : string) (xs : list string) :
  mem x xs = true ↔ x ∈ xs.
Proof.
  unfold mem. rewrite existsb_exists. split.
  - intros (y & Hin & Heq). apply String.eqb_eq in Heq as ->.
    by apply list_elem_of_In.
  - intros Hin. exists x. split; [by apply list_elem_of_In|apply String.eqb_refl].
Qed.

End SortedSetFacts.

(** ** Entity extraction, further *)

Section ExtractionRules.
Import PyStr EntityExtractor.

(** X6.  For every text, the currencies returned by
    [extract_currencies] are codes of the fixed table [CURRENCIES],
    whether they were found as words or implied by a central bank, and
    the list is strictly increasing, hence without duplicates. *)
Theorem extract_currencies_known_sorted (text : string) :
  (∀ currency, currency ∈ extract_currencies text → currency ∈ CURRENCIES)
  ∧ StronglySorted str_lt (extract_currencies text).
Proof.
  unfold extract_currencies.
  destruct (negb (truthy text)); [split; [intros c H; inversion H|constructor]|].
  split; [|apply sorted_set_strictly_sorted].
  intros c Hc. apply sorted_set_elem, elem_of_app in Hc as [Hc|Hc].
  - by apply list_elem_of_filter in Hc as [_ Hc].
  - apply list_elem_of_In, in_flat_map in Hc as ([bank cs] & Hbank & Hin).
    destruct (contains bank (upper text)); [|inversion Hin].
    assert (F : Forall (fun entry => Forall (fun c => c ∈ CURRENCIES) (snd entry))
                       CENTRAL_BANKS)
      by (apply (bool_decide_unpack _); vm_compute; exact I).
    rewrite Forall_forall in F.
    specialize (F (bank, cs) (proj2 (list_elem_of_In _ _) Hbank)).
    cbn [snd] in F. rewrite Forall_forall in F.
    by apply F, list_elem_of_In.
Qed.

(** X7.  Whenever [extract_central_banks] reports a bank for a text,
    [extract_currencies] reports the currency of that bank for the same
    text. *)
Theorem detected_bank_implies_currency
    (text bank currency : string) (bank_currencies : list string) :
  bank ∈ extract_central_banks text →
  (bank, bank_currencies) ∈ CENTRAL_BANKS →
  currency ∈ bank_currencies →
  currency ∈ extract_currencies text.
Proof.
  unfold extract_central_banks, extract_currencies.
  destruct (negb (truthy text)); [intros H; inversion H|].
  intros Hbank Htable Hcur.
  apply sorted_set_elem, list_elem_of_filter in Hbank as [Hin _].
  apply Is_true_true in Hin.
  apply sorted_set_elem, elem_of_app. right.
  apply list_elem_of_In, in_flat_map. exists (bank, bank_currencies).
  split; [by apply list_elem_of_In|].
  rewrite Hin. by apply list_elem_of_In.
Qed.

Lemma detected_bank_implies_currency_witness :
  "JPY" ∈ extract_currencies "日銀が金利据え置きを決定、ドル円は150円を突破".
Proof.
  apply (detected_bank_implies_currency _ "日銀" "JPY" ["JPY"]).
  - assert (E : extract_central_banks "日銀が金利据え置きを決定、ドル円は150円を突破"
                = ["日銀"]) by (vm_compute; reflexivity).
    rewrite E. apply list_elem_of_here.
  - unfold CENTRAL_BANKS. do 5 apply list_elem_of_further. apply list_elem_of_here.
  - apply list_elem_of_here.
Defined.

End ExtractionRules.

Section CategoryRules.
Import PyStr EntityExtractor.

(** [max(scores, key=scores.get)] picks an entry whose value no entry
    exceeds and no earlier entry reaches. *)
Lemma max_by_value_first_max
    (pre : list (string * Z)) (best : string * Z) (rest : list (string * Z)) :
  (∃ l1 l2, pre = l1 ++ best :: l2
            ∧ (∀ x, x ∈ l1 → snd x < snd best)
            ∧ (∀ x, x ∈ l2 → snd x ≤ snd best)) →
  ∃ l1 v l2, pre ++ rest = l1 ++ (max_by_value best rest, v) :: l2
             ∧ (∀ x, x ∈ l1 → snd x < v)
             ∧ (∀ x, x ∈ l2 → snd x ≤ v).
Proof.
  revert pre best. induction rest as [|kv rest IH]; intros pre best (l1 & l2 & -> & H1 & H2).
  - exists l1, (snd best), l2. rewrite app_nil_r. cbn [max_by_value].
    by destruct best.
  - cbn [max_by_value].
    replace ((l1 ++ best :: l2) ++ kv :: rest)
      with (((l1 ++ best :: l2) ++ [kv]) ++ rest) by (by rewrite <- app_assoc).
    destruct (Z.ltb_spec (snd best) (snd kv)) as [Hlt|Hge].
    + apply IH. exists (l1 ++ best :: l2), []. split; [reflexivity|].
      split; [|intros x Hx; inversion Hx].
      intros x Hx. apply elem_of_app in Hx as [Hx|Hx].
      * specialize (H1 x Hx). lia.
      * apply elem_of_cons in Hx as [->|Hx]; [lia|]. specialize (H2 x Hx). lia.
    + apply IH. exists l1, (l2 ++ [kv]).
      split; [by rewrite <- app_assoc|]. split; [exact H1|].
      intros x Hx. apply elem_of_app in Hx as [Hx|Hx]; [by apply H2|].
      apply list_elem_of_singleton in Hx as ->. exact Hge.
Qed.

Lemma filter_app_cons_inv {A} (P : A → Prop) `{!∀ x, Decision (P x)}
    (l s1 s2 : list A) (x : A) :
  filter P l = s1 ++ x :: s2 →
  ∃ f1 f2, l = f1 ++ x :: f2 ∧ filter P f1 = s1 ∧ filter P f2 = s2.
Proof.
  revert s1. induction l as [|y l IH]; intros s1 Heq.
  - by destruct s1.
  - rewrite filter_cons in Heq. destruct (decide (P y)) as [Hy|Hy].
    + destruct s1 as [|z s1]; cbn in Heq; injection Heq as -> Heq.
      * exists [], l. done.
      * destruct (IH s1 Heq) as (f1 & f2 & -> & <- & <-).
        exists (z :: f1), f2. split; [reflexivity|].
        split; [|reflexivity]. by rewrite filter_cons_True.
    + destruct (IH s1 Heq) as (f1 & f2 & -> & <- & <-).
      exists (y :: f1), f2. split; [reflexivity|].
      split; [|reflexivity]. by rewrite filter_cons_False.
Qed.

(** X8.  [categorize_event] returns "other" when the text is empty or no
    keyword of any category occurs in the lower-cased text.  Otherwise it
    returns a category of the table with at least one keyword hit, whose
    number of hits no category exceeds and no category declared earlier
    reaches: ties go to the category declared first. *)
Theorem categorize_event_spec (text : string) :
  (categorize_event text = "other"
   ∧ (text = ""
      ∨ ∀ category keywords, (category, keywords) ∈ EVENT_CATEGORIES →
                             keyword_hits keywords (lower text) = 0))
  ∨ (∃ before keywords after,
       EVENT_CATEGORIES = before ++ (categorize_event text, keywords) :: after
       ∧ 0 < keyword_hits keywords (lower text)
       ∧ (∀ category kws, (category, kws) ∈ before →
            keyword_hits kws (lower text) < keyword_hits keywords (lower text))
       ∧ (∀ category kws, (category, kws) ∈ after →
            keyword_hits kws (lower text) ≤ keyword_hits keywords (lower text))).
Proof.
  unfold categorize_event.
  destruct text as [|ch text']; [left; split; [reflexivity|by left]|].
  cbn [truthy negb]. generalize (String ch text'). clear ch text'. intros text.
  set (score_of := fun '(category, keywords) =>
                     (category, keyword_hits keywords (lower text))
                   : string * Z).
  set (all_scores := map score_of EVENT_CATEGORIES).
  assert (Hnonneg : ∀ kws, 0 ≤ keyword_hits kws (lower text))
    by (intros kws; unfold keyword_hits; lia).
  destruct (filter (fun kv => 0 <? snd kv) all_scores) as [|kv rest] eqn:Escores.
  - left. split; [reflexivity|]. right. intros category keywords Hin.
    assert (Hs : score_of (category, keywords) ∈ all_scores)
      by (apply list_elem_of_fmap; by eexists).
    destruct (Z.ltb_spec 0 (keyword_hits keywords (lower text))) as [Hpos|Hz].
    + exfalso. apply (not_elem_of_nil (score_of (category, keywords))).
      rewrite <- Escores. apply list_elem_of_filter. split; [|exact Hs].
      cbn [score_of snd]. by apply Is_true_true, Z.ltb_lt.
    + specialize (Hnonneg keywords). lia.
  - right.
    destruct (max_by_value_first_max [kv] kv rest) as (s1 & v & s2 & Hsplit & H1 & H2).
    { exists [], []. split; [reflexivity|]. split; intros x Hx; inversion Hx. }
    cbn [app] in Hsplit. rewrite Hsplit in Escores.
    assert (Hv : 0 < v).
    { assert (Hin : (max_by_value kv rest, v)
                    ∈ filter (fun kv => 0 <? snd kv) all_scores)
        by (rewrite Escores; apply elem_of_app; right; apply list_elem_of_here).
      apply list_elem_of_filter in Hin as [Hp _].
      by apply Is_true_true, Z.ltb_lt in Hp. }
    apply filter_app_cons_inv in Escores as (f1 & f2 & Hall & Hf1 & Hf2).
    unfold all_scores in Hall.
    apply fmap_app_inv in Hall as (before & tl & -> & Htl & ->).
    symmetry in Htl.
    apply fmap_cons_inv in Htl as ([c kws] & after & Hhead & -> & ->).
    cbn [score_of] in Hhead. injection Hhead as Hc Hhits. subst v.
    exists before, kws, after. rewrite Hc. split; [reflexivity|].
    split; [exact Hv|]. split.
    + intros category kws' Hin.
      assert (Hs : score_of (category, kws') ∈ map score_of before)
        by (apply list_elem_of_fmap; by eexists).
      destruct (Z.ltb_spec 0 (keyword_hits kws' (lower text))) as [Hpos|Hz]; [|lia].
      apply (H1 (score_of (category, kws'))). rewrite <- Hf1.
      apply list_elem_of_filter. split; [|exact Hs].
      cbn [score_of snd]. by apply Is_true_true, Z.ltb_lt.
    + intros category kws' Hin.
      assert (Hs : score_of (category, kws') ∈ map score_of after)
        by (apply list_elem_of_fmap; by eexists).
      destruct (Z.ltb_spec 0 (keyword_hits kws' (lower text))) as [Hpos|Hz]; [|lia].
      apply (H2 (score_of (category, kws'))). rewrite <- Hf2.
      apply list_elem_of_filter. split; [|exact Hs].
      cbn [score_of snd]. by apply Is_true_true, Z.ltb_lt.
Qed.

End CategoryRules.

Section PairRules.
Import PyStr EntityExtractor.

Lemma non_usd_major_cases (c : string) :
  c ∈ non_usd_majors
  ↔ c = "EUR" ∨ c = "GBP" ∨ c = "AUD" ∨ c = "NZD" ∨ c = "CAD" ∨ c = "CHF".
Proof.
  unfold non_usd_majors. rewrite !elem_of_cons, elem_of_nil. tauto.
Qed.

Lemma major_base_cases (c : string) :
  mem c major_bases = true ↔ c = "USD" ∨ c ∈ non_usd_majors.
Proof.
  rewrite mem_elem_of, non_usd_major_cases. unfold major_bases.
  rewrite !elem_of_cons, elem_of_nil. tauto.
Qed.

(** The pairs that one turn of the loop appends. *)
Lemma pairs_of_currency_elem (currencies : list string) (currency pair : string) :
  pair ∈ pairs_of_currency currencies currency
  ↔ (currency = "USD"
     ∧ ∃ base, base ∈ non_usd_majors ∧ base ∈ currencies ∧ pair = base +:+ "USD")
    ∨ (currency ∈ non_usd_majors ∧ pair = "USD" +:+ currency)
    ∨ (currency = "JPY"
       ∧ ∃ base, base ∈ non_usd_majors ∧ base ∈ currencies ∧ pair = base +:+ "JPY").
Proof.
  unfold pairs_of_currency. rewrite elem_of_app.
  assert (Hjpy : pair ∈ (if String.eqb currency "JPY"
                         then map (fun base => base +:+ "JPY")
                                  (filter (fun base => mem base currencies)
                                          jpy_cross_bases)
                         else [])
                 ↔ currency = "JPY"
                   ∧ ∃ base, base ∈ non_usd_majors ∧ base ∈ currencies
                             ∧ pair = base +:+ "JPY").
  { destruct (String.eqb_spec currency "JPY") as [->|Hne].
    - rewrite list_elem_of_fmap. split.
      + intros (base & -> & Hb). apply list_elem_of_filter in Hb as [Hm Hb].
        apply Is_true_true, mem_elem_of in Hm. split; [done|]. by exists base.
      + intros (_ & base & Hb & Hc & ->). exists base. split; [done|].
        apply list_elem_of_filter. split; [|exact Hb].
        by apply Is_true_true, mem_elem_of.
    - rewrite elem_of_nil. split; [done|]. by intros [? _]. }
  rewrite Hjpy. clear Hjpy.
  destruct (String.eqb_spec currency "USD") as [->|Hne].
  - rewrite list_elem_of_fmap. split.
    + intros [(base & -> & Hb)|(Habs & _)]; [|discriminate Habs].
      apply list_elem_of_filter in Hb as [Hm Hb].
      apply Is_true_true, andb_true_iff in Hm as [Hn Hm].
      apply mem_elem_of in Hm. left. split; [done|]. exists base.
      split; [|done].
      assert (Hmaj : mem base major_bases = true) by (by apply mem_elem_of).
      apply major_base_cases in Hmaj as [->|Hmaj]; [discriminate Hn|exact Hmaj].
    + intros [(_ & base & Hb & Hc & ->)|[(Hmaj & _)|(Habs & _)]].
      * left. exists base. split; [done|]. apply list_elem_of_filter.
        split.
        -- apply Is_true_true, andb_true_iff. split; [|by apply mem_elem_of].
           apply non_usd_major_cases in Hb.
           destruct Hb as [->|[->|[->|[->|[->| ->] ] ] ] ]; reflexivity.
        -- apply mem_elem_of, major_base_cases. by right.
      * apply non_usd_major_cases in Hmaj. intuition discriminate.
      * discriminate Habs.
  - destruct (mem currency major_bases) eqn:Hmaj.
    + apply major_base_cases in Hmaj as [->|Hmaj]; [done|].
      rewrite list_elem_of_singleton. split.
      * intros [->|(Hj & _)]; [right; by left|].
        subst. apply non_usd_major_cases in Hmaj. intuition discriminate.
      * intros [(Habs & _)|[(_ & ->)|(Hj & _)]]; [done|by left|].
        subst. apply non_usd_major_cases in Hmaj. intuition discriminate.
    + rewrite elem_of_nil. split.
      * intros [[]|H]. right. by right.
      * intros [(Habs & _)|[(Hm & _)|H]]; [done| |by right].
        exfalso. assert (mem currency major_bases = true)
          by (apply major_base_cases; by right). congruence.
Qed.

Lemma extract_currency_pairs_elem (currencies : list string) (pair : string) :
  pair ∈ extract_currency_pairs currencies
  ↔ (∃ base, base ∈ non_usd_majors ∧ base ∈ currencies
             ∧ "USD" ∈ currencies ∧ pair = base +:+ "USD")
    ∨ (∃ c, c ∈ non_usd_majors ∧ c ∈ currencies ∧ pair = "USD" +:+ c)
    ∨ (∃ base, base ∈ non_usd_majors ∧ base ∈ currencies
               ∧ "JPY" ∈ currencies ∧ pair = base +:+ "JPY").
Proof.
  assert (Hflat : pair ∈ extract_currency_pairs currencies
                  ↔ ∃ currency, currency ∈ currencies
                      ∧ pair ∈ pairs_of_currency currencies currency).
  { unfold extract_currency_pairs. destruct currencies as [|c0 cs].
    - split; [intros H; inversion H|]. intros (c & H & _). inversion H.
    - rewrite sorted_set_elem, list_elem_of_In, in_flat_map.
      split; intros (c & Hc & Hp); exists c.
      + split; by apply list_elem_of_In.
      + split; by apply list_elem_of_In. }
  rewrite Hflat. split.
  - intros (currency & Hc & Hp). apply pairs_of_currency_elem in Hp.
    destruct Hp as [(-> & base & ?)|[(Hm & ->)|(-> & base & ?)]].
    + left. exists base. tauto.
    + right. left. by exists currency.
    + right. right. exists base. tauto.
  - intros [(base & Hb & Hin & Husd & ->)|[(c & Hc & Hin & ->)
                                          |(base & Hb & Hin & Hjpy & ->)]].
    + exists "USD". split; [exact Husd|]. apply pairs_of_currency_elem.
      left. split; [done|]. by exists base.
    + exists c. split; [exact Hin|]. apply pairs_of_currency_elem.
      right. by left.
    + exists "JPY". split; [exact Hjpy|]. apply pairs_of_currency_elem.
      right. right. split; [done|]. by exists base.
Qed.

Lemma extract_currency_pairs_never_usdjpy (currencies : list string) :
  "USDJPY" ∉ extract_currency_pairs currencies.
Proof.
  intros H. apply extract_currency_pairs_elem in H.
  destruct H as [(b & Hb & _ & _ & E)|[(b & Hb & _ & E)|(b & Hb & _ & _ & E)]];
    apply non_usd_major_cases in Hb;
    destruct Hb as [->|[->|[->|[->|[->| ->] ] ] ] ]; discriminate E.
Qed.

(** X9.  The pairs of [extract_currency_pairs], for every currency list.
    A pair [base USD] is returned exactly when USD and the major [base]
    are both listed; a pair [USD c] exactly when the non-USD major [c] is
    listed, whether USD is listed or not; a cross [base JPY] exactly when
    JPY and the major [base] are both listed.  Nothing else is returned
    (USDJPY never is), and the result is strictly increasing. *)
Theorem extract_currency_pairs_spec (currencies : list string) :
  (∀ pair,
     pair ∈ extract_currency_pairs currencies
     ↔ (∃ base, base ∈ non_usd_majors ∧ base ∈ currencies
                ∧ "USD" ∈ currencies ∧ pair = base +:+ "USD")
       ∨ (∃ c, c ∈ non_usd_majors ∧ c ∈ currencies ∧ pair = "USD" +:+ c)
       ∨ (∃ base, base ∈ non_usd_majors ∧ base ∈ currencies
                  ∧ "JPY" ∈ currencies ∧ pair = base +:+ "JPY"))
  ∧ ("USDJPY" ∉ extract_currency_pairs currencies)
  ∧ StronglySorted str_lt (extract_currency_pairs currencies).
Proof.
  split; [apply extract_currency_pairs_elem|].
  split; [apply extract_currency_pairs_never_usdjpy|].
  unfold extract_currency_pairs. destruct currencies; [constructor|].
  apply sorted_set_strictly_sorted.
Qed.

End PairRules.

(** ** Scoring, further *)

Section ScoringRules.
Import PyStr ImpactScorer.

Lemma count_from_nonneg (skip : nat) (sub s : string) : 0 ≤ count_from skip sub s.
Proof.
  revert skip. induction s as [|c s IH]; intros skip; cbn [count_from]; [done|].
  destruct skip; [|apply IH].
  destruct (startswith sub (String c s)); [|apply IH].
  specialize (IH (String.length sub - 1)%nat). lia.
Qed.

(** A string that occurs is counted at least once. *)
Lemma count_contains (sub s : string) :
  contains sub s = true → 1 ≤ count sub s.
Proof.
  unfold count. destruct sub as [|a sub]; [lia|].
  set (needle := String a sub).
  induction s as [|c s IH]; [done|].
  cbn [contains count_from].
  destruct (startswith needle (String c s)).
  - intros _. pose proof (count_from_nonneg (String.length needle - 1) needle s). lia.
  - cbn [orb]. exact IH.
Qed.

Lemma take_drop_string (n : nat) (s : string) : take n s +:+ drop n s = s.
Proof.
  revert s. induction n as [|n IH]; intros [|c s]; try reflexivity.
  cbn [take drop].
  change (String c (take n s) +:+ drop n s)
    with (String c (take n s +:+ drop n s)).
  by rewrite IH.
Qed.

(** Where [x y] occurs, [x] occurs. *)
Lemma contains_app_l (x y t : string) :
  contains (x +:+ y) t = true → contains x t = true.
Proof.
  induction t as [|b t IH]; cbn [contains]; intros H.
  - rewrite orb_false_r in *. by apply (startswith_app_l x y).
  - apply orb_true_iff in H as [H|H].
    + by rewrite (startswith_app_l x y _ H).
    + rewrite (IH H). apply orb_true_r.
Qed.

Lemma bank_bonus_nonneg (central_banks : list string) (base quote : string)
    (entries : list (string * list string)) (score : Z) :
  score ≤ foldl (bank_step central_banks base quote) score entries.
Proof.
  revert score. induction entries as [|[bank cs] entries IH]; intros score;
    cbn [foldl]; [done|].
  etransitivity; [|apply IH]. unfold bank_step.
  destruct (mem bank central_banks), (mem base cs), (mem quote cs); lia.
Qed.

(** X10.  A pair whose six-letter token occurs in the upper-cased text
    scores at least 70: 50 for the token and at least 10 for each leg,
    which occurs wherever the token does.  Such a pair always reaches the
    default pair threshold of 50. *)
Theorem mentioned_pair_scores_at_least_70
    (text : string) (pairs currencies central_banks : list string) (pair : string) :
  pair ∈ pairs →
  contains pair (upper text) = true →
  ∃ score,
    calculate_pair_scores text pairs currencies central_banks !! pair = Some score
    ∧ 70 ≤ score ≤ 100.
Proof.
  intros Hin Hmention. rewrite calculate_pair_scores_fold, assign_all_lookup.
  rewrite bool_decide_eq_true_2 by exact Hin.
  eexists. split; [reflexivity|].
  unfold pair_score. rewrite Hmention.
  assert (Hbase : 1 ≤ count (take 3 pair) (upper text)).
  { apply count_contains, (contains_app_l _ (drop 3 pair)).
    by rewrite take_drop_string. }
  assert (Hquote : 1 ≤ count (drop 3 pair) (upper text)).
  { apply count_contains, (contains_app_r (take 3 pair)).
    by rewrite take_drop_string. }
  match goal with |- _ ≤ clamp (foldl ?f ?s ?l) ≤ _ =>
    pose proof (bank_bonus_nonneg central_banks (take 3 pair) (drop 3 pair) l s)
  end.
  unfold clamp. lia.
Qed.

Lemma mentioned_pair_scores_at_least_70_witness :
  ∃ score,
    calculate_pair_scores "USDJPY surges as USD strengthens against JPY"
                          ["USDJPY"; "EURUSD"; "GBPUSD"] ["USD"; "JPY"] []
      !! "USDJPY" = Some score
    ∧ 70 ≤ score ≤ 100.
Proof.
  apply mentioned_pair_scores_at_least_70.
  - apply list_elem_of_here.
  - vm_compute. reflexivity.
Defined.

(** X11.  The impact score uses the currency list and the central-bank
    list through their lengths only, and it never decreases when either
    list gets longer. *)
Theorem impact_score_monotone_in_entities
    (text category : string) (currencies currencies' banks banks' : list string) :
  (length currencies ≤ length currencies')%nat →
  (length banks ≤ length banks')%nat →
  calculate_impact_score text category currencies banks
  ≤ calculate_impact_score text category currencies' banks'.
Proof.
  intros Hc Hb. unfold calculate_impact_score. apply clamp_mono.
  destruct (Z.leb_spec 3 (Z.of_nat (length currencies))),
           (Z.leb_spec 3 (Z.of_nat (length currencies'))),
           (Z.leb_spec 2 (Z.of_nat (length banks))),
           (Z.leb_spec 2 (Z.of_nat (length banks'))); lia.
Qed.

Lemma impact_score_monotone_in_entities_witness :
  calculate_impact_score "Global market shock" "other" ["USD"] []
  ≤ calculate_impact_score "Global market shock" "other"
                            ["USD"; "EUR"; "JPY"; "GBP"] [].
Proof.
  apply impact_score_monotone_in_entities; cbn [length]; lia.
Defined.

End ScoringRules.

(** ** Duplicate checker, further *)

Section CacheRules.
Import DuplicateChecker.

Variable ttl_hours : Z.

Lemma clean_title_cache_exact (now : Z) (self : t) (k : string) :
  _title_cache (_clean_cache ttl_hours now self) !! k
  = match _cache self !! k with
    | Some timestamp =>
        if is_expired ttl_hours now timestamp then None
        else _title_cache self !! k
    | None => _title_cache self !! k
    end.
Proof.
  unfold _clean_cache.
  rewrite (delete_keys_title_cache (fun url => url) (fun _ _ => 0%Q)).
  case_bool_decide as H.
  - apply expired_keys in H as (timestamp & -> & ->). reflexivity.
  - destruct (_cache self !! k) as [timestamp|] eqn:E; [|reflexivity].
    destruct (is_expired ttl_hours now timestamp) eqn:Hexp; [|reflexivity].
    exfalso. apply H, expired_keys. by exists timestamp.
Qed.

Lemma clean_cache_retained (now : Z) (self : t) (k : string) (timestamp : Z) :
  _cache (_clean_cache ttl_hours now self) !! k = Some timestamp
  ↔ _cache self !! k = Some timestamp
    ∧ now - timestamp ≤ ttl_hours * MICROSECONDS_PER_HOUR.
Proof.
  rewrite (clean_cache_lookup (fun url => url) (fun _ _ => 0%Q)).
  destruct (_cache self !! k) as [t0|]; [|split; [done|by intros [? _]]].
  unfold is_expired.
  destruct (Z.ltb_spec (ttl_hours * MICROSECONDS_PER_HOUR) (now - t0)).
  - split; [done|]. intros [[= ->] ?]. lia.
  - split; [intros [= ->]; done|by intros [? _]].
Qed.

Lemma clean_title_retained (now : Z) (self : t) (k cached : string) :
  _title_cache (_clean_cache ttl_hours now self) !! k = Some cached
  ↔ _title_cache self !! k = Some cached
    ∧ ∀ timestamp, _cache self !! k = Some timestamp →
                   now - timestamp ≤ ttl_hours * MICROSECONDS_PER_HOUR.
Proof.
  rewrite clean_title_cache_exact.
  destruct (_cache self !! k) as [t0|].
  - unfold is_expired.
    destruct (Z.ltb_spec (ttl_hours * MICROSECONDS_PER_HOUR) (now - t0)).
    + split; [done|]. intros [_ H0]. specialize (H0 t0 eq_refl). lia.
    + split; [|by intros [? _]]. intros Ht. split; [done|].
      by intros ? [= <-].
  - split; [|by intros [? _]]. intros Ht. split; [done|]. by intros ? [=].
Qed.

(** X12.  After [_clean_cache] the URL cache holds exactly the entries
    that were there and are not older than the TTL, with their
    timestamps; the title of every purged URL is gone and every other
    title is unchanged. *)
Theorem clean_cache_spec (now : Z) (self : t) (k : string) :
  (∀ timestamp,
     _cache (_clean_cache ttl_hours now self) !! k = Some timestamp
     ↔ _cache self !! k = Some timestamp
       ∧ now - timestamp ≤ ttl_hours * MICROSECONDS_PER_HOUR)
  ∧ (∀ cached,
       _title_cache (_clean_cache ttl_hours now self) !! k = Some cached
       ↔ _title_cache self !! k = Some cached
         ∧ ∀ timestamp, _cache self !! k = Some timestamp →
                        now - timestamp ≤ ttl_hours * MICROSECONDS_PER_HOUR).
Proof.
  split; [apply clean_cache_retained|apply clean_title_retained].
Qed.

(** X13.  Cleaning at one time and again at a later time leaves the
    checker as one cleaning at the later time does; in particular
    cleaning twice at the same time changes nothing the second time. *)
Theorem clean_cache_twice (now now' : Z) (self : t) :
  now ≤ now' →
  _clean_cache ttl_hours now' (_clean_cache ttl_hours now self)
  = _clean_cache ttl_hours now' self.
Proof.
  intros Hle.
  assert (Hexp : ∀ timestamp, is_expired ttl_hours now timestamp = true →
                              is_expired ttl_hours now' timestamp = true).
  { unfold is_expired. intros timestamp. rewrite !Z.ltb_lt. lia. }
  assert (Hrec : ∀ a b : t, _cache a = _cache b → _title_cache a = _title_cache b →
                            a = b).
  { intros [] []. cbn. by intros -> ->. }
  apply Hrec; apply map_eq; intros k.
  - rewrite !(clean_cache_lookup (fun url => url) (fun _ _ => 0%Q)).
    destruct (_cache self !! k) as [t0|]; [|reflexivity].
    destruct (is_expired ttl_hours now t0) eqn:E; [|reflexivity].
    by rewrite (Hexp _ E).
  - rewrite !clean_title_cache_exact,
      (clean_cache_lookup (fun url => url) (fun _ _ => 0%Q)).
    destruct (_cache self !! k) as [t0|]; [|reflexivity].
    destruct (is_expired ttl_hours now t0) eqn:E; [|reflexivity].
    by rewrite (Hexp _ E).
Qed.

Variable md5_hexdigest : string → string.
Variable fuzz_ratio : string → string → Q.
Variable similarity_threshold : Q.

(** X14.  The two dictionaries of a checker keep the same keys: this
    holds for a new checker and is preserved by [add], by [_clean_cache]
    and by [is_duplicate].  So after a check every remembered title
    belongs to a URL whose entry is remembered and not older than the
    TTL. *)
Theorem keys_agree_invariant (now : Z) (url title : string) (self : t) :
  keys_agree empty
  ∧ (keys_agree self →
     keys_agree (add md5_hexdigest now url title self)
     ∧ keys_agree (_clean_cache ttl_hours now self)
     ∧ keys_agree (snd (is_duplicate md5_hexdigest fuzz_ratio ttl_hours
                                     similarity_threshold now url title self))
     ∧ ∀ k cached,
         _title_cache (snd (is_duplicate md5_hexdigest fuzz_ratio ttl_hours
                                         similarity_threshold now url title self))
           !! k = Some cached →
         ∃ timestamp,
           _cache self !! k = Some timestamp
           ∧ now - timestamp ≤ ttl_hours * MICROSECONDS_PER_HOUR).
Proof.
  split; [reflexivity|]. intros Hagree.
  assert (Hclean : keys_agree (_clean_cache ttl_hours now self)).
  { unfold keys_agree in *. apply set_eq. intros k.
    rewrite !elem_of_dom, clean_title_cache_exact,
      (clean_cache_lookup (fun url => url) (fun _ _ => 0%Q)).
    assert (Hk : is_Some (_title_cache self !! k) ↔ is_Some (_cache self !! k))
      by (rewrite <- !elem_of_dom; by rewrite Hagree).
    destruct (_cache self !! k) as [t0|].
    - destruct (is_expired ttl_hours now t0); [done|].
      split; [by eexists|]. intros _. by apply Hk.
    - exact Hk. }
  split; [|split; [exact Hclean|split; [exact Hclean|]]].
  - unfold keys_agree, add in *. cbn [_cache _title_cache].
    by rewrite !dom_insert_L, Hagree.
  - unfold is_duplicate, is_duplicate_url. cbn [snd].
    intros k cached Hk. rewrite clean_title_cache_exact in Hk.
    assert (His : is_Some (_cache self !! k)).
    { apply elem_of_dom. unfold keys_agree in Hagree. rewrite <- Hagree.
      apply elem_of_dom. destruct (_cache self !! k) as [t0|]; [|by eexists].
      destruct (is_expired ttl_hours now t0); [done|by eexists]. }
    destruct His as [t0 Ht0]. rewrite Ht0 in Hk. exists t0. split; [done|].
    unfold is_expired in Hk.
    destruct (Z.ltb_spec (ttl_hours * MICROSECONDS_PER_HOUR) (now - t0)); [done|lia].
Qed.


End CacheRules.

Section CacheRulesWitnesses.
Import DuplicateChecker.

Lemma clean_cache_twice_witness :
  _clean_cache 24 90000000000
    (_clean_cache 24 3600000000
       (add (fun url => url) 0 "https://example.com/test" "Test Article" empty))
  = _clean_cache 24 90000000000
      (add (fun url => url) 0 "https://example.com/test" "Test Article" empty).
Proof. apply clean_cache_twice. lia. Defined.

Lemma keys_agree_invariant_witness :
  keys_agree (add (fun url => url) 0 "https://example.com/test" "Test Article"
                  empty).
Proof.
  refine (proj1 (proj2 (keys_agree_invariant
                          24 (fun url => url) (fun _ _ => 0%Q) 85%Q
                          0 "https://example.com/test" "Test Article" empty) _)).
  reflexivity.
Defined.

End CacheRulesWitnesses.

(** ** Scheduler jobs, further *)

Section JobRules.
Import DuplicateChecker NewsScheduler.

Variable md5_hexdigest : string → string.
Variable fuzz_ratio : string → string → Q.
Variable ttl_hours : Z.
Variable similarity_threshold : Q.
Variable clean_text : string → string.
Variable detect_language : string → string.
Variable news_filter : NewsFilter.t.
Variable summary_short : Enriched → string.
Variable send_news : Enriched → string → outcome.
Variable send_digest : string → list DigestItem → outcome.

Local Abbreviation dup_check :=
  (is_duplicate md5_hexdigest fuzz_ratio ttl_hours similarity_threshold).
Local Abbreviation enrich := (_enrich_article clean_text detect_language).
Local Abbreviation breaking_run :=
  (breaking_loop md5_hexdigest fuzz_ratio ttl_hours similarity_threshold
                 clean_text detect_language news_filter send_news).
Local Abbreviation digest_scan :=
  (enrich_and_filter md5_hexdigest fuzz_ratio ttl_hours similarity_threshold
                     clean_text detect_language news_filter).
Local Abbreviation digest_run :=
  (_send_digest md5_hexdigest fuzz_ratio ttl_hours similarity_threshold
                clean_text detect_language news_filter summary_short send_digest).

Lemma enrich_keeps_article (a : Article) (e : Enriched) :
  enrich a = Some e →
  url (article e) = url a ∧ title (article e) = title a ∧ ts (article e) = ts a.
Proof. unfold _enrich_article. intros [= <-]. done. Qed.

Lemma breaking_run_cons (now : Z) (a : Article) (rest : list Article)
    (c : DuplicateChecker.t) :
  breaking_run now (a :: rest) c
  = let c1 := snd (dup_check now (url a) (title a) c) in
    if fst (dup_check now (url a) (title a) c) then breaking_run now rest c1
    else
      match enrich a with
      | None => breaking_run now rest c1
      | Some enriched =>
          if NewsFilter.is_breaking_news news_filter enriched then
            let confidence := confidence_of (impact_score enriched) in
            match send_news enriched confidence with
            | Raises => (c1, [SentNews enriched confidence Raises])
            | Returns ok =>
                let run := breaking_run now rest
                             (add md5_hexdigest now (url a) (title a) c1) in
                (fst run, SentNews enriched confidence (Returns ok) :: snd run)
            end
          else breaking_run now rest c1
      end.
Proof.
  cbn [breaking_loop].
  destruct (is_duplicate _ _ _ _ _ _ _ _) as [dup c1]. cbn [fst snd].
  destruct dup; [reflexivity|].
  destruct (_enrich_article _ _ _) as [e|]; [|reflexivity].
  destruct (NewsFilter.is_breaking_news _ _); [|reflexivity].
  destruct (send_news _ _); [|reflexivity].
  by destruct (breaking_loop _ _ _ _ _ _ _ _ _ _ _).
Qed.

(** X18.  Every event of a breaking check is a [send_news] call for an
    article of the collected list that [_enrich_article] enriched and
    [is_breaking_news] accepted; the calls keep the order of the
    collector; and when the breaking threshold is at least 60 the
    confidence label is never the lowest one. *)
Theorem check_breaking_news_events
    (now : Z) (collected : list Article) (checker : DuplicateChecker.t) :
  (∀ ev,
     ev ∈ snd (check_breaking_news md5_hexdigest fuzz_ratio ttl_hours
                 similarity_threshold clean_text detect_language
                 news_filter send_news now collected checker) →
     ∃ a enriched,
       a ∈ collected
       ∧ _enrich_article clean_text detect_language a = Some enriched
       ∧ NewsFilter.is_breaking_news news_filter enriched = true
       ∧ ev = SentNews enriched (confidence_of (impact_score enriched))
                       (send_news enriched (confidence_of (impact_score enriched)))
       ∧ (60 ≤ NewsFilter.impact_threshold_breaking news_filter →
          confidence_of (impact_score enriched) = "高"
          ∨ confidence_of (impact_score enriched) = "中"))
  ∧ event_urls (snd (check_breaking_news md5_hexdigest fuzz_ratio ttl_hours
                       similarity_threshold clean_text detect_language
                       news_filter send_news now collected checker))
    `sublist_of` map url collected.
Proof.
  unfold check_breaking_news. revert checker.
  induction collected as [|a rest IH]; intros c.
  - split; [intros ev H; inversion H|constructor].
  - rewrite breaking_run_cons. cbn zeta.
    assert (Hskip : ∀ c',
      (∀ ev, ev ∈ snd (breaking_run now rest c') →
         ∃ a0 enriched,
           a0 ∈ a :: rest
           ∧ _enrich_article clean_text detect_language a0 = Some enriched
           ∧ NewsFilter.is_breaking_news news_filter enriched = true
           ∧ ev = SentNews enriched (confidence_of (impact_score enriched))
                    (send_news enriched (confidence_of (impact_score enriched)))
           ∧ (60 ≤ NewsFilter.impact_threshold_breaking news_filter →
              confidence_of (impact_score enriched) = "高"
              ∨ confidence_of (impact_score enriched) = "中"))
      ∧ event_urls (snd (breaking_run now rest c'))
        `sublist_of` map url (a :: rest)).
    { intros c'. destruct (IH c') as [Hev Hsub]. split.
      - intros ev Hin. destruct (Hev ev Hin) as (a0 & e & Ha0 & ?).
        exists a0, e. split; [by apply list_elem_of_further|done].
      - by apply sublist_cons. }
    destruct (fst (dup_check now (url a) (title a) c)); [apply Hskip|].
    destruct (enrich a) as [e|] eqn:Ee; [|apply Hskip].
    destruct (enrich_keeps_article a e Ee) as (Hurl & _ & _).
    destruct (NewsFilter.is_breaking_news news_filter e) eqn:Eb; [|apply Hskip].
    assert (Hhead : ∃ a0 enriched,
           a0 ∈ a :: rest
           ∧ _enrich_article clean_text detect_language a0 = Some enriched
           ∧ NewsFilter.is_breaking_news news_filter enriched = true
           ∧ SentNews e (confidence_of (impact_score e))
                      (send_news e (confidence_of (impact_score e)))
             = SentNews enriched (confidence_of (impact_score enriched))
                 (send_news enriched (confidence_of (impact_score enriched)))
           ∧ (60 ≤ NewsFilter.impact_threshold_breaking news_filter →
              confidence_of (impact_score enriched) = "高"
              ∨ confidence_of (impact_score enriched) = "中")).
    { exists a, e. split; [apply list_elem_of_here|]. split; [exact Ee|].
      split; [exact Eb|]. split; [reflexivity|].
      intros Hthr. unfold NewsFilter.is_breaking_news in Eb.
      destruct (Z.ltb_spec (impact_score e)
                           (NewsFilter.impact_threshold_breaking news_filter));
        [discriminate Eb|].
      unfold confidence_of.
      destruct (Z.leb_spec 80 (impact_score e)); [by left|].
      destruct (Z.leb_spec 60 (impact_score e)); [by right|lia]. }
    destruct (send_news e (confidence_of (impact_score e))) as [ok|] eqn:Es;
      cbn [snd].
    + destruct (Hskip (add md5_hexdigest now (url a) (title a)
                           (snd (dup_check now (url a) (title a) c))))
        as [Hev _].
      destruct (IH (add md5_hexdigest now (url a) (title a)
                        (snd (dup_check now (url a) (title a) c))))
        as [_ Hsub].
      split.
      * intros ev Hin. apply elem_of_cons in Hin as [->|Hin]; [|by apply Hev].
        exact Hhead.
      * cbn [event_urls flat_map app map]. rewrite Hurl.
        by apply sublist_skip.
    + split.
      * intros ev Hin. apply list_elem_of_singleton in Hin as ->. exact Hhead.
      * cbn [event_urls flat_map app map]. rewrite Hurl.
        apply sublist_skip, sublist_nil_l.
Qed.

Lemma digest_scan_cons (now : Z) (a : Article) (rest : list Article)
    (c : DuplicateChecker.t) :
  digest_scan now (a :: rest) c
  = let c1 := snd (dup_check now (url a) (title a) c) in
    if fst (dup_check now (url a) (title a) c) then digest_scan now rest c1
    else
      match enrich a with
      | Some enriched =>
          if NewsFilter.is_digest_worthy news_filter enriched
          then (fst (digest_scan now rest c1),
                enriched :: snd (digest_scan now rest c1))
          else digest_scan now rest c1
      | None => digest_scan now rest c1
      end.
Proof.
  cbn [enrich_and_filter].
  destruct (is_duplicate _ _ _ _ _ _ _ _) as [dup c1]. cbn [fst snd].
  destruct dup; [reflexivity|].
  destruct (_enrich_article _ _ _) as [e|]; [|reflexivity].
  destruct (NewsFilter.is_digest_worthy _ _); [|reflexivity].
  by destruct (enrich_and_filter _ _ _ _ _ _ _ _ _ _).
Qed.

(** What the first loop of [_send_digest] keeps. *)
Lemma digest_scan_elems (now : Z) (articles : list Article)
    (c : DuplicateChecker.t) (e : Enriched) :
  e ∈ snd (digest_scan now articles c) →
  ∃ a, a ∈ articles ∧ enrich a = Some e
       ∧ NewsFilter.is_digest_worthy news_filter e = true.
Proof.
  revert c. induction articles as [|a rest IH]; intros c Hin; [inversion Hin|].
  rewrite digest_scan_cons in Hin. cbn zeta in Hin.
  assert (Hskip : ∀ c', e ∈ snd (digest_scan now rest c') →
                        ∃ a0, a0 ∈ a :: rest ∧ enrich a0 = Some e
                              ∧ NewsFilter.is_digest_worthy news_filter e = true).
  { intros c' H. destruct (IH c' H) as (a0 & Ha0 & ?). exists a0.
    split; [by apply list_elem_of_further|done]. }
  destruct (fst (dup_check now (url a) (title a) c)); [by eapply Hskip|].
  destruct (enrich a) as [e'|] eqn:Ee; [|by eapply Hskip].
  destruct (NewsFilter.is_digest_worthy news_filter e') eqn:Ew; [|by eapply Hskip].
  cbn [snd] in Hin. apply elem_of_cons in Hin as [->|Hin]; [|by eapply Hskip].
  exists a. split; [apply list_elem_of_here|done].
Qed.

(** The entries of [digest_data], one for each article of the digest. *)
Lemma prepare_digest_data_items (now : Z) (top_articles : list Enriched)
    (c : DuplicateChecker.t) :
  Forall2 (fun enriched item =>
             item_title item = title (article enriched)
             ∧ item_url item = url (article enriched)
             ∧ item_confidence item = confidence_of (impact_score enriched)
             ∧ item_summary_short item = summary_short enriched
             ∧ item_currencies_str item
               = join ", " (take 3 (currencies enriched)))
          top_articles
          (snd (prepare_digest_data md5_hexdigest summary_short
                                    now top_articles c)).
Proof.
  revert c. induction top_articles as [|e rest IH]; intros c; [constructor|].
  cbn [prepare_digest_data].
  specialize (IH (add md5_hexdigest now (url (article e)) (title (article e)) c)).
  destruct (prepare_digest_data _ _ _ rest _) as [c' data]. cbn [snd] in *.
  by constructor.
Qed.

(** The outcome of [_send_digest] in terms of its two loops. *)
Lemma digest_run_events (now : Z) (collected : list Article)
    (digest_title : string) (hours_back : Z) (c : DuplicateChecker.t) :
  let recent :=
    filter (fun a => now - hours_back * MICROSECONDS_PER_HOUR <? ts a) collected in
  let top :=
    take 10 (NewsFilter.sort_by_impact_desc (snd (digest_scan now recent c))) in
  let items :=
    snd (prepare_digest_data md5_hexdigest summary_short now top
                             (fst (digest_scan now recent c))) in
  snd (digest_run now collected digest_title hours_back c)
  = match top with
    | [] => []
    | _ => [SentDigest ("📊 " +:+ digest_title) items
                       (send_digest ("📊 " +:+ digest_title) items)]
    end.
Proof.
  cbn zeta. unfold _send_digest.
  destruct (enrich_and_filter _ _ _ _ _ _ _ _ _ _) as [c1 es]. cbn [fst snd].
  destruct (take 10 (NewsFilter.sort_by_impact_desc es)) as [|e top];
    [reflexivity|].
  by destruct (prepare_digest_data _ _ _ (e :: top) c1).
Qed.

Lemma digest_top_elems (now : Z) (collected : list Article) (hours_back : Z)
    (c : DuplicateChecker.t) (e : Enriched) :
  e ∈ take 10 (NewsFilter.sort_by_impact_desc
                 (snd (digest_scan now
                         (filter (fun a => now - hours_back * MICROSECONDS_PER_HOUR
                                           <? ts a) collected) c))) →
  e ∈ snd (digest_scan now
             (filter (fun a => now - hours_back * MICROSECONDS_PER_HOUR <? ts a)
                     collected) c).
Proof.
  intros He. apply (subseteq_take 10) in He.
  by rewrite sort_by_impact_desc_perm in He.
Qed.

(** X19.  A digest run makes no delivery call, or exactly one
    [send_digest] call, titled with the chart emoji and the digest title.
    The digest then has between 1 and 10 items, one for each chosen
    article, in non-increasing order of impact score, with the title,
    URL, confidence label and first three currencies of the article; and
    every chosen article is a collected one, newer than the look-back
    cutoff, that [_enrich_article] enriched and [is_digest_worthy]
    accepted. *)
Theorem send_digest_spec
    (now : Z) (collected : list Article) (digest_title : string)
    (hours_back : Z) (checker : DuplicateChecker.t) :
  snd (_send_digest md5_hexdigest fuzz_ratio ttl_hours similarity_threshold
                    clean_text detect_language news_filter summary_short
                    send_digest now collected digest_title hours_back checker)
  = []
  ∨ ∃ top items,
      snd (_send_digest md5_hexdigest fuzz_ratio ttl_hours similarity_threshold
                        clean_text detect_language news_filter summary_short
                        send_digest now collected digest_title hours_back checker)
      = [SentDigest ("📊 " +:+ digest_title) items
                    (send_digest ("📊 " +:+ digest_title) items)]
      ∧ (1 ≤ length top ≤ 10)%nat
      ∧ StronglySorted impact_desc top
      ∧ Forall2 (fun enriched item =>
                   item_title item = title (article enriched)
                   ∧ item_url item = url (article enriched)
                   ∧ item_confidence item = confidence_of (impact_score enriched)
                   ∧ item_summary_short item = summary_short enriched
                   ∧ item_currencies_str item
                     = join ", " (take 3 (currencies enriched)))
                top items
      ∧ ∀ enriched, enriched ∈ top →
          ∃ a, a ∈ collected
               ∧ now - hours_back * MICROSECONDS_PER_HOUR < ts a
               ∧ _enrich_article clean_text detect_language a = Some enriched
               ∧ NewsFilter.is_digest_worthy news_filter enriched = true.
Proof.
  rewrite digest_run_events. cbn zeta.
  set (recent := filter _ collected).
  set (scan := digest_scan now recent checker).
  destruct (take 10 (NewsFilter.sort_by_impact_desc (snd scan)))
    as [|e top] eqn:Etop; [by left|right].
  exists (e :: top). eexists. split; [reflexivity|].
  split; [|split; [|split]].
  - assert (Hlen : (length (e :: top) ≤ 10)%nat)
      by (rewrite <- Etop, length_take; lia).
    cbn [length] in *. lia.
  - rewrite <- Etop. eapply StronglySorted_app_1_l. rewrite take_drop.
    apply sort_by_impact_desc_sorted.
  - apply prepare_digest_data_items.
  - intros e' He'. rewrite <- Etop in He'.
    apply digest_top_elems, digest_scan_elems in He' as (a & Ha & Hen & Hw).
    apply list_elem_of_filter in Ha as [Hrecent Ha].
    apply Is_true_true, Z.ltb_lt in Hrecent. by exists a.
Qed.

(** Every URL of a digest is the URL of an article kept by the first
    loop. *)
Lemma digest_run_urls (now : Z) (collected : list Article)
    (digest_title : string) (hours_back : Z) (c : DuplicateChecker.t) (u : string) :
  u ∈ event_urls (snd (digest_run now collected digest_title hours_back c)) →
  ∃ e, e ∈ snd (digest_scan now
                  (filter (fun a => now - hours_back * MICROSECONDS_PER_HOUR
                                    <? ts a) collected) c)
       ∧ url (article e) = u.
Proof.
  rewrite digest_run_events. cbn zeta.
  set (recent := filter _ collected).
  destruct (take 10 (NewsFilter.sort_by_impact_desc
                       (snd (digest_scan now recent c))))
    as [|e top] eqn:Etop; [intros H; inversion H|].
  cbn [event_urls flat_map]. rewrite app_nil_r. intros Hu.
  pose proof (prepare_digest_data_items now (e :: top)
                (fst (digest_scan now recent c))) as Hitems.
  apply list_elem_of_fmap in Hu as (item & -> & Hitem).
  apply list_elem_of_lookup in Hitem as [i Hi].
  destruct (Forall2_lookup_r _ _ _ _ _ Hitems Hi) as (e' & He' & _ & Hurl & _).
  exists e'. split; [|by rewrite Hurl].
  apply (digest_top_elems now collected hours_back c).
  fold recent. rewrite Etop. by eapply list_elem_of_lookup_2.
Qed.

(** X21.  The morning digest only dispatches articles newer than twelve
    hours before the run, the night digest only articles newer than
    sixteen hours before the run; each dispatched URL is the URL of such
    a collected article. *)
Theorem scheduled_digests_window
    (now : Z) (collected : list Article) (checker : DuplicateChecker.t) :
  (∀ u, u ∈ event_urls
              (snd (send_morning_digest
                      md5_hexdigest fuzz_ratio ttl_hours similarity_threshold
                      clean_text detect_language news_filter summary_short
                      send_digest now collected checker)) →
        ∃ a, a ∈ collected ∧ url a = u
             ∧ now - 12 * MICROSECONDS_PER_HOUR < ts a)
  ∧ (∀ u, u ∈ event_urls
                (snd (send_night_digest
                        md5_hexdigest fuzz_ratio ttl_hours similarity_threshold
                        clean_text detect_language news_filter summary_short
                        send_digest now collected checker)) →
          ∃ a, a ∈ collected ∧ url a = u
               ∧ now - 16 * MICROSECONDS_PER_HOUR < ts a).
Proof.
  assert (Hwin : ∀ digest_title hours_back u,
            u ∈ event_urls (snd (digest_run now collected digest_title
                                            hours_back checker)) →
            ∃ a, a ∈ collected ∧ url a = u
                 ∧ now - hours_back * MICROSECONDS_PER_HOUR < ts a).
  { intros digest_title hours_back u Hu.
    apply digest_run_urls in Hu as (e & He & <-).
    apply digest_scan_elems in He as (a & Ha & Hen & _).
    apply list_elem_of_filter in Ha as [Hrecent Ha].
    apply Is_true_true, Z.ltb_lt in Hrecent.
    destruct (enrich_keeps_article a e Hen) as (Hurl & _ & _).
    by exists a. }
  split; intros u Hu; by apply Hwin in Hu.
Qed.

End JobRules.

Section QualifyingRules.
Import NewsScheduler.

Variable clean_text : string → string.
Variable detect_language : string → string.
Variable news_filter : NewsFilter.t.

(** X22.  An article enriched by [_enrich_article] can only be breaking
    or digest-worthy when the allow-list holds one of the pairs that
    [extract_currency_pairs] derives from its currencies.  As USDJPY is
    never derived, an allow-list that holds nothing but USDJPY lets no
    article through. *)
Theorem qualifying_needs_derived_pair (a : Article) (enriched : Enriched) :
  _enrich_article clean_text detect_language a = Some enriched →
  (NewsFilter.is_breaking_news news_filter enriched = true
   ∨ NewsFilter.is_digest_worthy news_filter enriched = true →
   ∃ pair_code,
     pair_code ∈ NewsFilter.pairs_allowlist news_filter
     ∧ pair_code ∈ EntityExtractor.extract_currency_pairs (currencies enriched))
  ∧ (NewsFilter.pairs_allowlist news_filter ⊆ {[ "USDJPY" ]} →
     NewsFilter.is_breaking_news news_filter enriched = false
     ∧ NewsFilter.is_digest_worthy news_filter enriched = false).
Proof.
  intros Hen.
  assert (Hkeys : ∀ p s, pair_scores enriched !! p = Some s →
                         p ∈ EntityExtractor.extract_currency_pairs
                               (currencies enriched)).
  { unfold _enrich_article in Hen. injection Hen as <-.
    cbn [pair_scores currencies]. intros p s.
    rewrite calculate_pair_scores_fold, assign_all_lookup.
    by case_bool_decide. }
  assert (Hneed : NewsFilter.is_breaking_news news_filter enriched = true
                  ∨ NewsFilter.is_digest_worthy news_filter enriched = true →
                  ∃ pair_code,
                    pair_code ∈ NewsFilter.pairs_allowlist news_filter
                    ∧ pair_code ∈ EntityExtractor.extract_currency_pairs
                                    (currencies enriched)).
  { intros [Hb|Hd].
    - unfold NewsFilter.is_breaking_news in Hb.
      destruct (impact_score enriched <? _); [discriminate Hb|].
      apply existsb_exists in Hb as ([p s] & Hin & Hok).
      apply andb_true_iff in Hok as [Hallow _].
      apply bool_decide_eq_true in Hallow.
      apply list_elem_of_In, elem_of_map_to_list in Hin.
      exists p. split; [exact Hallow|]. by eapply Hkeys.
    - apply is_digest_worthy_keys in Hd as (_ & p & Hdom & Hallow).
      apply elem_of_dom in Hdom as [s Hs].
      exists p. split; [exact Hallow|]. by eapply Hkeys. }
  split; [exact Hneed|]. intros Honly.
  assert (Hnone : ¬ (NewsFilter.is_breaking_news news_filter enriched = true
                     ∨ NewsFilter.is_digest_worthy news_filter enriched = true)).
  { intros H. apply Hneed in H as (p & Hallow & Hp).
    apply Honly, elem_of_singleton in Hallow as ->.
    by apply extract_currency_pairs_never_usdjpy in Hp. }
  split; apply not_true_is_false; intros H; apply Hnone; tauto.
Qed.

End QualifyingRules.

Section JobRulesWitnesses.
Import DuplicateChecker NewsScheduler.

Lemma qualifying_needs_derived_pair_witness :
  ∃ enriched pair_code,
    _enrich_article (fun text => text) (fun _ => "en") digest_article
    = Some enriched
    ∧ pair_code ∈ NewsFilter.pairs_allowlist sample_filter
    ∧ pair_code ∈ EntityExtractor.extract_currency_pairs (currencies enriched).
Proof.
  eexists.
  destruct (proj1 (qualifying_needs_derived_pair
                     (fun text => text) (fun _ => "en") sample_filter
                     digest_article _ eq_refl)) as (pair_code & Hallow & Hpair).
  - left. vm_compute. reflexivity.
  - exists pair_code. split; [reflexivity|]. split; [exact Hallow|exact Hpair].
Defined.

End JobRulesWitnesses.

(** * Further properties: text normalisation and Discord delivery *)

(** ** Strings *)

Section TextFacts.
Import PyStr PyText.

Lemma len_prefix_chars (n : nat) (s : string) : (len (prefix_chars n s) <= n)%nat.
Proof.
  revert n. induction s as [|c s IH]; intros n; cbn [prefix_chars len]; [lia|].
  destruct (is_continuation c) eqn:E.
  - cbn [len]. rewrite E. apply IH.
  - destruct n as [|n]; cbn [len]; [lia|]. rewrite E. specialize (IH n). lia.
Qed.

Lemma has_char_drop (c : ascii) (n : nat) (s : string) :
  has_char c s = false → has_char c (drop n s) = false.
Proof.
  revert s. induction n as [|n IH]; intros [|d s] H; cbn [drop]; try done.
  cbn [has_char] in H. apply orb_false_iff in H as [_ H]. by apply IH.
Qed.

Lemma has_char_lstrip (c : ascii) (s : string) :
  has_char c s = false → has_char c (lstrip s) = false.
Proof.
  unfold lstrip. generalize (String.length s) as fuel. intros fuel. revert s.
  induction fuel as [|fuel IH]; intros s H; cbn [lstrip_fuel]; [done|].
  destruct (space_width s); [done|]. by apply IH, has_char_drop.
Qed.

Lemma has_char_rstrip (c : ascii) (s : string) :
  has_char c s = false → has_char c (rstrip s) = false.
Proof.
  induction s as [|d s IH]; intros H; cbn [rstrip]; [done|].
  destruct (truthy _); [|done].
  cbn [has_char] in *. apply orb_false_iff in H as [-> H]. by apply IH.
Qed.

Lemma has_char_strip (c : ascii) (s : string) :
  has_char c s = false → has_char c (strip s) = false.
Proof. intros H. by apply has_char_rstrip, has_char_lstrip. Qed.

Lemma space_width_newline (s : string) : space_width (String "010"%char s) ≠ O.
Proof. done. Qed.

Lemma collapse_spaces_no_newline (skip : nat) (in_run : bool) (s : string) :
  has_char "010"%char (TextUtils.collapse_spaces skip in_run s) = false.
Proof.
  revert skip in_run. induction s as [|c s IH]; intros skip in_run; [done|].
  cbn [TextUtils.collapse_spaces]. destruct skip as [|k]; [|apply IH].
  destruct (space_width (String c s)) as [|w] eqn:E.
  - cbn [has_char]. rewrite IH, orb_false_r.
    destruct (Ascii.eqb c "010"%char) eqn:Ec; [|done].
    apply Ascii.eqb_eq in Ec as ->. by apply space_width_newline in E.
  - destruct in_run; [apply IH|]. cbn [has_char]. by rewrite IH.
Qed.

Lemma normalize_japanese_no_newline (text : string) :
  has_char "010"%char (TextUtils.normalize_japanese text) = false.
Proof.
  unfold TextUtils.normalize_japanese. destruct (truthy text); [|done].
  apply has_char_strip, collapse_spaces_no_newline.
Qed.

Lemma split_no_separator (sep : ascii) (s : string) :
  has_char sep s = false → split sep s = [s].
Proof.
  induction s as [|c s IH]; intros H; [done|].
  cbn [has_char] in H. apply orb_false_iff in H as [Hc H].
  cbn [split]. rewrite Hc. by rewrite (IH H).
Qed.

End TextFacts.

Section SummarySections.
Import PyText DiscordEmbed.

(** A summary of one line opens one section at most. *)
Lemma parse_summary_one_line (summary : string) :
  PyStr.has_char "010"%char summary = false →
  _parse_summary summary
  = match header_of (strip summary) with
    | Some section =>
        {[ section := strip (split_once_last "：" (strip summary)) ]}
    | None => ∅
    end.
Proof.
  intros H. unfold _parse_summary. rewrite (split_no_separator _ _ H).
  cbn [fold_left parse_line].
  destruct (PyStr.truthy (strip summary)) eqn:Et.
  - destruct (header_of (strip summary)); [|done].
    by cbn [close_section NewsScheduler.join].
  - destruct (strip summary); [done|discriminate Et].
Qed.

Lemma section_field_length (sections : gmap string string)
    (key label : string) (is_inline : bool) :
  (length (section_field sections key label is_inline) <= 1)%nat
  ∧ (sections !! key = None → section_field sections key label is_inline = []).
Proof.
  unfold section_field.
  destruct (sections !! key) as [content|]; [|by split; [cbn; lia|]].
  split; [|done]. destruct (PyStr.truthy content); cbn; lia.
Qed.

Lemma text_field_length (label text : string) :
  (length (text_field label text) <= 1)%nat.
Proof. unfold text_field. destruct (PyStr.truthy text); cbn; lia. Qed.

Lemma header_of_section (line section : string) :
  header_of line = Some section → section ∈ SECTION_NAMES.
Proof.
  unfold header_of. intros H. apply find_some in H as [H _].
  by apply list_elem_of_In.
Qed.

Lemma news_fields_length (summary action_guide confidence disclaimer : string) :
  (2 <= length (news_fields summary action_guide confidence disclaimer) <= 7)%nat.
Proof.
  unfold news_fields. cbn zeta. rewrite !length_app. cbn [length].
  pose proof (text_field_length "🎯 次の一手（考え方）" action_guide).
  pose proof (text_field_length "⚠️ 免責事項" disclaimer).
  pose proof (section_field_length (_parse_summary summary) "要点" "📌 要点" false)
    as [? _].
  pose proof (section_field_length (_parse_summary summary)
                "なぜ重要か" "⚡ なぜ重要か" false) as [? _].
  pose proof (section_field_length (_parse_summary summary)
                "関連ペア" "💱 関連ペア" true) as [? _].
  lia.
Qed.

Lemma section_field_elem (sections : gmap string string) (key label : string)
    (is_inline : bool) (f : Field) :
  f ∈ section_field sections key label is_inline → (len (value f) <= 1024)%nat.
Proof.
  unfold section_field. destruct (sections !! key) as [content|]; [|by inversion 1].
  destruct (PyStr.truthy content); [|by inversion 1].
  intros ->%list_elem_of_singleton. apply len_prefix_chars.
Qed.

Lemma text_field_elem (label text : string) (f : Field) :
  f ∈ text_field label text → (len (value f) <= 1024)%nat.
Proof.
  unfold text_field. destruct (PyStr.truthy text); [|by inversion 1].
  intros ->%list_elem_of_singleton. apply len_prefix_chars.
Qed.

Lemma news_fields_elem (summary action_guide confidence disclaimer : string)
    (f : Field) :
  f ∈ news_fields summary action_guide confidence disclaimer →
  (name f = "📊 確度" ∧ value f = confidence) ∨ (len (value f) <= 1024)%nat.
Proof.
  unfold news_fields. cbn zeta.
  rewrite !elem_of_app, !list_elem_of_singleton.
  intros [H|[H|[H|[->|[H|[->|H]]]]]].
  - right. by apply section_field_elem in H.
  - right. by apply section_field_elem in H.
  - right. by apply section_field_elem in H.
  - by left.
  - right. by apply text_field_elem in H.
  - right. vm_compute. lia.
  - right. by apply text_field_elem in H.
Qed.

End SummarySections.

Section SummaryRules.
Import PyText DiscordEmbed.

Lemma news_fields_one_section (summary action_guide confidence disclaimer : string) :
  (∀ key key', key ≠ key' → is_Some (_parse_summary summary !! key) →
               _parse_summary summary !! key' = None) →
  (length (news_fields summary action_guide confidence disclaimer) <= 5)%nat.
Proof.
  intros Hone. unfold news_fields. cbn zeta. rewrite !length_app. cbn [length].
  pose proof (text_field_length "🎯 次の一手（考え方）" action_guide).
  pose proof (text_field_length "⚠️ 免責事項" disclaimer).
  pose proof (section_field_length (_parse_summary summary) "要点" "📌 要点" false)
    as [H1 H1'].
  pose proof (section_field_length (_parse_summary summary)
                "なぜ重要か" "⚡ なぜ重要か" false) as [H2 H2'].
  pose proof (section_field_length (_parse_summary summary)
                "関連ペア" "💱 関連ペア" true) as [H3 H3'].
  destruct (_parse_summary summary !! "要点") as [v|] eqn:E1.
  - rewrite H2', H3'; [cbn [length]; lia| |];
      by apply (Hone "要点"); [|rewrite E1].
  - rewrite H1' by done.
    destruct (_parse_summary summary !! "なぜ重要か") as [v|] eqn:E2.
    + rewrite H3'; [cbn [length]; lia|].
      by apply (Hone "なぜ重要か"); [|rewrite E2].
    + rewrite H2' by done. cbn [length]. lia.
Qed.

Lemma one_line_one_section (summary : string) :
  PyStr.has_char "010"%char summary = false →
  ∀ key key', key ≠ key' → is_Some (_parse_summary summary !! key) →
              _parse_summary summary !! key' = None.
Proof.
  intros H key key' Hne [v Hv]. rewrite (parse_summary_one_line _ H) in *.
  destruct (header_of (strip summary)) as [section|]; [|done].
  apply lookup_singleton_Some in Hv as [<- _].
  by apply lookup_singleton_ne.
Qed.

(** X23.  A summary that went through [normalize_japanese] has no line
    break, so [_parse_summary] sees one line: it returns the one section
    whose header starts the text, with all that follows as its content,
    or no section at all.  The news embed then shows at most one of the
    three summary fields, hence at most five fields. *)
Theorem normalized_summary_one_section
    (raw action_guide confidence disclaimer : string) :
  let summary := TextUtils.normalize_japanese raw in
  PyStr.has_char "010"%char summary = false
  ∧ _parse_summary summary
    = match header_of (strip summary) with
      | Some section =>
          {[ section := strip (split_once_last "：" (strip summary)) ]}
      | None => ∅
      end
  ∧ (length (news_fields summary action_guide confidence disclaimer) <= 5)%nat.
Proof.
  cbn zeta. pose proof (normalize_japanese_no_newline raw) as H.
  split; [exact H|]. split; [by apply parse_summary_one_line|].
  by apply news_fields_one_section, one_line_one_section.
Qed.

End SummaryRules.

Section GeneratedSummary.
Import PyText DiscordEmbed SummaryGuide.
Variable summarize : Enriched -> option string.
Variable generate_action_guide : string -> Enriched -> option string.

Lemma has_char_app (c : ascii) (a b : string) :
  PyStr.has_char c (a +:+ b) = PyStr.has_char c a || PyStr.has_char c b.
Proof.
  induction a as [|d a IH]; [done|].
  change (String d a +:+ b) with (String d (a +:+ b)).
  cbn [PyStr.has_char]. by rewrite IH, orb_assoc.
Qed.

Lemma fallback_opens_no_section (text : string) :
  header_of (strip ("要約生成に失敗しました。元記事をご確認ください: " +:+ text)) = None.
Proof. vm_compute. reflexivity. Qed.

(** X24.  For an article whose title has no line break, the summary
    that [_generate_summary_and_guide] returns has no line break and at
    most one section.  When one of the two LLM calls raises, the fallback
    summary has no section at all, so the alert shows no summary field,
    and the guide is the fixed sentence. *)
Theorem generated_summary_sections (enriched : Enriched) :
  PyStr.has_char "010"%char (title (article enriched)) = false →
  let result := _generate_summary_and_guide summarize generate_action_guide enriched in
  PyStr.has_char "010"%char result.1 = false
  ∧ (size (_parse_summary result.1) <= 1)%nat
  ∧ (summarize enriched = None
     ∨ (∃ raw, summarize enriched = Some raw
               ∧ generate_action_guide (TextUtils.normalize_japanese raw) enriched
                 = None) →
     _parse_summary result.1 = ∅ ∧ result.2 = "詳細は元記事をご確認ください。").
Proof.
  intros Htitle. cbn zeta.
  assert (Hfb : PyStr.has_char "010"%char (fallback enriched).1 = false).
  { unfold fallback. cbn [fst]. rewrite has_char_app, Htitle. done. }
  assert (Hline : PyStr.has_char "010"%char
            (_generate_summary_and_guide summarize generate_action_guide enriched).1
          = false).
  { unfold _generate_summary_and_guide.
    destruct (summarize enriched) as [raw|]; [|exact Hfb].
    destruct (generate_action_guide _ enriched); [|exact Hfb].
    apply normalize_japanese_no_newline. }
  split; [exact Hline|]. split.
  - rewrite (parse_summary_one_line _ Hline).
    destruct (header_of _); [by rewrite map_size_singleton|rewrite map_size_empty; lia].
  - intros Hraised.
    assert (E : _generate_summary_and_guide summarize generate_action_guide enriched
                = fallback enriched).
    { unfold _generate_summary_and_guide.
      destruct Hraised as [->|(raw & -> & Hguide)]; [done|].
      cbn zeta. by rewrite Hguide. }
    rewrite E. split; [|done]. rewrite (parse_summary_one_line _ Hfb).
    unfold fallback. cbn [fst]. by rewrite fallback_opens_no_section.
Qed.

End GeneratedSummary.

Section DeliveryRules.
Import PyText DiscordEmbed DiscordDelivery NewsScheduler.
Variable post : nat -> string -> Payload -> bool.

Lemma send_attempts_spec (n : nat) (w : string) (p : Payload) (log : requests) :
  ∃ k, (k <= n)%nat
    ∧ (send_attempts post n w p log).2 = log ++ replicate k (w, p)
    ∧ (∀ j, (S j < k)%nat → post (length log + j)%nat w p = false)
    ∧ ((∃ ok, (send_attempts post n w p log).1 = Returns ok)
         ∧ (1 <= k)%nat ∧ accepted post (length log) k w p = true
       ∨ (send_attempts post n w p log).1 = Raises ∧ k = n
         ∧ (n = O ∨ accepted post (length log) k w p = false)).
Proof.
  revert log. induction n as [|n IH]; intros log.
  { exists O. cbn [send_attempts replicate snd fst]. rewrite app_nil_r.
    split; [lia|]. split; [done|]. split; [intros; lia|].
    right. split; [done|]. split; [done|]. by left. }
  cbn [send_attempts]. cbn zeta.
  destruct (post (length log) w p) eqn:E.
  - exists 1%nat. cbn [fst snd replicate accepted]. rewrite Nat.add_0_r.
    split; [lia|]. split; [done|]. split; [intros; lia|].
    left. split; [by exists true|]. split; [lia|done].
  - destruct (IH (log ++ [(w, p)])) as (k & Hk & Hlog & Hrefused & Hend).
    rewrite length_app in *. cbn [length] in *.
    exists (S k). split; [lia|]. split.
    { rewrite Hlog, <- app_assoc. done. }
    split.
    { intros [|j] Hj; [by rewrite Nat.add_0_r|].
      replace (length log + S j)%nat with (length log + 1 + j)%nat by lia.
      apply Hrefused. lia. }
    destruct Hend as [(Hret & Hk1 & Hacc)|(Hraise & -> & Hacc)].
    + left. split; [exact Hret|]. split; [lia|].
      destruct k as [|k']; [lia|]. cbn [accepted] in *.
      by replace (length log + S k')%nat with (length log + 1 + k')%nat by lia.
    + right. split; [exact Hraise|]. split; [done|]. right.
      destruct n as [|n']; cbn [accepted] in *.
      * by rewrite Nat.add_0_r.
      * destruct Hacc as [|Hacc]; [done|].
        by replace (length log + S n')%nat with (length log + 1 + n')%nat by lia.
Qed.

(** One webhook: no request when it is not configured, otherwise one to
    three requests, the last of them the only one that may be accepted. *)
Lemma send_to_spec (w : string) (p : Payload) (success : bool) (log : requests) :
  ∃ k, (send_to post w p success log).2 = log ++ replicate k (w, p)
    ∧ (if PyStr.truthy w then (1 <= k <= 3)%nat else k = O)
    ∧ (∀ j, (S j < k)%nat → post (length log + j)%nat w p = false)
    ∧ (send_to post w p success log).1
      = success && accepted post (length log) k w p
    ∧ (accepted post (length log) k w p = false → k = 3%nat).
Proof.
  unfold send_to, _send_webhook. destruct (PyStr.truthy w) eqn:Ew.
  - destruct (send_attempts_spec 3 w p log)
      as (k & Hk & Hlog & Hrefused & Hend).
    exists k.
    destruct (send_attempts post 3 w p log) as [[ok|] log'];
      cbn [fst snd] in *;
      destruct Hend as [([ok' Hret] & Hk1 & Hacc)|(Hraise & -> & Hacc)];
      try discriminate.
    + rewrite Hacc, andb_true_r.
      split; [done|]. split; [lia|]. split; [done|]. split; done.
    + destruct Hacc as [|Hacc]; [done|]. rewrite Hacc, andb_false_r.
      split; [done|]. split; [lia|]. split; [done|]. split; done.
  - exists O. cbn [fst snd replicate accepted].
    rewrite app_nil_r, andb_true_r.
    split; [done|]. split; [done|]. split; [intros; lia|]. split; done.
Qed.

Variable webhook_beginner webhook_pro disclaimer : string.

(** Both webhooks, one after the other, with one payload. *)
Lemma send_both_spec (payload : Payload) (log : requests) :
  delivered_to_both post webhook_beginner webhook_pro payload log
    (let '(success, log') := send_to post webhook_beginner payload true log in
     send_to post webhook_pro payload success log').
Proof.
  unfold delivered_to_both.
  destruct (send_to_spec webhook_beginner payload true log)
    as (kb & Hlog & Hkb & Hrb & Hflag & Hthree).
  destruct (send_to post webhook_beginner payload true log) as [success log'].
  cbn [fst snd] in *. subst log'.
  destruct (send_to_spec webhook_pro payload success
              (log ++ replicate kb (webhook_beginner, payload)))
    as (kp & Hlog & Hkp & Hrp & Hflag' & Hthree').
  rewrite length_app, length_replicate in *.
  exists kb, kp. rewrite Hlog, Hflag', Hflag, <- app_assoc. cbn [andb].
  split; [done|]. split; [done|]. split; [done|]. split; [done|].
  split; [done|]. split; [done|]. split; done.
Qed.

(** What [send_news] puts on the wire: one embed, for both webhooks. *)
Lemma send_news_payload (utcnow title summary action_guide source url : string)
    (currencies : list string) (confidence : string)
    (original_excerpt : option string) (log : requests) :
  ∃ embed : Embed (list Field),
    send_news post webhook_beginner webhook_pro disclaimer utcnow title summary
              action_guide source url currencies confidence original_excerpt log
    = (let '(success, log') :=
         send_to post webhook_beginner [embed] true log in
       send_to post webhook_pro [embed] success log')
    ∧ embed_title embed = prefix_chars 256 title
    ∧ color embed = ImpactScorer.dict_get COLORS (PyStr.lower confidence) 0xFFFF00
    ∧ fields embed
      = match original_excerpt with
        | Some excerpt =>
            if PyStr.truthy excerpt && PyStr.truthy webhook_pro
            then list_insert_at 1 (excerpt_field excerpt)
                   (news_fields summary action_guide confidence disclaimer)
            else news_fields summary action_guide confidence disclaimer
        | None => news_fields summary action_guide confidence disclaimer
        end.
Proof.
  unfold send_news, create_news_embed.
  destruct original_excerpt as [excerpt|];
    [destruct (PyStr.truthy excerpt && PyStr.truthy webhook_pro)|];
    (match goal with
     | |- ∃ _, (let '(_, _) := send_to _ _ [?embed] _ _ in _) = _ ∧ _ =>
         exists embed
     end;
     split;
     [destruct (send_to post webhook_beginner _ true log) as [success log'];
      by destruct (send_to post webhook_pro _ success log')|];
     split; [done|]; split; done).
Qed.

End DeliveryRules.

Section DeliveryTheorems.
Import PyText DiscordEmbed DiscordDelivery NewsScheduler.
Variable post : nat -> string -> Payload -> bool.
Variable webhook_beginner webhook_pro disclaimer : string.

(** X25.  [send_news] sends one and the same embed to both webhooks: the
    copy made for the pro webhook shares the list of fields with the
    original, so when an excerpt is given and the pro webhook is
    configured, the excerpt is the second field of every request, also of
    the requests to the beginner webhook; and a configured beginner
    webhook gets at least one request. *)
Theorem send_news_shares_fields
    (utcnow title summary action_guide source url : string)
    (currencies : list string) (confidence : string)
    (original_excerpt : option string) (log : requests) :
  ∃ (embed : Embed (list Field)) (kb kp : nat),
    (send_news post webhook_beginner webhook_pro disclaimer utcnow title summary
               action_guide source url currencies confidence original_excerpt
               log).2
    = log ++ replicate kb (webhook_beginner, [embed])
          ++ replicate kp (webhook_pro, [embed])
    ∧ (PyStr.truthy webhook_beginner = true → (1 <= kb)%nat)
    ∧ (∀ excerpt, original_excerpt = Some excerpt →
                  PyStr.truthy excerpt = true →
                  PyStr.truthy webhook_pro = true →
                  fields embed !! 1%nat = Some (excerpt_field excerpt)).
Proof.
  destruct (send_news_payload post webhook_beginner webhook_pro disclaimer
              utcnow title summary action_guide source url currencies
              confidence original_excerpt log)
    as (embed & -> & _ & _ & Hfields).
  destruct (send_both_spec post webhook_beginner webhook_pro [embed] log)
    as (kb & kp & Hlog & Hkb & _).
  exists embed, kb, kp. split; [exact Hlog|]. split.
  - intros Hb. rewrite Hb in Hkb. lia.
  - intros excerpt -> He Hp. rewrite Hfields, He, Hp. cbn [andb].
    pose proof (news_fields_length summary action_guide confidence disclaimer)
      as Hlen.
    destruct (news_fields summary action_guide confidence disclaimer)
      as [|f fs]; [cbn [length] in Hlen; lia|done].
Qed.

(** X26.  [send_news] and [send_digest] make no request to a webhook
    that is not configured and at most three to a configured one,
    stopping at the first that is accepted; a webhook that refused three
    times only clears the flag, and the other webhook is still served.
    The flag returned is [True] exactly when no webhook ended on a
    refusal, so it is [True] when no webhook is configured at all. *)
Theorem delivery_attempts_and_flag
    (utcnow title summary action_guide source url : string)
    (currencies : list string) (confidence : string)
    (original_excerpt : option string)
    (digest_title : string) (articles : list DigestItem) (period : string)
    (log : requests) :
  (∃ embed,
     delivered_to_both post webhook_beginner webhook_pro [embed] log
       (send_news post webhook_beginner webhook_pro disclaimer utcnow title
                  summary action_guide source url currencies confidence
                  original_excerpt log))
  ∧ delivered_to_both post webhook_beginner webhook_pro
      [digest_embed disclaimer utcnow digest_title articles period] log
      (send_digest post webhook_beginner webhook_pro disclaimer utcnow
                   digest_title articles period log).
Proof.
  split.
  - destruct (send_news_payload post webhook_beginner webhook_pro disclaimer
                utcnow title summary action_guide source url currencies
                confidence original_excerpt log) as (embed & -> & _).
    exists embed. apply send_both_spec.
  - pose proof (send_both_spec post webhook_beginner webhook_pro
                  [digest_embed disclaimer utcnow digest_title articles period]
                  log) as H.
    unfold send_digest. cbn zeta.
    destruct (send_to post webhook_beginner _ true log) as [success log'].
    by destruct (send_to post webhook_pro _ success log').
Qed.

(** X27.  The embed of a news alert keeps to the limits of Discord: its
    title has at most 256 characters, it has between 2 and 8 fields, and
    the value of every field has at most 1024 characters, the confidence
    field apart, whose value is the label that the caller passed. *)
Theorem news_embed_within_limits
    (utcnow title summary action_guide source url : string)
    (currencies : list string) (confidence : string)
    (original_excerpt : option string) (log : requests) :
  ∃ embed,
    delivered_to_both post webhook_beginner webhook_pro [embed] log
      (send_news post webhook_beginner webhook_pro disclaimer utcnow title
                 summary action_guide source url currencies confidence
                 original_excerpt log)
    ∧ (len (embed_title embed) <= 256)%nat
    ∧ (2 <= length (fields embed) <= 8)%nat
    ∧ ∀ f, f ∈ fields embed →
           (name f = "📊 確度" ∧ value f = confidence)
           ∨ (len (value f) <= 1024)%nat.
Proof.
  destruct (send_news_payload post webhook_beginner webhook_pro disclaimer
              utcnow title summary action_guide source url currencies
              confidence original_excerpt log)
    as (embed & -> & Htitle & _ & Hfields).
  exists embed. split; [apply send_both_spec|].
  split; [rewrite Htitle; apply len_prefix_chars|].
  pose proof (news_fields_length summary action_guide confidence disclaimer)
    as Hlen.
  pose proof (news_fields_elem summary action_guide confidence disclaimer)
    as Helem.
  assert (Hins : ∀ excerpt,
            (2 <= length (list_insert_at 1 (excerpt_field excerpt)
                            (news_fields summary action_guide confidence
                                         disclaimer)) <= 8)%nat
            ∧ ∀ f, f ∈ list_insert_at 1 (excerpt_field excerpt)
                         (news_fields summary action_guide confidence disclaimer) →
                   (name f = "📊 確度" ∧ value f = confidence)
                   ∨ (len (value f) <= 1024)%nat).
  { intros excerpt. unfold list_insert_at. split.
    - rewrite length_app, length_take. cbn [length]. rewrite length_drop. lia.
    - intros f [Hf|Hf]%elem_of_app.
      + apply Helem. by apply (subseteq_take 1).
      + apply elem_of_cons in Hf as [->|Hf].
        * right. apply len_prefix_chars.
        * apply Helem. by apply (subseteq_drop 1). }
  rewrite Hfields.
  destruct original_excerpt as [excerpt|];
    [destruct (PyStr.truthy excerpt && PyStr.truthy webhook_pro)|];
    try (split; [lia|exact Helem]).
  apply Hins.
Qed.

End DeliveryTheorems.

Section ColourRules.
Import PyText DiscordEmbed NewsScheduler.

(** X28.  The colour of a news embed does not tell the confidence of an
    alert: for each of the three labels that the scheduler derives from
    the impact score the colour is the yellow of "medium"; another colour
    needs a label that is "high", "low" or "error" once lower-cased. *)
Theorem alert_colour_ignores_confidence
    (utcnow title summary action_guide source url : string)
    (currencies : list string) (disclaimer : string) (st : store) :
  (∀ score,
     color (create_news_embed utcnow title summary action_guide source url
              currencies (confidence_of score) disclaimer st).1 = 0xFFFF00)
  ∧ (∀ confidence,
       color (create_news_embed utcnow title summary action_guide source url
                currencies confidence disclaimer st).1 ≠ 0xFFFF00 →
       PyStr.lower confidence ∈ ["high"; "low"; "error"]).
Proof.
  split.
  - intros score. unfold create_news_embed, confidence_of. cbn [fst color].
    by destruct (80 <=? score), (60 <=? score).
  - intros confidence. unfold create_news_embed. cbn [fst color].
    unfold COLORS. cbn [ImpactScorer.dict_get].
    destruct (String.eqb "high" (PyStr.lower confidence)) eqn:E1;
      [apply String.eqb_eq in E1 as <-; intros _; set_solver|].
    destruct (String.eqb "medium" (PyStr.lower confidence)) eqn:E2; [done|].
    destruct (String.eqb "low" (PyStr.lower confidence)) eqn:E3;
      [apply String.eqb_eq in E3 as <-; intros _; set_solver|].
    destruct (String.eqb "error" (PyStr.lower confidence)) eqn:E4;
      [apply String.eqb_eq in E4 as <-; intros _; set_solver|].
    done.
Qed.

End ColourRules.

Section DigestDelivery.
Import DuplicateChecker PyText DiscordEmbed DiscordDelivery NewsScheduler.
Variable md5_hexdigest : string -> string.
Variable fuzz_ratio : string -> string -> Q.
Variable ttl_hours : Z.
Variable similarity_threshold : Q.
Variable clean_text : string -> string.
Variable detect_language : string -> string.
Variable news_filter : NewsFilter.t.
Variable summary_short : Enriched -> string.
Variable send_digest : string -> list DigestItem -> outcome.

(** X29.  No item that a digest run prepared is lost at delivery: the
    job hands at most ten items to [send_digest], so the slice
    [articles[:10]] keeps them all, and the embed has one field for each
    item, numbered from 1 in the order of the job, followed by the
    disclaimer when there is one. *)
Theorem digest_items_all_delivered (disclaimer utcnow period : string)
    (now : Z) (collected : list Article) (digest_title : string)
    (hours_back : Z) (checker : DuplicateChecker.t)
    (full_title : string) (items : list DigestItem) (result : outcome) :
  SentDigest full_title items result
    ∈ (_send_digest md5_hexdigest fuzz_ratio ttl_hours similarity_threshold
         clean_text detect_language news_filter summary_short send_digest
         now collected digest_title hours_back checker).2 →
  let embed := digest_embed disclaimer utcnow full_title items period in
  length (fields embed)
  = (length items + if PyStr.truthy disclaimer then 1 else 0)%nat
  ∧ ∀ i item, items !! i = Some item →
              fields embed !! i = Some (digest_field (S i) item).
Proof.
  intros Hev. cbn zeta.
  rewrite (digest_run_events md5_hexdigest fuzz_ratio ttl_hours
             similarity_threshold clean_text detect_language news_filter
             summary_short send_digest) in Hev.
  cbn zeta in Hev.
  set (scan := enrich_and_filter _ _ _ _ _ _ _ _ _ _) in Hev.
  pose proof (prepare_digest_data_items md5_hexdigest summary_short now
                (take 10 (NewsFilter.sort_by_impact_desc scan.2)) scan.1)
    as Hitems.
  apply Forall2_length in Hitems.
  assert (Hten : (length items <= 10)%nat).
  { destruct (take 10 (NewsFilter.sort_by_impact_desc scan.2)) as [|e top] eqn:Etop;
      [by apply elem_of_nil in Hev|].
    apply list_elem_of_singleton in Hev. injection Hev as _ Hi _.
    assert (Hl : length (e :: top) = length items)
      by (rewrite Hi; exact Hitems).
    rewrite <- Hl, <- Etop, length_take. lia. }
  unfold digest_embed. cbn [fields].
  rewrite (take_ge items 10) by exact Hten. split.
  - rewrite length_app, length_imap. f_equal.
    unfold text_field. by destruct (PyStr.truthy disclaimer).
  - intros i item Hi. rewrite lookup_app_l.
    + by rewrite list_lookup_imap, Hi.
    + rewrite length_imap. by apply lookup_lt_Some in Hi.
Qed.

End DigestDelivery.

Section DeliveryWitnesses.
Import DuplicateChecker PyText DiscordEmbed DiscordDelivery NewsScheduler SummaryGuide.

Lemma digest_items_all_delivered_witness :
  ∃ full_title items,
    length (fields (digest_embed "投資は自己責任で" "2024-01-02T03:04:05"
                      full_title items "本日"))
    = (length items + 1)%nat.
Proof.
  eexists _, _.
  refine (proj1 (digest_items_all_delivered
                   (fun url => url) (fun _ _ => 0%Q) 24 85%Q
                   (fun text => text) (fun _ => "en") sample_filter
                   (fun e => title (article e)) (fun _ _ => Returns true)
                   "投資は自己責任で" "2024-01-02T03:04:05" "本日"
                   0 [digest_article] "朝のダイジェスト" 12 empty _ _ _ _)).
  vm_compute. apply list_elem_of_here.
Defined.

Lemma generated_summary_sections_witness :
  PyStr.has_char "010"%char
    (_generate_summary_and_guide
       (fun _ => Some "要点：利上げ。 なぜ重要か：金利差") (fun _ _ => Some "様子見")
       (sample_enriched 70)).1
  = false.
Proof.
  refine (proj1 (generated_summary_sections _ _ (sample_enriched 70) _)).
  vm_compute. reflexivity.
Defined.

End DeliveryWitnesses.
